(** * ai_chat_console: conversation history, tool execution and the chat engine

    A shallow embedding of the orchestration core of the console chat
    application:

    - [providers/base.py]      messages, tool calls, model descriptors;
    - [core/conversation.py]   the bounded, role-aware history;
    - [tools/base.py], [tools/registry.py], [tools/executor.py]
                               tool results, lookup by name, guarded execution;
    - [providers/openrouter.py] the declared-but-unfinished provider;
    - [core/session.py]        the dictionary form of a session;
    - [core/chat.py]           [send_message], [stream_message] and helpers.

    Python objects are modelled by records, dictionaries handed to or received
    from collaborators by a JSON-like [value] type, mutable engine state by a
    state-and-exception monad, and the calls the engine makes on its
    collaborators by an ordered event log. *)

From Stdlib Require Import ZArith QArith Ascii String.
From stdpp Require Import base option list strings pretty gmap.

Set Warnings "-register-all".

Open Scope string_scope.
Open Scope list_scope.
Open Scope Z_scope.

(** ** Python values and exceptions *)

Module Py.

(** Values that cross the tool boundary ([Any] in the source): what a
    JSON document denotes, plus [None].  Floating-point numbers are not
    represented. *)
Inductive value : Type :=
| VNone
| VBool (b : bool)
| VInt (z : Z)
| VStr (s : string)
| VList (l : list value)
| VDict (d : list (string * value)).

(** An exception object [e]: [exn_kind] is [type(e).__name__], [exn_msg]
    is [str(e)], and [exn_is_timeout] answers
    [isinstance(e, asyncio.TimeoutError)].  Where nothing else is said the
    exception is an instance of [Exception]; an exception that derives from
    [BaseException] only is told apart where a tool's coroutine raises it
    ([Coroutines.Raised]). *)
Record exn : Type := Exn {
  exn_kind : string;
  exn_msg : string;
  exn_is_timeout : bool;
}.

(** Outcome of evaluating an expression that may raise. *)
Inductive Exc (A : Type) : Type :=
| Ok (a : A)
| Raise (e : exn).
Arguments Ok {A} a.
Arguments Raise {A} e.

Definition is_ok {A} (r : Exc A) : bool :=
  match r with Ok _ => true | Raise _ => false end.

(** [d.get(k)] on an insertion-ordered dictionary. *)
Fixpoint dict_get {V} (k : string) (d : list (string * V)) : option V :=
  match d with
  | [] => None
  | (k', v) :: d' => if String.eqb k k' then Some v else dict_get k d'
  end.

(** [d[k] = v]: an existing key keeps its position, a new key goes last. *)
Fixpoint dict_set {V} (k : string) (v : V) (d : list (string * V))
  : list (string * V) :=
  match d with
  | [] => [(k, v)]
  | (k', v') :: d' =>
      if String.eqb k k' then (k, v) :: d' else (k', v') :: dict_set k v d'
  end.

(** [l[start:]] with Python's treatment of negative and oversized bounds. *)
Definition slice_from {A} (l : list A) (start : Z) : list A :=
  if start <? 0
  then drop (Z.to_nat (Z.max 0 (Z.of_nat (length l) + start))) l
  else drop (Z.to_nat start) l.

(** Truthiness of a [str]. *)
Definition str_truthy (s : string) : bool :=
  match s with EmptyString => false | String _ _ => true end.

(** [f"{x}"] for an [Optional[str]]. *)
Definition format_opt_str (o : option string) : string :=
  match o with Some s => s | None => "None" end.

(** [f"{n}"] for an [int]. *)
Definition format_int (n : Z) : string := pretty n.

End Py.
Export Py.

(** ** providers/base.py *)

Inductive MessageRole : Type := SYSTEM | USER | ASSISTANT | TOOL.

#[global] Instance MessageRole_eq_dec : EqDecision MessageRole.
Proof. solve_decision. Defined.

Definition role_value (r : MessageRole) : string :=
  match r with
  | SYSTEM => "system"
  | USER => "user"
  | ASSISTANT => "assistant"
  | TOOL => "tool"
  end.

(** [MessageRole(s)]: lookup by value, [ValueError] otherwise. *)
Definition role_of_value (s : string) : Exc MessageRole :=
  if String.eqb s "system" then Ok SYSTEM
  else if String.eqb s "user" then Ok USER
  else if String.eqb s "assistant" then Ok ASSISTANT
  else if String.eqb s "tool" then Ok TOOL
  else Raise (Exn "ValueError" (s +:+ " is not a valid MessageRole") false).

Record Message : Type := mkMessage {
  role : MessageRole;
  content : string;
  tool_calls : option (list value);
  tool_call_id : option string;
}.

Definition is_system (m : Message) : bool :=
  bool_decide (role m = SYSTEM).

Definition key_error (k : string) : exn := Exn "KeyError" k false.

(** The dictionary form of a message.  A dictionary whose keys are known is
    modelled by a record holding one field per key; a key that may be missing
    has an [option] field, [None] standing for the absent key (which is also
    what [data.get(key)] answers for it). *)
Record MessageDict : Type := mkMessageDict {
  d_role : string;
  d_content : string;
  d_tool_calls : option (list value);
  d_tool_call_id : option string;
}.

(** Truthiness of [self.tool_calls] and of [self.tool_call_id]. *)
Definition tool_calls_truthy (o : option (list value)) : bool :=
  match o with Some (_ :: _) => true | _ => false end.

Definition tool_call_id_truthy (o : option string) : bool :=
  match o with Some s => str_truthy s | None => false end.

(** [Message.to_dict]: the two optional keys are written only when their
    value is truthy. *)
Definition Message_to_dict (m : Message) : MessageDict :=
  {| d_role := role_value (role m);
     d_content := content m;
     d_tool_calls :=
       if tool_calls_truthy (tool_calls m) then tool_calls m else None;
     d_tool_call_id :=
       if tool_call_id_truthy (tool_call_id m) then tool_call_id m else None |}.

(** [Message.from_dict]. *)
Definition Message_from_dict (data : MessageDict) : Exc Message :=
  match role_of_value (d_role data) with
  | Raise e => Raise e
  | Ok r => Ok (mkMessage r (d_content data) (d_tool_calls data)
                  (d_tool_call_id data))
  end.

Record ToolCall : Type := mkToolCall {
  tc_id : string;
  tc_name : string;
  tc_arguments : value;
}.

(** [ToolCall.to_dict]. *)
Definition ToolCall_to_dict (tc : ToolCall) : value :=
  VDict [("id", VStr (tc_id tc)); ("name", VStr (tc_name tc));
         ("arguments", tc_arguments tc)].

Record ModelInfo : Type := mkModelInfo {
  mi_name : string;
  mi_max_tokens : Z;
  mi_supports_streaming : bool;
  mi_supports_tools : bool;
  mi_supports_thinking : bool;
  mi_context_window : Z;
  mi_input_cost_per_1k : Q;
  mi_output_cost_per_1k : Q;
}.

(** ** core/conversation.py *)

Record Conversation : Type := mkConversation {
  messages : list Message;
  max_history : Z;
  system_prompt : option string;
}.

Definition set_messages (c : Conversation) (ms : list Message) : Conversation :=
  mkConversation ms (max_history c) (system_prompt c).

(** The two list comprehensions of [_trim_history]. *)
Definition system_of (ms : list Message) : list Message :=
  filter (fun m => role m = SYSTEM) ms.

Definition others_of (ms : list Message) : list Message :=
  filter (fun m => role m <> SYSTEM) ms.

Definition _trim_history (c : Conversation) : Conversation :=
  if max_history c <? Z.of_nat (length (messages c)) then
    let system_msgs := system_of (messages c) in
    let other_msgs := others_of (messages c) in
    let recent_msgs :=
      slice_from other_msgs (- (max_history c - Z.of_nat (length system_msgs))) in
    set_messages c (system_msgs ++ recent_msgs)
  else c.

Definition add_message (c : Conversation) (message : Message) : Conversation :=
  _trim_history (set_messages c (messages c ++ [message])).

Definition get_messages_for_provider (c : Conversation) : list Message :=
  messages c.

Definition get_message_count (c : Conversation) : nat :=
  length (messages c).

(** [self.messages.pop()]: removes the last element, whatever it is;
    [IndexError] on an empty list. *)
Definition pop_message (c : Conversation) : Exc Conversation :=
  match messages c with
  | [] => Raise (Exn "IndexError" "pop from empty list" false)
  | _ :: _ => Ok (set_messages c (removelast (messages c)))
  end.

(** ** tools/base.py *)

Record ToolSchema : Type := mkToolSchema {
  schema_name : string;
  schema_description : string;
  schema_parameters : value;
}.

Record ToolResult : Type := mkToolResult {
  success : bool;
  result : value;
  error : option string;
  metadata : list (string * value);
}.

(** How a call of a tool's coroutine [execute] ends, and after how
    many milliseconds; [Hangs] is a coroutine that never completes.  These
    are the runs of a cooperative tool, which awaits while it runs (so that
    a timeout can cancel it) and raises exceptions derived from [Exception];
    [Coroutines] below has the runs of any coroutine. *)
Inductive Completion : Type :=
| Returns (r : ToolResult)
| Raises (e : exn).

Inductive ToolRun : Type :=
| Finishes (millis : Z) (c : Completion)
| Hangs.

(** A tool instance: its [name] and [schema] properties and its [execute]
    coroutine, as a function of the keyword arguments. *)
Record BaseTool : Type := mkTool {
  tool_name : string;
  tool_schema : ToolSchema;
  tool_execute : list (string * value) -> ToolRun;
}.

(** ** tools/registry.py *)

(** A registered class is represented by the instance its constructor
    builds. *)
Record ToolRegistry : Type := mkRegistry {
  _tools : gmap string BaseTool;
  _tool_classes : gmap string BaseTool;
}.

Definition register (tool : BaseTool) (reg : ToolRegistry) : ToolRegistry :=
  {| _tools := <[tool_name tool := tool]> (_tools reg);
     _tool_classes := <[tool_name tool := tool]> (_tool_classes reg) |}.

Definition register_class (tool_class : BaseTool) (reg : ToolRegistry)
  : ToolRegistry :=
  {| _tools := _tools reg;
     _tool_classes := <[tool_name tool_class := tool_class]> (_tool_classes reg) |}.

(** [get_tool]: a class registered under [name] is instantiated on first
    use and cached.  The name is [None] when the caller had none to give. *)
Definition get_tool (name : option string) (reg : ToolRegistry)
  : option BaseTool * ToolRegistry :=
  match name with
  | None => (None, reg)
  | Some n =>
      match _tools reg !! n with
      | Some t => (Some t, reg)
      | None =>
          match _tool_classes reg !! n with
          | Some cls =>
              (Some cls, {| _tools := <[n := cls]> (_tools reg);
                            _tool_classes := _tool_classes reg |})
          | None => (None, reg)
          end
      end
  end.

Definition list_tools (reg : ToolRegistry) : list string :=
  elements (dom (_tools reg) ∪ dom (_tool_classes reg)).

Definition get_tool_schemas (reg : ToolRegistry) : list ToolSchema :=
  (tool_schema <$> (map_to_list (_tools reg)).*2)
  ++ (tool_schema <$>
        (map_to_list (filter (fun kv => _tools reg !! kv.1 = None)
                        (_tool_classes reg))).*2).

(** ** tools/executor.py *)

(** One entry of [execution_history].  The two wall-clock fields of the
    source record ([execution_time], [timestamp]) are not represented. *)
Record ExecutionRecord : Type := mkExecutionRecord {
  rec_tool_name : string;
  rec_arguments : value;
  rec_success : bool;
  rec_error_type : option string;
  rec_error_message : option string;
}.

Record ToolExecutor : Type := mkExecutor {
  default_timeout : Z;
  execution_history : list ExecutionRecord;
}.

Definition timeout_error : exn := Exn "TimeoutError" EmptyString true.

(** [asyncio.wait_for(coro, timeout)] on the run of a cooperative tool:
    the coroutine's own outcome when it completes before [timeout] seconds
    have passed, [TimeoutError] otherwise. *)
Definition wait_for (run : ToolRun) (timeout : Z) : Exc ToolResult :=
  match run with
  | Hangs => Raise timeout_error
  | Finishes millis c =>
      if millis <? 1000 * timeout
      then match c with Returns r => Ok r | Raises e => Raise e end
      else Raise timeout_error
  end.

Definition _record_execution (ex : ToolExecutor) (name : string)
    (arguments : value) (res : ToolResult) (error_type : option string)
  : ToolExecutor :=
  let execution_record :=
    {| rec_tool_name := name;
       rec_arguments := arguments;
       rec_success := success res;
       rec_error_type := error_type;
       rec_error_message := if success res then None else error res |} in
  let history := execution_history ex ++ [execution_record] in
  {| default_timeout := default_timeout ex;
     execution_history :=
       if 100 <? Z.of_nat (length history) then slice_from history (-100)
       else history |}.

(** [timeout or self.default_timeout]. *)
Definition effective_timeout (ex : ToolExecutor) (timeout : option Z) : Z :=
  match timeout with
  | Some t => if t =? 0 then default_timeout ex else t
  | None => default_timeout ex
  end.

Section Executor.

(** The text of the [TypeError] raised when [arguments], unpacked as the
    keyword arguments of [tool.execute], is not a mapping. *)
Variable kwargs_type_error : value -> string.

(** The [try] block of [execute]: unpack the arguments, await the tool
    under the timeout, record the outcome. *)
Definition execute_try (ex : ToolExecutor) (tool : BaseTool)
    (arguments : value) (timeout : Z) : Exc (ToolResult * ToolExecutor) :=
  let awaited :=
    match arguments with
    | VDict kwargs => wait_for (tool_execute tool kwargs) timeout
    | _ => Raise (Exn "TypeError" (kwargs_type_error arguments) false)
    end in
  match awaited with
  | Ok res => Ok (res, _record_execution ex (tool_name tool) arguments res None)
  | Raise e => Raise e
  end.

(** [execute] on a cooperative tool: every exception that the [try]
    block can raise is taken by one of the two handlers. *)
Definition execute (ex : ToolExecutor) (tool : BaseTool) (arguments : value)
    (timeout : option Z) : Exc (ToolResult * ToolExecutor) :=
  let timeout := effective_timeout ex timeout in
  match execute_try ex tool arguments timeout with
  | Ok r => Ok r
  | Raise e =>
      if exn_is_timeout e then
        (* except asyncio.TimeoutError *)
        let error_msg :=
          "Tool execution timed out after " +:+ format_int timeout
          +:+ " seconds" in
        let failed_result := mkToolResult false VNone (Some error_msg) [] in
        Ok (failed_result,
            _record_execution ex (tool_name tool) arguments failed_result
              (Some "timeout"))
      else
        (* except Exception as e *)
        let error_msg := "Tool execution failed: " +:+ exn_msg e in
        let failed_result := mkToolResult false VNone (Some error_msg) [] in
        Ok (failed_result,
            _record_execution ex (tool_name tool) arguments failed_result
              (Some (exn_kind e)))
  end.

Definition execute_by_name (ex : ToolExecutor) (registry : ToolRegistry)
    (name : option string) (arguments : value) (timeout : option Z)
  : Exc (ToolResult * ToolExecutor * ToolRegistry) :=
  match get_tool name registry with
  | (None, registry') =>
      Ok (mkToolResult false VNone
            (Some ("Tool '" +:+ format_opt_str name
                   +:+ "' not found in registry")) [],
          ex, registry')
  | (Some tool, registry') =>
      match execute ex tool arguments timeout with
      | Ok (res, ex') => Ok (res, ex', registry')
      | Raise e => Raise e
      end
  end.

End Executor.

(** ** tools/executor.py, for any coroutine

    A [BaseTool] above is a cooperative tool: its coroutine gives way to
    the event loop while it runs, lets a cancellation through, and raises
    only exceptions derived from [Exception]; the tools of the engine are
    taken to be of that kind.  [ToolExecutor.execute] itself awaits whatever
    coroutine [tool.execute] hands it.  This part follows it for every
    coroutine; [execute] above is its restriction to cooperative tools
    ([execute_cooperative] below). *)

Module Coroutines.

(** How a coroutine ends.  [is_exception] answers
    [isinstance(e, Exception)]: [asyncio.CancelledError],
    [KeyboardInterrupt], [SystemExit] and [GeneratorExit] derive from
    [BaseException] only. *)
Inductive Ending : Type :=
| Returned (r : ToolResult)
| Raised (e : exn) (is_exception : bool).

(** A run of a coroutine: after how many milliseconds it ends, and how, or
    that it never ends.  [cancellable] says whether the run can be cut short
    from outside.  A coroutine is cancelled where it awaits: one that
    computes or blocks without awaiting, or that catches the
    [CancelledError] thrown into it, goes on to its own end. *)
Inductive Coroutine : Type :=
| Ends (millis : Z) (cancellable : bool) (c : Ending)
| Never (cancellable : bool).

(** A tool instance, as far as [execute] uses it: its [name] and its
    [execute] coroutine. *)
Record Tool : Type := mkTool {
  t_name : string;
  t_execute : list (string * value) -> Coroutine;
}.

(** What an [await] gives: a value, an exception, or nothing, when what is
    awaited never ends. *)
Inductive Awaited (A : Type) : Type :=
| Value (a : A)
| Throws (e : exn) (is_exception : bool)
| Pending.
Arguments Value {A} a.
Arguments Throws {A} e is_exception.
Arguments Pending {A}.

Definition own_end (c : Ending) : Awaited ToolResult :=
  match c with
  | Returned r => Value r
  | Raised e is_exception => Throws e is_exception
  end.

(** [asyncio.wait_for(coro, timeout)].  A coroutine that ends in time
    gives its own end.  One that is still running when the timeout elapses
    is cancelled, and [TimeoutError] is raised, if it can be cancelled;
    if it cannot, [wait_for] returns when the coroutine has ended, however
    late, with what the coroutine returned or raised.  With a timeout that
    is not positive the coroutine is cancelled before it has started. *)
Definition wait_for (coro : Coroutine) (timeout : Z) : Awaited ToolResult :=
  match coro with
  | Ends millis cancellable c =>
      if (if cancellable then millis <? 1000 * timeout else 0 <? timeout)
      then own_end c
      else Throws timeout_error true
  | Never cancellable =>
      if cancellable || (timeout <=? 0) then Throws timeout_error true
      else Pending
  end.

Section Executor.

Variable kwargs_type_error : value -> string.

(** [execute]: the two handlers are tried in order, [asyncio.TimeoutError]
    first, then [Exception]; an exception that neither takes leaves
    [execute], and then nothing has been recorded. *)
Definition execute (ex : ToolExecutor) (tool : Tool) (arguments : value)
    (timeout : option Z) : Awaited (ToolResult * ToolExecutor) :=
  let timeout := effective_timeout ex timeout in
  let awaited :=
    match arguments with
    | VDict kwargs => wait_for (t_execute tool kwargs) timeout
    | _ => Throws (Exn "TypeError" (kwargs_type_error arguments) false) true
    end in
  match awaited with
  | Value res =>
      Value (res, _record_execution ex (t_name tool) arguments res None)
  | Throws e is_exception =>
      if exn_is_timeout e then
        (* except asyncio.TimeoutError *)
        let error_msg :=
          "Tool execution timed out after " +:+ format_int timeout
          +:+ " seconds" in
        let failed_result := mkToolResult false VNone (Some error_msg) [] in
        Value (failed_result,
               _record_execution ex (t_name tool) arguments failed_result
                 (Some "timeout"))
      else if is_exception then
        (* except Exception as e *)
        let error_msg := "Tool execution failed: " +:+ exn_msg e in
        let failed_result := mkToolResult false VNone (Some error_msg) [] in
        Value (failed_result,
               _record_execution ex (t_name tool) arguments failed_result
                 (Some (exn_kind e)))
      else Throws e false
  | Pending => Pending
  end.

End Executor.

(** The cooperative tools among all tools. *)
Definition cooperative (run : ToolRun) : Coroutine :=
  match run with
  | Finishes millis (Returns r) => Ends millis true (Returned r)
  | Finishes millis (Raises e) => Ends millis true (Raised e true)
  | Hangs => Never true
  end.

Definition cooperative_tool (tool : BaseTool) : Tool :=
  mkTool (tool_name tool) (fun kwargs => cooperative (tool_execute tool kwargs)).

Definition of_exc {A} (r : Exc A) : Awaited A :=
  match r with
  | Ok a => Value a
  | Raise e => Throws e true
  end.

End Coroutines.

(** ** core/session.py *)

Module Session.

Record SessionInfo : Type := mkSessionInfo {
  session_id : string;
  title : string;
  created_at : string;
  updated_at : string;
  provider : string;
  model : string;
  message_count : Z;
  tags : list string;
}.

Record ChatSession : Type := mkChatSession {
  info : SessionInfo;
  conversation : Conversation;
}.

(** [asdict(info)]; on the way back a missing [tags] key takes the
    dataclass default. *)
Record InfoDict : Type := mkInfoDict {
  i_session_id : string;
  i_title : string;
  i_created_at : string;
  i_updated_at : string;
  i_provider : string;
  i_model : string;
  i_message_count : Z;
  i_tags : option (list string);
}.

Record ConversationDict : Type := mkConversationDict {
  c_messages : list MessageDict;
  c_max_history : option Z;
  c_system_prompt : option string;
}.

Record SessionDict : Type := mkSessionDict {
  s_info : InfoDict;
  s_conversation : ConversationDict;
}.

Definition asdict (i : SessionInfo) : InfoDict :=
  {| i_session_id := session_id i;
     i_title := title i;
     i_created_at := created_at i;
     i_updated_at := updated_at i;
     i_provider := provider i;
     i_model := model i;
     i_message_count := message_count i;
     i_tags := Some (tags i) |}.

Definition SessionInfo_of_dict (d : InfoDict) : SessionInfo :=
  {| session_id := i_session_id d;
     title := i_title d;
     created_at := i_created_at d;
     updated_at := i_updated_at d;
     provider := i_provider d;
     model := i_model d;
     message_count := i_message_count d;
     tags := default [] (i_tags d) |}.

Definition to_dict (self : ChatSession) : SessionDict :=
  {| s_info := asdict (info self);
     s_conversation :=
       {| c_messages := Message_to_dict <$> messages (conversation self);
          c_max_history := Some (max_history (conversation self));
          c_system_prompt := system_prompt (conversation self) |} |}.

(** The list comprehension over [Message.from_dict]: the first failure
    propagates. *)
Fixpoint messages_from_dicts (ds : list MessageDict) : Exc (list Message) :=
  match ds with
  | [] => Ok []
  | d :: ds' =>
      match Message_from_dict d with
      | Raise e => Raise e
      | Ok m =>
          match messages_from_dicts ds' with
          | Raise e => Raise e
          | Ok ms => Ok (m :: ms)
          end
      end
  end.

Definition from_dict (data : SessionDict) : Exc ChatSession :=
  let info := SessionInfo_of_dict (s_info data) in
  let conv_data := s_conversation data in
  match messages_from_dicts (c_messages conv_data) with
  | Raise e => Raise e
  | Ok messages =>
      Ok {| info := info;
            conversation :=
              {| messages := messages;
                 max_history := default 50 (c_max_history conv_data);
                 system_prompt := c_system_prompt conv_data |} |}
  end.

End Session.

(** ** core/chat.py *)

Record ChatResponse : Type := mkChatResponse {
  resp_content : string;
  resp_tool_calls : option (list ToolCall);
  resp_thinking : option string;
  resp_model : option string;
  resp_usage : option value;
}.

(** A tool call as the provider reports it: a dictionary read with
    [.get] (a missing name reads as [None], missing arguments as the empty
    dictionary, a missing id as the empty string). *)
Record ToolCallDict : Type := mkToolCallDict {
  tcd_id : option string;
  tcd_name : option string;
  tcd_arguments : option value;
}.

Record ToolCallStart : Type := mkToolCallStart {
  start_id : option string;
  start_name : option string;
}.

Record ToolCallDelta : Type := mkToolCallDelta {
  partial_json : option string;
}.

(** A provider response, or one item of a provider's streamed feed: the
    keys the engine looks at.  [rd_stop] is the truth value of
    [chunk_data.get("stop", False)]. *)
Record ResponseData : Type := mkResponseData {
  rd_content : option string;
  rd_tool_calls : option (list ToolCallDict);
  rd_tool_results : option (list value);
  rd_tool_call_start : option ToolCallStart;
  rd_tool_call_delta : option ToolCallDelta;
  rd_stop : bool;
  rd_model : option string;
  rd_usage : option value;
}.

(** Truthiness of [response_data.get("tool_calls")]. *)
Definition tool_calls_truthy_dicts (o : option (list ToolCallDict)) : bool :=
  match o with Some (_ :: _) => true | _ => false end.

Definition empty_response : ResponseData :=
  mkResponseData None None None None None false None None.

(** The feed items a provider emits while streaming with tools. *)
Definition ev_tool_call_start (id name : string) : ResponseData :=
  mkResponseData None None None (Some (mkToolCallStart (Some id) (Some name)))
    None false None None.

Definition ev_tool_call_delta (fragment : string) : ResponseData :=
  mkResponseData None None None None (Some (mkToolCallDelta (Some fragment)))
    false None None.

Definition ev_content (text : string) : ResponseData :=
  mkResponseData (Some text) None None None None false None None.

Definition ev_stop : ResponseData :=
  mkResponseData None None None None None true None None.

(** A lazily produced feed that is consumed to its end: the items it
    yields, then either exhaustion or an exception. *)
Definition Feed (A : Type) : Type := (list A * option exn)%type.

(** The provider interface of [providers/base.py], as the engine uses it:
    each operation is a function of the request. *)
Module Provider.

Record BaseProvider : Type := mkProvider {
  supports_tools : bool;
  create_message : list Message -> Exc string;
  create_message_with_tools :
    list Message -> list ToolSchema -> Exc ResponseData;
  stream_message : list Message -> Feed string;
  stream_message_with_tools :
    list Message -> list ToolSchema -> Feed ResponseData;
}.

Definition supports_tool_calling (p : BaseProvider) : bool :=
  supports_tools p.

End Provider.

Record ChatConfig : Type := mkChatConfig {
  cfg_enable_thinking : bool;
  cfg_enable_tools : bool;
}.

(** What the engine does to its collaborators, in order of occurrence. *)
Inductive Event : Type :=
| EvAppend (m : Message)
| EvPop
| EvCreateMessage (msgs : list Message)
| EvCreateMessageWithTools (msgs : list Message) (tools : list ToolSchema)
| EvStreamMessage (msgs : list Message)
| EvStreamMessageWithTools (msgs : list Message) (tools : list ToolSchema)
| EvExecuteByName (name : option string) (arguments : value)
| EvYield (chunk : ChatResponse)
| EvSave.

Record ChatEngine : Type := mkEngine {
  conversation : Conversation;
  tool_registry : ToolRegistry;
  tool_executor : ToolExecutor;
  log : list Event;
}.

(** *** The engine monad: state passing with exceptions.  A raised
    exception keeps the state reached so far, as mutation does in Python. *)

Definition M (A : Type) : Type := ChatEngine -> Exc A * ChatEngine.

Definition ret {A} (a : A) : M A := fun st => (Ok a, st).

Definition bind {A B} (c : M A) (k : A -> M B) : M B :=
  fun st =>
    match c st with
    | (Ok a, st') => k a st'
    | (Raise e, st') => (Raise e, st')
    end.

Definition raise {A} (e : exn) : M A := fun st => (Raise e, st).

Definition try_except {A} (body : M A) (handler : exn -> M A) : M A :=
  fun st =>
    match body st with
    | (Ok a, st') => (Ok a, st')
    | (Raise e, st') => handler e st'
    end.

Definition lift {A} (r : Exc A) : M A := fun st => (r, st).

Declare Scope engine_scope.
Delimit Scope engine_scope with engine.
Notation "x <- c ;; k" := (bind c (fun x => k))
  (at level 100, c at next level, right associativity) : engine_scope.
Notation "c ;;; k" := (bind c (fun _ => k))
  (at level 100, right associativity) : engine_scope.
Open Scope engine_scope.

Definition emit (ev : Event) : M unit :=
  fun st =>
    (Ok tt, {| conversation := conversation st;
               tool_registry := tool_registry st;
               tool_executor := tool_executor st;
               log := log st ++ [ev] |}).

Definition set_conversation (c : Conversation) : M unit :=
  fun st =>
    (Ok tt, {| conversation := c;
               tool_registry := tool_registry st;
               tool_executor := tool_executor st;
               log := log st |}).

(** [self.conversation.add_message(m)]. *)
Definition append_message (m : Message) : M unit :=
  fun st =>
    (emit (EvAppend m) ;;; set_conversation (add_message (conversation st) m)) st.

(** [self.conversation.messages.pop()]. *)
Definition pop_last : M unit :=
  fun st =>
    (emit EvPop ;;;
     c <- lift (pop_message (conversation st)) ;;
     set_conversation c) st.

Definition provider_messages : M (list Message) :=
  fun st => (Ok (get_messages_for_provider (conversation st)), st).

(** [self.save_current_session()]: writes the active session, if any, to
    disk; the conversation is only read. *)
Definition save_current_session : M unit := emit EvSave.

(** Local variables of [stream_message]'s loop.  In the source,
    [current_tool_call] is the very dictionary stored in
    [accumulated_tool_calls] under its own id, so that appending to
    [current_tool_call["arguments_json"]] changes the stored entry; here
    [current_tool_call] holds the id and the entry is updated in place. *)
Record AccumulatedCall : Type := mkAccumulatedCall {
  acc_id : string;
  acc_name : string;
  acc_arguments : value;
  acc_arguments_json : string;
}.

Record StreamLocals : Type := mkStreamLocals {
  accumulated_content : string;
  accumulated_tool_calls : list (string * AccumulatedCall);
  current_tool_call : option string;
}.

Definition add_content (text : string) (ls : StreamLocals) : StreamLocals :=
  {| accumulated_content := accumulated_content ls +:+ text;
     accumulated_tool_calls := accumulated_tool_calls ls;
     current_tool_call := current_tool_call ls |}.

Definition set_accumulated (id : string) (call : AccumulatedCall)
    (ls : StreamLocals) : StreamLocals :=
  {| accumulated_content := accumulated_content ls;
     accumulated_tool_calls := dict_set id call (accumulated_tool_calls ls);
     current_tool_call := current_tool_call ls |}.

Definition text_response (text : string) : ChatResponse :=
  mkChatResponse text None None None None.

Section Engine.

Variable provider : Provider.BaseProvider.
Variable config : ChatConfig.

(** Python's [str] and [json.loads], and the message of the [TypeError]
    for keyword arguments that are not a mapping. *)
Variable py_str : value -> string.
Variable json_loads : string -> Exc value.
Variable kwargs_type_error : value -> string.

(** The two text helpers of thinking mode; no property below depends on
    what they compute. *)
Variable _create_thinking_prompt : string -> string.
Variable _parse_thinking_response : string -> string * string.

(** [await self.tool_executor.execute_by_name(self.tool_registry, ...)]. *)
Definition run_tool (name : option string) (arguments : value)
  : M ToolResult :=
  emit (EvExecuteByName name arguments) ;;;
  (fun st =>
     match execute_by_name kwargs_type_error (tool_executor st)
             (tool_registry st) name arguments None with
     | Ok (res, ex', reg') =>
         (Ok res, {| conversation := conversation st;
                     tool_registry := reg';
                     tool_executor := ex';
                     log := log st |})
     | Raise e => (Raise e, st)
     end).

(** [str(result.result) if result.success else f"Error: {result.error}"]. *)
Definition tool_result_text (r : ToolResult) : string :=
  if success r then py_str (result r)
  else "Error: " +:+ format_opt_str (error r).

Definition tool_result_message (tool_id : string) (r : ToolResult) : Message :=
  mkMessage TOOL (tool_result_text r) None (Some tool_id).

Definition tool_result_entry (tool_id : string) (r : ToolResult) : value :=
  VDict [("tool_call_id", VStr tool_id);
         ("result", if success r then result r
                    else VStr ("Error: " +:+ format_opt_str (error r)));
         ("success", VBool (success r))].

(** The [for tool_call in tool_calls] loop of [_handle_tool_calls]. *)
Fixpoint handle_each (tool_calls : list ToolCallDict)
    (tool_results : list value) : M (list value) :=
  match tool_calls with
  | [] => ret tool_results
  | tool_call :: rest =>
      let tool_name := tcd_name tool_call in
      let tool_args := default (VDict []) (tcd_arguments tool_call) in
      let tool_id := default EmptyString (tcd_id tool_call) in
      res <- run_tool tool_name tool_args ;;
      append_message (tool_result_message tool_id res) ;;;
      handle_each rest (tool_results ++ [tool_result_entry tool_id res])
  end.

Definition _handle_tool_calls (response_data : ResponseData)
  : M ResponseData :=
  match rd_tool_calls response_data with
  | None | Some [] => ret response_data
  | Some tool_calls =>
      tool_results <- handle_each tool_calls [] ;;
      msgs <- provider_messages ;;
      emit (EvCreateMessage msgs) ;;;
      final_response <- lift (Provider.create_message provider msgs) ;;
      ret {| rd_content := Some final_response;
             rd_tool_calls := Some tool_calls;
             rd_tool_results := Some tool_results;
             rd_tool_call_start := None;
             rd_tool_call_delta := None;
             rd_stop := false;
             rd_model := None;
             rd_usage := None |}
  end.

Definition ToolCall_of_dict (tc_data : ToolCallDict) : ToolCall :=
  {| tc_id := default EmptyString (tcd_id tc_data);
     tc_name := default EmptyString (tcd_name tc_data);
     tc_arguments := default (VDict []) (tcd_arguments tc_data) |}.

Definition _process_response (response_data : ResponseData)
    (enable_thinking : bool) : ChatResponse :=
  let content := default EmptyString (rd_content response_data) in
  let tool_calls_data :=
    match rd_tool_calls response_data with
    | Some l => l
    | None =>
        match rd_tool_call_start response_data with
        | Some s =>
            [ {| tcd_id := Some (default EmptyString (start_id s));
                 tcd_name := Some (default EmptyString (start_name s));
                 tcd_arguments := Some (VDict []) |} ]
        | None => []
        end
    end in
  let '(thinking, final_content) :=
    if enable_thinking && str_truthy content
    then let '(t, r) := _parse_thinking_response content in (Some t, r)
    else (None, content) in
  let tool_calls := ToolCall_of_dict <$> tool_calls_data in
  {| resp_content := final_content;
     resp_tool_calls :=
       match tool_calls with [] => None | _ :: _ => Some tool_calls end;
     resp_thinking := thinking;
     resp_model := rd_model response_data;
     resp_usage := rd_usage response_data |}.

(** Resolution of the tool flags, common to [send_message] and
    [stream_message]. *)
Definition should_enable_tools (tools : option (list ToolSchema))
    (enable_tools : option bool) (registry : ToolRegistry) : bool :=
  match enable_tools with
  | Some b => b
  | None =>
      cfg_enable_tools config && Provider.supports_tool_calling provider
      && (bool_decide (is_Some tools)
          || bool_decide (0 < length (list_tools registry))%nat)
  end.

Definition available_tools (tools : option (list ToolSchema))
    (enable_tools : option bool) (registry : ToolRegistry)
  : option (list ToolSchema) :=
  match tools with
  | None =>
      if should_enable_tools tools enable_tools registry
      then Some (get_tool_schemas registry)
      else None
  | Some _ => tools
  end.

(** [should_enable_tools and available_tools and
    self.provider.supports_tool_calling()], with the tools to offer. *)
Definition tools_to_offer (tools : option (list ToolSchema))
    (enable_tools : option bool) (registry : ToolRegistry)
  : option (list ToolSchema) :=
  if should_enable_tools tools enable_tools registry then
    match available_tools tools enable_tools registry with
    | Some (t :: ts) =>
        if Provider.supports_tool_calling provider then Some (t :: ts) else None
    | _ => None
    end
  else None.

Definition user_message (content : string) (thinking_mode : option bool)
  : Message :=
  let enable_thinking := default (cfg_enable_thinking config) thinking_mode in
  let modified_content :=
    if enable_thinking then _create_thinking_prompt content else content in
  mkMessage USER modified_content None None.

Definition assistant_message (chat_response : ChatResponse) : Message :=
  mkMessage ASSISTANT (resp_content chat_response)
    (match resp_tool_calls chat_response with
     | Some (tc :: tcs) => Some (ToolCall_to_dict <$> (tc :: tcs))
     | _ => None
     end)
    None.

(** The [try] block of [send_message]. *)
Definition send_message_try (msgs : list Message)
    (offered : option (list ToolSchema)) (enable_thinking : bool)
  : M ChatResponse :=
  response_data <-
    match offered with
    | Some available =>
        emit (EvCreateMessageWithTools msgs available) ;;;
        lift (Provider.create_message_with_tools provider msgs available)
    | None =>
        emit (EvCreateMessage msgs) ;;;
        response_content <- lift (Provider.create_message provider msgs) ;;
        ret (mkResponseData (Some response_content) None None None None
               false None None)
    end ;;
  response_data <-
    (if tool_calls_truthy_dicts (rd_tool_calls response_data)
     then _handle_tool_calls response_data
     else ret response_data) ;;
  let chat_response := _process_response response_data enable_thinking in
  append_message (assistant_message chat_response) ;;;
  save_current_session ;;;
  ret chat_response.

Definition send_message (content : string) (thinking_mode : option bool)
    (tools : option (list ToolSchema)) (enable_tools : option bool)
  : M ChatResponse :=
  fun st =>
    let enable_thinking :=
      default (cfg_enable_thinking config) thinking_mode in
    let offered := tools_to_offer tools enable_tools (tool_registry st) in
    (append_message (user_message content thinking_mode) ;;;
     msgs <- provider_messages ;;
     try_except
       (send_message_try msgs offered enable_thinking)
       (fun e => pop_last ;;; raise e)) st.

(** *** [stream_message] *)

Definition yield_chunk (chunk : ChatResponse) : M unit :=
  emit (EvYield chunk).

(** Lines 364-367: the accumulated fragments are parsed as one JSON
    text; no fragment at all stands for the empty argument object. *)
Definition parse_arguments_json (arguments_json : string) : Exc value :=
  if str_truthy arguments_json then json_loads arguments_json
  else Ok (VDict []).

Definition set_arguments (tool_call : AccumulatedCall) (arguments : value)
  : AccumulatedCall :=
  {| acc_id := acc_id tool_call;
     acc_name := acc_name tool_call;
     acc_arguments := arguments;
     acc_arguments_json := acc_arguments_json tool_call |}.

Definition append_arguments_json (fragment : string)
    (tool_call : AccumulatedCall) : AccumulatedCall :=
  {| acc_id := acc_id tool_call;
     acc_name := acc_name tool_call;
     acc_arguments := acc_arguments tool_call;
     acc_arguments_json := acc_arguments_json tool_call +:+ fragment |}.

(** The [except Exception as e] clause inside the stop loop. *)
Definition report_tool_error (tool_call : AccumulatedCall) (e : exn)
    (ls : StreamLocals) : M StreamLocals :=
  let error_text :=
    "Error executing " +:+ acc_name tool_call +:+ ": " +:+ exn_msg e in
  yield_chunk (text_response error_text) ;;;
  ret (add_content error_text ls).

(** One iteration of [for tool_id, tool_call in
    accumulated_tool_calls.items()]. *)
Definition execute_accumulated_call (tool_id : string)
    (tool_call : AccumulatedCall) (ls : StreamLocals) : M StreamLocals :=
  match parse_arguments_json (acc_arguments_json tool_call) with
  | Raise e => report_tool_error tool_call e ls
  | Ok arguments =>
      let tool_call := set_arguments tool_call arguments in
      let ls := set_accumulated tool_id tool_call ls in
      try_except
        (res <- run_tool (Some (acc_name tool_call)) arguments ;;
         append_message (tool_result_message tool_id res) ;;;
         let result_text := tool_result_text res in
         yield_chunk (text_response result_text) ;;;
         ret (add_content result_text ls))
        (fun e => report_tool_error tool_call e ls)
  end.

Fixpoint execute_accumulated (items : list (string * AccumulatedCall))
    (ls : StreamLocals) : M StreamLocals :=
  match items with
  | [] => ret ls
  | (tool_id, tool_call) :: rest =>
      ls' <- execute_accumulated_call tool_id tool_call ls ;;
      execute_accumulated rest ls'
  end.

(** The body of the [async for chunk_data in ...] loop, lines 337-400. *)
Definition stream_step (enable_thinking : bool) (ls : StreamLocals)
    (chunk_data : ResponseData) : M StreamLocals :=
  match rd_tool_call_start chunk_data,
        rd_tool_call_delta chunk_data, current_tool_call ls with
  | Some start, _, _ =>
      match start_id start, start_name start with
      | Some id, Some name =>
          ret {| accumulated_content := accumulated_content ls;
                 accumulated_tool_calls :=
                   dict_set id
                     (mkAccumulatedCall id name (VStr EmptyString) EmptyString)
                     (accumulated_tool_calls ls);
                 current_tool_call := Some id |}
      | None, _ => raise (key_error "id")
      | Some _, None => raise (key_error "name")
      end
  | None, Some delta, Some cur =>
      let fragment := default EmptyString (partial_json delta) in
      ret {| accumulated_content := accumulated_content ls;
             accumulated_tool_calls :=
               match dict_get cur (accumulated_tool_calls ls) with
               | Some call =>
                   dict_set cur (append_arguments_json fragment call)
                     (accumulated_tool_calls ls)
               | None => accumulated_tool_calls ls
               end;
             current_tool_call := Some cur |}
  | None, _, _ =>
      match rd_content chunk_data with
      | Some text =>
          yield_chunk (text_response text) ;;;
          ret (add_content text ls)
      | None =>
          if rd_stop chunk_data then
            execute_accumulated (accumulated_tool_calls ls) ls
          else
            let response_chunk :=
              _process_response chunk_data enable_thinking in
            if str_truthy (resp_content response_chunk) then
              yield_chunk response_chunk ;;;
              ret (add_content (resp_content response_chunk) ls)
            else ret ls
      end
  end.

Fixpoint consume_tool_feed (enable_thinking : bool)
    (items : list ResponseData) (ls : StreamLocals) : M StreamLocals :=
  match items with
  | [] => ret ls
  | chunk_data :: rest =>
      ls' <- stream_step enable_thinking ls chunk_data ;;
      consume_tool_feed enable_thinking rest ls'
  end.

Fixpoint consume_text_feed (items : list string) (ls : StreamLocals)
  : M StreamLocals :=
  match items with
  | [] => ret ls
  | content_chunk :: rest =>
      yield_chunk (text_response content_chunk) ;;;
      consume_text_feed rest (add_content content_chunk ls)
  end.

(** The end of a feed: exhaustion, or the exception it raises. *)
Definition feed_end {A} (ending : option exn) (a : A) : M A :=
  match ending with
  | None => ret a
  | Some e => raise e
  end.

Definition accumulated_call_entry (item : string * AccumulatedCall) : value :=
  VDict [("id", VStr item.1); ("name", VStr (acc_name item.2));
         ("arguments", acc_arguments item.2)].

Definition final_message (ls : StreamLocals) : Message :=
  let tool_calls_list :=
    accumulated_call_entry <$> accumulated_tool_calls ls in
  mkMessage ASSISTANT (accumulated_content ls)
    (match tool_calls_list with [] => None | _ :: _ => Some tool_calls_list end)
    None.

(** The [try] block of [stream_message]. *)
Definition stream_message_try (msgs : list Message)
    (offered : option (list ToolSchema)) (enable_thinking : bool)
  : M unit :=
  let ls0 := mkStreamLocals EmptyString [] None in
  ls <-
    match offered with
    | Some available =>
        emit (EvStreamMessageWithTools msgs available) ;;;
        let feed := Provider.stream_message_with_tools provider msgs available in
        ls <- consume_tool_feed enable_thinking feed.1 ls0 ;;
        feed_end feed.2 ls
    | None =>
        emit (EvStreamMessage msgs) ;;;
        let feed := Provider.stream_message provider msgs in
        ls <- consume_text_feed feed.1 ls0 ;;
        feed_end feed.2 ls
    end ;;
  append_message (final_message ls) ;;;
  save_current_session.

(** The generator is run to its end; what it yields is recorded in the
    log as [EvYield] events. *)
Definition stream_message (content : string)
    (thinking_mode : option bool) (tools : option (list ToolSchema))
    (enable_tools : option bool) : M unit :=
  fun st =>
    let enable_thinking :=
      default (cfg_enable_thinking config) thinking_mode in
    let offered := tools_to_offer tools enable_tools (tool_registry st) in
    (append_message (user_message content thinking_mode) ;;;
     msgs <- provider_messages ;;
     try_except
       (stream_message_try msgs offered enable_thinking)
       (fun e => pop_last ;;; raise e)) st.

End Engine.

(** ** providers/openrouter.py *)

(** Each operation is the result of awaiting the coroutine the method
    returns. *)
Module OpenRouterProvider.

Definition not_implemented : exn :=
  Exn "NotImplementedError" "OpenRouter provider not yet implemented" false.

Definition create_message (messages : list Message) : Exc string :=
  Raise not_implemented.

Definition stream_message (messages : list Message) : Exc (Feed string) :=
  Raise not_implemented.

Definition create_message_with_tools (messages : list Message)
    (tools : list ToolSchema) : Exc ResponseData :=
  Raise not_implemented.

Definition stream_message_with_tools (messages : list Message)
    (tools : list ToolSchema) : Exc (Feed ResponseData) :=
  Raise not_implemented.

Definition get_model_info (model : string) : Exc ModelInfo :=
  Ok {| mi_name := model;
        mi_max_tokens := 4096;
        mi_supports_streaming := true;
        mi_supports_tools := true;
        mi_supports_thinking := false;
        mi_context_window := 200000;
        mi_input_cost_per_1k := 1 # 100;
        mi_output_cost_per_1k := 3 # 100 |}.

Definition list_models : Exc (list ModelInfo) :=
  match get_model_info "anthropic/claude-3.5-sonnet" with
  | Ok info => Ok [info]
  | Raise e => Raise e
  end.

(** [BaseProvider.validate_connection], inherited unchanged: true when
    [list_models] does not raise. *)
Definition validate_connection : bool := is_ok list_models.

End OpenRouterProvider.

(** ** Reference instances of the Python built-ins

    [json.loads] restricted to the JSON texts used below: objects, arrays,
    strings with the single-character escapes, integers and the three
    literals.  Anything else is reported as a decoding error. *)

Module Json.

Definition decode_error (msg : string) : exn :=
  Exn "JSONDecodeError" msg false.

Definition dquote : ascii := ascii_of_nat 34.
Definition backslash : ascii := ascii_of_nat 92.

Definition is_ws (c : ascii) : bool :=
  let n := nat_of_ascii c in
  (n =? 32)%nat || (n =? 9)%nat || (n =? 10)%nat || (n =? 13)%nat.

Definition is_digit (c : ascii) : bool :=
  let n := nat_of_ascii c in (48 <=? n)%nat && (n <=? 57)%nat.

Fixpoint skip_ws (s : string) : string :=
  match s with
  | String c rest => if is_ws c then skip_ws rest else s
  | EmptyString => s
  end.

Definition unescape (c : ascii) : option ascii :=
  let n := nat_of_ascii c in
  if (n =? 34)%nat then Some dquote
  else if (n =? 92)%nat then Some backslash
  else if (n =? 47)%nat then Some c
  else if (n =? 98)%nat then Some (ascii_of_nat 8)
  else if (n =? 102)%nat then Some (ascii_of_nat 12)
  else if (n =? 110)%nat then Some (ascii_of_nat 10)
  else if (n =? 114)%nat then Some (ascii_of_nat 13)
  else if (n =? 116)%nat then Some (ascii_of_nat 9)
  else None.

(** The characters of a string literal after its opening quote. *)
Fixpoint string_body (s : string) (acc : string) : Exc (string * string) :=
  match s with
  | EmptyString => Raise (decode_error "Unterminated string")
  | String c rest =>
      if Ascii.eqb c dquote then Ok (acc, rest)
      else if Ascii.eqb c backslash then
        match rest with
        | String e rest' =>
            match unescape e with
            | Some u => string_body rest' (acc +:+ String u EmptyString)
            | None => Raise (decode_error "Invalid escape")
            end
        | EmptyString => Raise (decode_error "Unterminated string")
        end
      else if (nat_of_ascii c <? 32)%nat
      then Raise (decode_error "Invalid control character")
      else string_body rest (acc +:+ String c EmptyString)
  end.

Fixpoint digits (s : string) (acc : Z) : Z * string :=
  match s with
  | String c rest =>
      if is_digit c
      then digits rest (10 * acc + (Z.of_nat (nat_of_ascii c) - 48))
      else (acc, s)
  | EmptyString => (acc, s)
  end.

(** An integer: an optional sign, then [0] or a digit string without a
    leading zero; a fraction or an exponent is refused. *)
Definition number (s : string) : Exc (value * string) :=
  let '(negative, s1) :=
    match s with
    | String "-" rest => (true, rest)
    | _ => (false, s)
    end in
  match s1 with
  | String c rest =>
      if is_digit c then
        let '(n, s2) :=
          if (nat_of_ascii c =? 48)%nat then (0, rest) else digits s1 0 in
        match s2 with
        | String "." _ | String "e" _ | String "E" _ =>
            Raise (decode_error "Floating-point numbers are not represented")
        | _ => Ok (VInt (if negative then - n else n), s2)
        end
      else Raise (decode_error "Expecting value")
  | EmptyString => Raise (decode_error "Expecting value")
  end.

Fixpoint strip_prefix (p s : string) : option string :=
  match p, s with
  | EmptyString, _ => Some s
  | String a p', String b s' =>
      if Ascii.eqb a b then strip_prefix p' s' else None
  | String _ _, EmptyString => None
  end.

Fixpoint parse_value (fuel : nat) (s : string) : Exc (value * string) :=
  match fuel with
  | O => Raise (decode_error "nesting too deep")
  | S fuel' =>
      match skip_ws s with
      | String "{" rest =>
          match skip_ws rest with
          | String "}" rest' => Ok (VDict [], rest')
          | _ => parse_members fuel' rest []
          end
      | String "[" rest =>
          match skip_ws rest with
          | String "]" rest' => Ok (VList [], rest')
          | _ => parse_elements fuel' rest []
          end
      | String c rest as s' =>
          if Ascii.eqb c dquote then
            match string_body rest EmptyString with
            | Ok (str, rest') => Ok (VStr str, rest')
            | Raise e => Raise e
            end
          else
            match strip_prefix "true" s', strip_prefix "false" s',
                  strip_prefix "null" s' with
            | Some rest', _, _ => Ok (VBool true, rest')
            | _, Some rest', _ => Ok (VBool false, rest')
            | _, _, Some rest' => Ok (VNone, rest')
            | None, None, None => number s'
            end
      | EmptyString => Raise (decode_error "Expecting value")
      end
  end
with parse_elements (fuel : nat) (s : string) (acc : list value)
  : Exc (value * string) :=
  match fuel with
  | O => Raise (decode_error "nesting too deep")
  | S fuel' =>
      match parse_value fuel' s with
      | Raise e => Raise e
      | Ok (v, rest) =>
          match skip_ws rest with
          | String "," rest' => parse_elements fuel' rest' (acc ++ [v])
          | String "]" rest' => Ok (VList (acc ++ [v]), rest')
          | _ => Raise (decode_error "Expecting ',' delimiter")
          end
      end
  end
with parse_members (fuel : nat) (s : string) (acc : list (string * value))
  : Exc (value * string) :=
  match fuel with
  | O => Raise (decode_error "nesting too deep")
  | S fuel' =>
      match skip_ws s with
      | String c rest =>
          if Ascii.eqb c dquote then
            match string_body rest EmptyString with
            | Raise e => Raise e
            | Ok (key, rest1) =>
                match skip_ws rest1 with
                | String ":" rest2 =>
                    match parse_value fuel' rest2 with
                    | Raise e => Raise e
                    | Ok (v, rest3) =>
                        match skip_ws rest3 with
                        | String "," rest4 =>
                            parse_members fuel' rest4 (dict_set key v acc)
                        | String "}" rest4 =>
                            Ok (VDict (dict_set key v acc), rest4)
                        | _ => Raise (decode_error "Expecting ',' delimiter")
                        end
                    end
                | _ => Raise (decode_error "Expecting ':' delimiter")
                end
            end
          else Raise (decode_error "Expecting property name")
      | EmptyString => Raise (decode_error "Expecting property name")
      end
  end.

Definition loads (s : string) : Exc value :=
  match parse_value (2 * String.length s + 2) s with
  | Raise e => Raise e
  | Ok (v, rest) =>
      match skip_ws rest with
      | EmptyString => Ok v
      | String _ _ => Raise (decode_error "Extra data")
      end
  end.

(** A string literal as it is written in a JSON text. *)
Definition quoted (s : string) : string :=
  String dquote (s +:+ String dquote EmptyString).

End Json.

(** [str] on the scalars; the display of containers is not reproduced
    ([str] of a list or dictionary is an ellipsis here). *)
Definition str_scalar (v : value) : string :=
  match v with
  | VNone => "None"
  | VBool true => "True"
  | VBool false => "False"
  | VInt z => format_int z
  | VStr s => s
  | VList _ => "[...]"
  | VDict _ => "{...}"
  end.

Definition mapping_expected (v : value) : string :=
  "argument after ** must be a mapping".

(** ** Concrete scenarios

    A small world to run the engine in: one registered tool, and providers
    whose answers are fixed. *)

Module Scenario.

Definition calc_schema : ToolSchema :=
  mkToolSchema "calc" "Adds two integers" (VDict []).

(** A tool for the scenarios: it adds [a] and [b] when asked to. *)
Definition calc_execute (kwargs : list (string * value)) : ToolRun :=
  match dict_get "operation" kwargs, dict_get "a" kwargs, dict_get "b" kwargs with
  | Some (VStr op), Some (VInt a), Some (VInt b) =>
      if String.eqb op "add"
      then Finishes 1 (Returns (mkToolResult true (VInt (a + b)) None []))
      else Finishes 1
             (Returns (mkToolResult false VNone (Some "Unknown operation") []))
  | _, _, _ => Finishes 1 (Raises (Exn "TypeError" "missing arguments" false))
  end.

Definition calc : BaseTool := mkTool "calc" calc_schema calc_execute.

(** A tool that never answers, and one that fails at once. *)
Definition sleeper : BaseTool := mkTool "sleeper" calc_schema (fun _ => Hangs).

Definition broken : BaseTool :=
  mkTool "broken" calc_schema
    (fun _ => Finishes 2 (Raises (Exn "ValueError" "bad input" false))).

(** Three tools that are not cooperative ones, or not in time.  [slow]
    awaits for seven seconds, then answers.  [blocking] computes for a
    minute without awaiting, then answers.  [cancelled] raises
    [asyncio.CancelledError], which does not derive from [Exception]. *)
Definition done_result : ToolResult := mkToolResult true (VStr "done") None [].

Definition slow : Coroutines.Tool :=
  Coroutines.mkTool "slow"
    (fun _ => Coroutines.Ends 7000 true (Coroutines.Returned done_result)).

Definition blocking : Coroutines.Tool :=
  Coroutines.mkTool "blocking"
    (fun _ => Coroutines.Ends 60000 false (Coroutines.Returned done_result)).

Definition cancelled : Coroutines.Tool :=
  Coroutines.mkTool "cancelled"
    (fun _ =>
       Coroutines.Ends 1 true
         (Coroutines.Raised (Exn "CancelledError" EmptyString false) false)).

Definition registry : ToolRegistry := register calc (mkRegistry ∅ ∅).

Definition executor : ToolExecutor := mkExecutor 30 [].

Definition config : ChatConfig := mkChatConfig false true.

Definition fresh_engine : ChatEngine :=
  mkEngine (mkConversation [] 50 None) registry executor [].

Definition add_args : value :=
  VDict [("operation", VStr "add"); ("a", VInt 1); ("b", VInt 2)].

Definition call (id : string) : ToolCallDict :=
  mkToolCallDict (Some id) (Some "calc") (Some add_args).

Definition with_tool_calls (calls : list ToolCallDict) : ResponseData :=
  mkResponseData None (Some calls) None None None false None None.

(** Asks for two tool calls, then fails on the follow-up request. *)
Definition failing_followup : Provider.BaseProvider :=
  Provider.mkProvider true
    (fun _ => Raise (Exn "ProviderError" "API error: 500" false))
    (fun _ _ => Ok (with_tool_calls [call "a"; call "b"]))
    (fun _ => ([], None))
    (fun _ _ => ([], None)).

(** Asks for one tool call, then answers. *)
Definition replying : Provider.BaseProvider :=
  Provider.mkProvider true
    (fun _ => Ok "The sum is 3")
    (fun _ _ => Ok (with_tool_calls [call "a"]))
    (fun _ => ([], None))
    (fun _ _ => ([], None)).

(** The two argument fragments of the streamed scenario: the JSON text of
    [add_args], cut after its first three characters. *)
Definition fragment1 : string := "{" +:+ String Json.dquote "op".

Definition fragment2 : string :=
  "eration" +:+ String Json.dquote ":" +:+ Json.quoted "add" +:+ ","
  +:+ Json.quoted "a" +:+ ":1," +:+ Json.quoted "b" +:+ ":2}".

Definition calc_feed : list ResponseData :=
  [ev_tool_call_start "a" "calc"; ev_tool_call_delta fragment1;
   ev_tool_call_delta fragment2; ev_stop].

Definition streaming : Provider.BaseProvider :=
  Provider.mkProvider true
    (fun _ => Ok "unused")
    (fun _ _ => Ok empty_response)
    (fun _ => ([], None))
    (fun _ _ => (calc_feed, None)).

Definition no_thinking_prompt (content : string) : string := content.

Definition no_thinking_parse (content : string) : string * string :=
  (EmptyString, content).

Definition system_msg (text : string) : Message := mkMessage SYSTEM text None None.

Definition user_msg (text : string) : Message := mkMessage USER text None None.

Definition session_info : Session.SessionInfo :=
  Session.mkSessionInfo "1a2b3c4d" "Chat 2025-01-01 10:00"
    "2025-01-01T10:00:00" "2025-01-01T10:05:00" "anthropic" "claude" 4
    ["work"; "maths"].

(** A session with a system, a user, a tool and an assistant message. *)
Definition stored_session : Session.ChatSession :=
  Session.mkChatSession session_info
    (mkConversation
       [system_msg "You are a helpful AI assistant.";
        user_msg "add 1 and 2";
        mkMessage TOOL "3" None (Some "a");
        mkMessage ASSISTANT "The sum is 3"
          (Some [ToolCall_to_dict (mkToolCall "a" "calc" add_args)]) None]
       50 (Some "You are a helpful AI assistant.")).

(** A session whose only message answers a tool call that came without an
    id: the engine stores the empty string as its [tool_call_id]. *)
Definition session_with_empty_id : Session.ChatSession :=
  Session.mkChatSession session_info
    (mkConversation [mkMessage TOOL "3" None (Some EmptyString)] 50 None).

End Scenario.

(** ** Vocabulary of the properties *)

(** The timeout that applies to a call of [execute]: the one given with
    the call, unless none or 0 was given; then the executor's default. *)
Inductive timeout_in_force (ex : ToolExecutor) : option Z -> Z -> Prop :=
| timeout_of_call t : t <> 0 -> timeout_in_force ex (Some t) t
| timeout_by_default timeout :
    timeout = None \/ timeout = Some 0 ->
    timeout_in_force ex timeout (default_timeout ex).

(** A coroutine that a timeout of [t] seconds cuts short: it can be
    cancelled and is still running when [t] seconds have passed, or [t] is
    not positive. *)
Definition cut_short (coro : Coroutines.Coroutine) (t : Z) : Prop :=
  match coro with
  | Coroutines.Ends millis cancellable _ =>
      if cancellable then 1000 * t <= millis else t <= 0
  | Coroutines.Never cancellable => cancellable = true \/ t <= 0
  end.

(** A coroutine that comes to its own end [c] under a timeout of [t]
    seconds: before they have passed, or later because it cannot be
    cancelled. *)
Definition comes_to (coro : Coroutines.Coroutine) (t : Z)
    (c : Coroutines.Ending) : Prop :=
  exists millis cancellable,
    coro = Coroutines.Ends millis cancellable c
    /\ if cancellable then millis < 1000 * t else 0 < t.

(** What [execute_by_name] answers and leaves behind. *)
Definition exec_outcome (kwargs_type_error : value -> string)
    (ex : ToolExecutor) (reg : ToolRegistry) (name : option string)
    (arguments : value) : ToolResult * ToolExecutor * ToolRegistry :=
  match execute_by_name kwargs_type_error ex reg name arguments None with
  | Ok x => x
  | Raise _ => (mkToolResult false VNone None [], ex, reg)
  end.

Definition call_arguments (tc : ToolCallDict) : value :=
  default (VDict []) (tcd_arguments tc).

Definition call_id (tc : ToolCallDict) : string :=
  default EmptyString (tcd_id tc).

(** The results of running the reported calls one after the other, with
    the executor and registry they leave. *)
Fixpoint run_calls (kwargs_type_error : value -> string)
    (tcs : list ToolCallDict) (ex : ToolExecutor) (reg : ToolRegistry)
  : list ToolResult * ToolExecutor * ToolRegistry :=
  match tcs with
  | [] => ([], ex, reg)
  | tc :: rest =>
      let '(res, ex1, reg1) :=
        exec_outcome kwargs_type_error ex reg (tcd_name tc) (call_arguments tc) in
      let '(rs, ex2, reg2) := run_calls kwargs_type_error rest ex1 reg1 in
      (res :: rs, ex2, reg2)
  end.

(** The events of one tool round: per call, its execution and then the
    append of its tool message. *)
Fixpoint tool_round_events (py_str : value -> string)
    (tcs : list ToolCallDict) (results : list ToolResult) : list Event :=
  match tcs, results with
  | tc :: tcs', res :: results' =>
      EvExecuteByName (tcd_name tc) (call_arguments tc)
      :: EvAppend (tool_result_message py_str (call_id tc) res)
      :: tool_round_events py_str tcs' results'
  | _, _ => []
  end.

Fixpoint tool_round_messages (py_str : value -> string)
    (tcs : list ToolCallDict) (results : list ToolResult) : list Message :=
  match tcs, results with
  | tc :: tcs', res :: results' =>
      tool_result_message py_str (call_id tc) res
      :: tool_round_messages py_str tcs' results'
  | _, _ => []
  end.

(** Readings of the event log. *)
Definition appended_message (ev : Event) : option Message :=
  match ev with EvAppend m => Some m | _ => None end.

Definition executed_call (ev : Event) : option (option string * value) :=
  match ev with EvExecuteByName n a => Some (n, a) | _ => None end.

Definition appended_messages (l : list Event) : list Message :=
  omap appended_message l.

Definition executed_calls (l : list Event) : list (option string * value) :=
  omap executed_call l.

(** The events of one turn: what the log gained between two states. *)
Definition turn_log (before after : ChatEngine) : list Event :=
  drop (length (log before)) (log after).

(** The ids named by the [tool_calls] of a message. *)
Definition entry_id (v : value) : option string :=
  match v with
  | VDict d =>
      match dict_get "id" d with Some (VStr s) => Some s | _ => None end
  | _ => None
  end.

Definition tool_call_ids (m : Message) : list string :=
  omap entry_id (default [] (tool_calls m)).

(** The ids emitted by assistant messages that stand before position [i]. *)
Definition prior_call_ids (ms : list Message) (i : nat) : list string :=
  concat (tool_call_ids <$> filter (fun m => role m = ASSISTANT) (take i ms)).

(** Every tool message refers to exactly one id emitted by an assistant
    message that precedes it. *)
Definition correlated_with_prior (ms : list Message) : Prop :=
  forall i m, ms !! i = Some m -> role m = TOOL ->
    exists id, tool_call_id m = Some id
               /\ length (filter (fun x => x = id) (prior_call_ids ms i)) = 1%nat.

(** A tool message whose id is one of [ks]. *)
Definition answers_one_of (ks : list string) (m : Message) : Prop :=
  role m = TOOL /\ exists id, tool_call_id m = Some id /\ id ∈ ks.

(** A tool message that refers to one of the ids named by [am]. *)
Definition answers_call_of (am m : Message) : Prop :=
  answers_one_of (tool_call_ids am) m.

(** A message whose optional fields are absent or truthy: no empty
    [tool_calls] list, no empty [tool_call_id]. *)
Definition stored_faithfully (m : Message) : Prop :=
  tool_calls m <> Some [] /\ tool_call_id m <> Some EmptyString.

(** [Message.to_dict] followed by [Message.from_dict]. *)
Definition normalize_message (m : Message) : Message :=
  mkMessage (role m) (content m)
    (if tool_calls_truthy (tool_calls m) then tool_calls m else None)
    (if tool_call_id_truthy (tool_call_id m) then tool_call_id m else None).

(** The ids under which tool calls have been accumulated. *)
Definition keys_of (ls : StreamLocals) : list string :=
  (accumulated_tool_calls ls).*1.

(** A feed item that carries nothing but [tool_call_delta]. *)
Definition delta_only (d : ToolCallDelta) : ResponseData :=
  mkResponseData None None None None (Some d) false None None.

(** The accumulated text of a sequence of argument fragments. *)
Definition join_fragments (fragments : list string) : string :=
  foldr String.append EmptyString fragments.

(** ** Further operations of the modules above *)

(** *** More of Python's strings *)

Definition newline : string := String (ascii_of_nat 10) EmptyString.

(** [sep.join(lines)]. *)
Fixpoint join (sep : string) (lines : list string) : string :=
  match lines with
  | [] => EmptyString
  | [line] => line
  | line :: rest => line +:+ sep +:+ join sep rest
  end.

(** [s.split(sep, 1)] when [sep in s]: the text before the first
    occurrence of [sep] and the text after it. *)
Fixpoint split_once (sep s : string) : option (string * string) :=
  match Json.strip_prefix sep s with
  | Some rest => Some (EmptyString, rest)
  | None =>
      match s with
      | EmptyString => None
      | String c s' =>
          match split_once sep s' with
          | Some (before, after) => Some (String c before, after)
          | None => None
          end
      end
  end.

(** [s.replace(old, new)] for a non-empty [old]: occurrences are replaced
    from left to right, without overlap.  [skip] counts the characters of
    an occurrence that remain to be passed over. *)
Fixpoint replace_from (old new : string) (skip : nat) (s : string) : string :=
  match skip, s with
  | _, EmptyString => EmptyString
  | S k, String _ s' => replace_from old new k s'
  | O, String c s' =>
      match Json.strip_prefix old s with
      | Some _ => new +:+ replace_from old new (String.length old - 1) s'
      | None => String c (replace_from old new O s')
      end
  end.

Definition replace (old new s : string) : string := replace_from old new 0 s.

(** *** core/conversation.py *)

Definition clear (c : Conversation) : Conversation := set_messages c [].

(** [self.messages[-1] if self.messages else None]. *)
Definition get_last_message (c : Conversation) : option Message :=
  last (messages c).

Definition export_to_dict (c : Conversation) : list MessageDict :=
  Message_to_dict <$> messages c.

(** [import_from_dict]: the constructor is given the messages only, so
    the two other fields take their defaults. *)
Definition import_from_dict (data : list MessageDict) : Exc Conversation :=
  match Session.messages_from_dicts data with
  | Raise e => Raise e
  | Ok messages => Ok (mkConversation messages 50 None)
  end.

(** *** tools/base.py: declared parameters *)

Record ToolParameter : Type := mkToolParameter {
  param_name : string;
  param_type : string;
  param_description : string;
  param_required : bool;
  param_default : value;
  param_enum : option (list string);
}.

(** What the [parameters] property of a tool answers: a list of
    parameters, a single one, or [None]. *)
Inductive Parameters : Type :=
| ParamList (ps : list ToolParameter)
| ParamSingle (p : ToolParameter)
| ParamNone.

Definition parameter_property (param : ToolParameter) : value :=
  VDict [("type", VStr (param_type param));
         ("description", VStr (param_description param));
         ("default", param_default param);
         ("enum", match param_enum param with
                  | Some l => VList (VStr <$> l)
                  | None => VNone
                  end)].

(** The loop of [schema] over a list of parameters. *)
Fixpoint schema_entries (ps : list ToolParameter)
    (properties : list (string * value)) (required : list string)
  : list (string * value) * list string :=
  match ps with
  | [] => (properties, required)
  | param :: rest =>
      schema_entries rest
        (dict_set (param_name param) (parameter_property param) properties)
        (if param_required param then required ++ [param_name param]
         else required)
  end.

Definition schema (name description : string) (parameters : Parameters)
  : ToolSchema :=
  let '(properties, required) :=
    match parameters with
    | ParamList ps => schema_entries ps [] []
    | ParamSingle param =>
        ([(param_name param, parameter_property param)],
         if param_required param then [param_name param] else [])
    | ParamNone => ([], [])
    end in
  mkToolSchema name description
    (VDict [("type", VStr "object");
            ("properties", VDict properties);
            ("required", VList (VStr <$> required));
            ("additionalProperties", VBool false)]).

(** [schema.parameters[key]]. *)
Definition schema_field (key : string) (s : ToolSchema) : option value :=
  match schema_parameters s with
  | VDict d => dict_get key d
  | _ => None
  end.

(** [value not in param.enum], negated: only a string equals a string. *)
Definition value_in_enum (v : value) (enum : list string) : bool :=
  match v with
  | VStr s => bool_decide (s ∈ enum)
  | _ => false
  end.

(** [_validate_parameter_type].  [isinstance(value, (int, float))] holds
    of a [bool] as well, [bool] being a subclass of [int]. *)
Definition _validate_parameter_type (param : ToolParameter) (v : value)
  : bool :=
  let enum_ok :=
    match param_enum param with
    | Some (e :: es) => value_in_enum v (e :: es)
    | _ => true
    end in
  if negb enum_ok then false
  else if String.eqb (param_type param) "string" then
    match v with VStr _ => true | _ => false end
  else if String.eqb (param_type param) "number" then
    match v with VInt _ | VBool _ => true | _ => false end
  else if String.eqb (param_type param) "boolean" then
    match v with VBool _ => true | _ => false end
  else if String.eqb (param_type param) "array" then
    match v with VList _ => true | _ => false end
  else if String.eqb (param_type param) "object" then
    match v with VDict _ => true | _ => false end
  else true.

(** The names collected in [required_params]. *)
Fixpoint required_of (ps : list ToolParameter) : list string :=
  match ps with
  | [] => []
  | param :: rest =>
      if param_required param then param_name param :: required_of rest
      else required_of rest
  end.

(** The first required name that is not a key of [arguments]. *)
Fixpoint first_missing (required_params : list string)
    (arguments : list (string * value)) : option string :=
  match required_params with
  | [] => None
  | param :: rest =>
      match dict_get param arguments with
      | None => Some param
      | Some _ => first_missing rest arguments
      end
  end.

(** The first declared parameter whose argument is present and fails
    [_validate_parameter_type], with that argument. *)
Fixpoint first_invalid (ps : list ToolParameter)
    (arguments : list (string * value)) : option (ToolParameter * value) :=
  match ps with
  | [] => None
  | param :: rest =>
      match dict_get (param_name param) arguments with
      | Some v =>
          if _validate_parameter_type param v then first_invalid rest arguments
          else Some (param, v)
      | None => first_invalid rest arguments
      end
  end.

Section Validation.

Variable py_str : value -> string.

(** [validate_parameters]: the pair [(is_valid, error_message)].  With
    [parameters] being [None] the attribute access fails and the handler
    reports it. *)
Definition validate_parameters (parameters : Parameters)
    (arguments : list (string * value)) : bool * option string :=
  match parameters with
  | ParamList ps =>
      match first_missing (required_of ps) arguments with
      | Some param => (false, Some ("Missing required parameter: " +:+ param))
      | None =>
          match first_invalid ps arguments with
          | Some (param, v) =>
              (false,
               Some ("Invalid value for parameter " +:+ param_name param
                     +:+ ": " +:+ py_str v))
          | None => (true, None)
          end
      end
  | ParamSingle param =>
      let required_params :=
        if param_required param then [param_name param] else [] in
      match first_missing required_params arguments with
      | Some param => (false, Some ("Missing required parameter: " +:+ param))
      | None => (true, None)
      end
  | ParamNone =>
      (false,
       Some ("Parameter validation error: 'NoneType' object has no attribute "
             +:+ "'required'"))
  end.

End Validation.

(** *** tools/registry.py *)

(** [unregister]: only a name with an instance in [_tools] is removed. *)
Definition unregister (name : string) (reg : ToolRegistry)
  : bool * ToolRegistry :=
  match _tools reg !! name with
  | Some _ =>
      (true, {| _tools := delete name (_tools reg);
                _tool_classes := delete name (_tool_classes reg) |})
  | None => (false, reg)
  end.

Section RegistryExecution.

Variable py_str : value -> string.
Variable kwargs_type_error : value -> string.

(** The [parameters] property of each tool. *)
Variable parameters_of : BaseTool -> Parameters.

(** [execute_tool]: lookup, validation, then a run under an executor made
    for the occasion, whose history is dropped with it. *)
Definition execute_tool (name : string) (arguments : list (string * value))
    (reg : ToolRegistry) : Exc (ToolResult * ToolRegistry) :=
  match get_tool (Some name) reg with
  | (None, reg') =>
      Ok (mkToolResult false VNone
            (Some ("Tool '" +:+ name +:+ "' not found")) [], reg')
  | (Some tool, reg') =>
      match validate_parameters py_str (parameters_of tool) arguments with
      | (false, error_message) =>
          Ok (mkToolResult false VNone error_message [], reg')
      | (true, _) =>
          let executor := mkExecutor 30 [] in
          match execute kwargs_type_error executor tool (VDict arguments) None with
          | Ok (res, _) => Ok (res, reg')
          | Raise e => Raise e
          end
      end
  end.

End RegistryExecution.

(** *** tools/executor.py: statistics *)

(** The loop that fills [tool_counts]. *)
Fixpoint count_tools (history : list ExecutionRecord)
    (tool_counts : list (string * Z)) : list (string * Z) :=
  match history with
  | [] => tool_counts
  | record :: rest =>
      let tool_name := rec_tool_name record in
      count_tools rest
        (dict_set tool_name (default 0 (dict_get tool_name tool_counts) + 1)
           tool_counts)
  end.

(** [sorted(items, key=lambda x: x[1], reverse=True)]: by decreasing
    count, items of equal count staying in the order they came in. *)
Fixpoint insert_by_count (x : string * Z) (l : list (string * Z))
  : list (string * Z) :=
  match l with
  | [] => [x]
  | y :: l' => if x.2 <? y.2 then y :: insert_by_count x l' else x :: y :: l'
  end.

Definition sorted_by_count (items : list (string * Z)) : list (string * Z) :=
  foldr insert_by_count [] items.

(** The statistics; the two floating-point fields, [success_rate] and
    [average_execution_time], are not represented. *)
Record ExecutionStats : Type := mkExecutionStats {
  total_executions : Z;
  successful_executions : Z;
  failed_executions : Z;
  most_used_tools : list (string * Z);
}.

Definition get_execution_stats (ex : ToolExecutor) : ExecutionStats :=
  match execution_history ex with
  | [] => mkExecutionStats 0 0 0 []
  | _ :: _ =>
      let total_executions := Z.of_nat (length (execution_history ex)) in
      let successful_executions :=
        Z.of_nat (length (filter (fun record => rec_success record = true)
                            (execution_history ex))) in
      let failed_executions := total_executions - successful_executions in
      let tool_counts := count_tools (execution_history ex) [] in
      mkExecutionStats total_executions successful_executions failed_executions
        (take 5 (sorted_by_count tool_counts))
  end.

(** *** providers/anthropic.py: what is sent *)

Module AnthropicProvider.

(** A message in the form the Anthropic client takes. *)
Record AnthropicMessage : Type := mkAnthropicMessage {
  a_role : string;
  a_content : string;
}.

Fixpoint _convert_messages_to_anthropic_format (messages : list Message)
  : list AnthropicMessage :=
  match messages with
  | [] => []
  | msg :: rest =>
      match role msg with
      | SYSTEM => _convert_messages_to_anthropic_format rest
      | USER =>
          mkAnthropicMessage "user" (content msg)
          :: _convert_messages_to_anthropic_format rest
      | ASSISTANT =>
          mkAnthropicMessage "assistant" (content msg)
          :: _convert_messages_to_anthropic_format rest
      | TOOL =>
          mkAnthropicMessage "user" ("Tool result: " +:+ content msg)
          :: _convert_messages_to_anthropic_format rest
      end
  end.

Fixpoint _extract_system_message (messages : list Message) : option string :=
  match messages with
  | [] => None
  | msg :: rest =>
      if bool_decide (role msg = SYSTEM) then Some (content msg)
      else _extract_system_message rest
  end.

End AnthropicProvider.

(** *** core/chat.py *)

(** The conversation that [ChatEngine.__init__] starts with.  The two
    arguments are [config.system_prompt] and
    [config.conversation_history_limit]. *)
Definition initial_conversation (system_prompt : option string) (limit : Z)
  : Conversation :=
  let c := mkConversation [] limit system_prompt in
  match system_prompt with
  | Some prompt =>
      if str_truthy prompt then add_message c (mkMessage SYSTEM prompt None None)
      else c
  | None => c
  end.

(** [clear_conversation], with [config.system_prompt] as its first
    argument. *)
Definition clear_conversation (system_prompt : option string)
    (c : Conversation) : Conversation :=
  let c := clear c in
  match system_prompt with
  | Some prompt =>
      if str_truthy prompt then add_message c (mkMessage SYSTEM prompt None None)
      else c
  | None => c
  end.

(** The entries of [get_available_tools], keyed by tool name: a schema
    whose name is already a key is passed over. *)
Definition tool_entry (schema : ToolSchema) : value :=
  VDict [("name", VStr (schema_name schema));
         ("description", VStr (schema_description schema));
         ("parameters", schema_parameters schema)].

Fixpoint unique_tools (schemas : list ToolSchema)
    (unique : list (string * value)) : list (string * value) :=
  match schemas with
  | [] => unique
  | schema :: rest =>
      unique_tools rest
        (match dict_get (schema_name schema) unique with
         | Some _ => unique
         | None => dict_set (schema_name schema) (tool_entry schema) unique
         end)
  end.

Definition get_available_tools (reg : ToolRegistry) : list value :=
  (unique_tools (get_tool_schemas reg) []).*2.

(** [_parse_thinking_response]. *)
Definition separators : list string :=
  ["RESPONSE:"; "FINAL ANSWER:"; "ANSWER:"; newline +:+ newline].

(** The [for sep in separators] loop: the split at the first separator,
    in the order of the list, that occurs in [content]. *)
Fixpoint first_split (seps : list string) (content : string)
  : option (string * string) :=
  match seps with
  | [] => None
  | sep :: rest =>
      match split_once sep content with
      | Some parts => Some parts
      | None => first_split rest content
      end
  end.

Section Thinking.

(** [str.strip]. *)
Variable py_strip : string -> string.

Definition _parse_thinking_response (content : string) : string * string :=
  let '(thinking, response) :=
    match first_split separators content with
    | Some (before, after) =>
        (py_strip
           (replace "THINKING PROCESS:" EmptyString
              (replace "THINKING:" EmptyString before)),
         after)
    | None => (EmptyString, EmptyString)
    end in
  if negb (str_truthy thinking) && negb (str_truthy response)
  then (EmptyString, content)
  else (thinking, response).

End Thinking.

(** *** core/session.py: the session manager

    The sessions directory is a finite map from session ids to the
    dictionaries written as [<id>.json]: the file that the path
    [sessions_dir / f"{id}.json"] names holds what [json.dump] was given.
    The map keeps the files apart by the id in their path; two ids that
    name one file (as [x] and [./x] do) are not told to be the same, so
    nothing is stated below about the file of an id other than the one an
    operation is given.  Whether the disk takes a write or a removal is an
    input of [save_session] and [delete_session].  The clock and the id
    generator are inputs of the operations that consult them.

    A session handed out by the manager is the very object held in the
    cache, so that a change made to it is a change of the cache entry:
    each operation that changes a loaded session stores the changed session
    under the key it was loaded from. *)

Module Sessions.

Record SessionManager : Type := mkSessionManager {
  sessions_dir : gmap string Session.SessionDict;
  _sessions_cache : gmap string Session.ChatSession;
  _active_session : option string;
}.

(** [SessionManager(sessions_dir)] over an existing directory. *)
Definition open_directory (dir : gmap string Session.SessionDict)
  : SessionManager :=
  mkSessionManager dir ∅ None.

Definition set_info (session : Session.ChatSession) (i : Session.SessionInfo)
  : Session.ChatSession :=
  Session.mkChatSession i (Session.conversation session).

Definition set_updated_at (now : string) (i : Session.SessionInfo)
  : Session.SessionInfo :=
  Session.mkSessionInfo (Session.session_id i) (Session.title i)
    (Session.created_at i) now (Session.provider i) (Session.model i)
    (Session.message_count i) (Session.tags i).

Definition set_message_count (n : Z) (i : Session.SessionInfo)
  : Session.SessionInfo :=
  Session.mkSessionInfo (Session.session_id i) (Session.title i)
    (Session.created_at i) (Session.updated_at i) (Session.provider i)
    (Session.model i) n (Session.tags i).

Definition set_title (title : string) (i : Session.SessionInfo)
  : Session.SessionInfo :=
  Session.mkSessionInfo (Session.session_id i) title
    (Session.created_at i) (Session.updated_at i) (Session.provider i)
    (Session.model i) (Session.message_count i) (Session.tags i).

Definition set_tags (tags : list string) (i : Session.SessionInfo)
  : Session.SessionInfo :=
  Session.mkSessionInfo (Session.session_id i) (Session.title i)
    (Session.created_at i) (Session.updated_at i) (Session.provider i)
    (Session.model i) (Session.message_count i) tags.

(** What the disk answers when a file is to be written or removed:
    [Refused] stands for [open], [json.dump] or [unlink] raising (a path
    through a directory that does not exist, as for an id with a slash in
    it; a directory that may not be written to). *)
Inductive DiskAnswer : Type := Accepted | Refused.

Definition write_file (name : string) (data : Session.SessionDict)
    (mgr : SessionManager) : SessionManager :=
  {| sessions_dir := <[name := data]> (sessions_dir mgr);
     _sessions_cache := _sessions_cache mgr;
     _active_session := _active_session mgr |}.

Definition set_cached (key : string) (session : Session.ChatSession)
    (mgr : SessionManager) : SessionManager :=
  {| sessions_dir := sessions_dir mgr;
     _sessions_cache := <[key := session]> (_sessions_cache mgr);
     _active_session := _active_session mgr |}.

(** [save_session]: the metadata of the session object is brought up to
    date, then the dictionary is written.  When the write is refused the
    error is printed and the call returns as it does otherwise; the file is
    then taken to be as it was before the call.  The result is the session
    as the call leaves it, with the manager. *)
Definition save_session (written : DiskAnswer) (now : string)
    (session : Session.ChatSession) (mgr : SessionManager)
  : Session.ChatSession * SessionManager :=
  let session :=
    set_info session
      (set_message_count
         (Z.of_nat (length (messages (Session.conversation session))))
         (set_updated_at now (Session.info session))) in
  (session,
   match written with
   | Accepted =>
       write_file (Session.session_id (Session.info session))
         (Session.to_dict session) mgr
   | Refused => mgr
   end).


(** [load_session]: the cache first, then the file; a file that does not
    decode is reported as no session. *)
Definition load_session (session_id : string) (mgr : SessionManager)
  : option Session.ChatSession * SessionManager :=
  match _sessions_cache mgr !! session_id with
  | Some session => (Some session, mgr)
  | None =>
      match sessions_dir mgr !! session_id with
      | None => (None, mgr)
      | Some data =>
          match Session.from_dict data with
          | Ok session => (Some session, set_cached session_id session mgr)
          | Raise _ => (None, mgr)
          end
      end
  end.

(** [delete_session]: the file, if there is one, is removed, then the
    cache entry, and the session is no longer the active one.  When the
    removal of the file is refused the [except] branch answers [False], and
    the cache and the active session are as they were. *)
Definition delete_session (removed : DiskAnswer) (session_id : string)
    (mgr : SessionManager) : bool * SessionManager :=
  match sessions_dir mgr !! session_id, removed with
  | Some _, Refused => (false, mgr)
  | _, _ =>
      (true,
       {| sessions_dir := delete session_id (sessions_dir mgr);
          _sessions_cache := delete session_id (_sessions_cache mgr);
          _active_session :=
            if bool_decide (_active_session mgr = Some session_id) then None
            else _active_session mgr |})
  end.

(** [get_active_session]: the active id must be truthy and cached. *)
Definition get_active_session (mgr : SessionManager)
  : option Session.ChatSession :=
  match _active_session mgr with
  | Some id => if str_truthy id then _sessions_cache mgr !! id else None
  | None => None
  end.

Definition set_active_session (session_id : string) (mgr : SessionManager)
  : bool * SessionManager :=
  match load_session session_id mgr with
  | (Some _, mgr) =>
      (true, {| sessions_dir := sessions_dir mgr;
                _sessions_cache := _sessions_cache mgr;
                _active_session := Some session_id |})
  | (None, mgr) => (false, mgr)
  end.

(** The tail shared by the three operations that change a loaded
    session: stamp it, save it, and keep the cache entry in step.  The
    session was loaded from the file that is written here; the write is
    taken to be accepted. *)
Definition save_changed (session_id now saved_at : string)
    (session : Session.ChatSession) (mgr : SessionManager) : SessionManager :=
  let session :=
    set_info session (set_updated_at now (Session.info session)) in
  let '(session, mgr) := save_session Accepted saved_at session mgr in
  set_cached session_id session mgr.

Definition update_session_title (session_id title now saved_at : string)
    (mgr : SessionManager) : bool * SessionManager :=
  match load_session session_id mgr with
  | (None, mgr) => (false, mgr)
  | (Some session, mgr) =>
      let session :=
        set_info session (set_title title (Session.info session)) in
      (true, save_changed session_id now saved_at session mgr)
  end.

Definition add_tag (session_id tag now saved_at : string)
    (mgr : SessionManager) : bool * SessionManager :=
  match load_session session_id mgr with
  | (None, mgr) => (false, mgr)
  | (Some session, mgr) =>
      if bool_decide (tag ∈ Session.tags (Session.info session)) then (true, mgr)
      else
        let session :=
          set_info session
            (set_tags (Session.tags (Session.info session) ++ [tag])
               (Session.info session)) in
        (true, save_changed session_id now saved_at session mgr)
  end.

(** [list.remove(x)]: the first occurrence goes. *)
Fixpoint list_remove (x : string) (l : list string) : list string :=
  match l with
  | [] => []
  | y :: l' => if String.eqb x y then l' else y :: list_remove x l'
  end.

Definition remove_tag (session_id tag now saved_at : string)
    (mgr : SessionManager) : bool * SessionManager :=
  match load_session session_id mgr with
  | (None, mgr) => (false, mgr)
  | (Some session, mgr) =>
      if bool_decide (tag ∈ Session.tags (Session.info session)) then
        let session :=
          set_info session
            (set_tags (list_remove tag (Session.tags (Session.info session)))
               (Session.info session)) in
        (true, save_changed session_id now saved_at session mgr)
      else (true, mgr)
  end.

(** The lines of the Markdown export. *)
Definition markdown_message (message : Message) : list string :=
  match role message with
  | USER => ["## You"; EmptyString; content message; EmptyString]
  | ASSISTANT => ["## Assistant"; EmptyString; content message; EmptyString]
  | _ => []
  end.

Definition markdown_lines (session : Session.ChatSession) : list string :=
  let info := Session.info session in
  ["# " +:+ Session.title info;
   EmptyString;
   "**Created:** " +:+ Session.created_at info;
   "**Provider:** " +:+ Session.provider info +:+ " ("
     +:+ Session.model info +:+ ")";
   "**Messages:** " +:+ format_int (Session.message_count info);
   EmptyString]
  ++ match Session.tags info with
     | [] => []
     | _ :: _ => ["**Tags:** " +:+ join ", " (Session.tags info); EmptyString]
     end
  ++ concat (markdown_message <$> messages (Session.conversation session)).

(** The lines of the plain-text export. *)
Definition role_prefix (r : MessageRole) : string :=
  match r with
  | SYSTEM => "System"
  | USER => "You"
  | ASSISTANT => "Assistant"
  | TOOL => "Tool"
  end.

Definition text_message (message : Message) : list string :=
  [role_prefix (role message) +:+ ": " +:+ content message; EmptyString].

Definition text_lines (session : Session.ChatSession) : list string :=
  let info := Session.info session in
  ["Session: " +:+ Session.title info;
   "Created: " +:+ Session.created_at info;
   "Provider: " +:+ Session.provider info +:+ " ("
     +:+ Session.model info +:+ ")";
   "Messages: " +:+ format_int (Session.message_count info);
   EmptyString]
  ++ concat (text_message <$> messages (Session.conversation session)).

Section ExportFormats.

(** [str.lower] and [json.dumps(..., indent=2, ensure_ascii=False)]. *)
Variable py_lower : string -> string.
Variable json_dumps : Session.SessionDict -> string.

Definition export_session (session_id format : string) (mgr : SessionManager)
  : string * SessionManager :=
  match load_session session_id mgr with
  | (None, mgr) => (EmptyString, mgr)
  | (Some session, mgr) =>
      if String.eqb (py_lower format) "json"
      then (json_dumps (Session.to_dict session), mgr)
      else if String.eqb (py_lower format) "text"
      then (join newline (text_lines session), mgr)
      else if String.eqb (py_lower format) "markdown"
      then (join newline (markdown_lines session), mgr)
      else (EmptyString, mgr)
  end.

End ExportFormats.

End Sessions.

(** *** core/chat.py: the engine and its sessions

    [ChatEngine] owns a session manager, and [self.conversation] is, after
    [create_new_session] or [load_session], the conversation object of a
    session that the manager holds in its cache: what the engine appends to
    its conversation is appended to that session.  [attached] is the cache
    key of that session; the cache entry is brought up to date with the
    engine's conversation before the manager is consulted. *)

Module Persistence.


Record State : Type := mkState {
  engine : ChatEngine;
  session_manager : Sessions.SessionManager;
  attached : option string;
}.

Definition set_engine_conversation (c : Conversation) (e : ChatEngine)
  : ChatEngine :=
  mkEngine c (tool_registry e) (tool_executor e) (log e).

(** The session manager as the program sees it: the attached session
    has the engine's conversation. *)
Definition manager_view (st : State) : Sessions.SessionManager :=
  match attached st with
  | Some key =>
      match Sessions._sessions_cache (session_manager st) !! key with
      | Some session =>
          Sessions.set_cached key
            (Session.mkChatSession (Session.info session)
               (conversation (engine st)))
            (session_manager st)
      | None => session_manager st
      end
  | None => session_manager st
  end.


Definition load_session (session_id : string) (st : State) : bool * State :=
  match Sessions.load_session session_id (manager_view st) with
  | (Some session, mgr) =>
      (true,
       {| engine :=
            set_engine_conversation (Session.conversation session) (engine st);
          session_manager := mgr;
          attached := Some session_id |})
  | (None, mgr) =>
      (false,
       {| engine := engine st; session_manager := mgr; attached := attached st |})
  end.

Definition save_current_session (now : string) (st : State) : bool * State :=
  let mgr := manager_view st in
  match Sessions._active_session mgr, Sessions.get_active_session mgr with
  | Some id, Some active_session =>
      let '(session, mgr) :=
        Sessions.save_session Sessions.Accepted now active_session mgr in
      (true,
       {| engine := engine st;
          session_manager := Sessions.set_cached id session mgr;
          attached := attached st |})
  | _, _ =>
      (false,
       {| engine := engine st; session_manager := mgr; attached := attached st |})
  end.

Definition delete_session (removed : Sessions.DiskAnswer)
    (session_id : string) (st : State) : bool * State :=
  let '(deleted, mgr) :=
    Sessions.delete_session removed session_id (manager_view st) in
  (deleted,
   {| engine := engine st;
      session_manager := mgr;
      attached :=
        if deleted && bool_decide (attached st = Some session_id) then None
        else attached st |}).

(** A turn: [turn] is [send_message] or [stream_message] applied to its
    arguments.  The save that the turn's log records as its last event is
    carried out by the session manager, at the time [saved_at]. *)
Definition run_turn {A} (turn : M A) (saved_at : string) (st : State)
  : Exc A * State :=
  let '(r, e) := turn (engine st) in
  let st' :=
    {| engine := e;
       session_manager := session_manager st;
       attached := attached st |} in
  match last (turn_log (engine st) e) with
  | Some EvSave => (r, (save_current_session saved_at st').2)
  | _ => (r, st')
  end.

(** An engine as [ChatEngine.__init__] leaves it. *)
Definition fresh (e : ChatEngine) (dir : gmap string Session.SessionDict)
  : State :=
  {| engine := e; session_manager := Sessions.open_directory dir;
     attached := None |}.

End Persistence.

(** ** Further vocabulary of the properties *)

(** The response that [_process_response] builds from the reply of a
    provider call without tools. *)
Definition plain_response (_parse_thinking_response : string -> string * string)
    (reply : string) (enable_thinking : bool) : ChatResponse :=
  _process_response _parse_thinking_response
    (mkResponseData (Some reply) None None None None false None None)
    enable_thinking.

(** How many records of a history are about the tool [n]. *)
Definition uses_of (n : string) (history : list ExecutionRecord) : Z :=
  Z.of_nat (length (filter (fun record => rec_tool_name record = n) history)).

(** A list of counted names in which no count is followed by a greater
    one. *)
Fixpoint by_decreasing_count (l : list (string * Z)) : Prop :=
  match l with
  | [] => True
  | x :: l' => Forall (fun y => y.2 <= x.2) l' /\ by_decreasing_count l'
  end.

(** [sep in s]. *)
Definition occurs_in (sep s : string) : Prop :=
  exists before after, s = before +:+ sep +:+ after.

(** ** Further concrete scenarios *)

Module Examples.

(** Three messages under a bound of two. *)
Definition crowded : Conversation :=
  mkConversation
    [Scenario.system_msg "s"; Scenario.user_msg "u1"; Scenario.user_msg "u2"]
    2 None.

(** The parameters of a tool with one required, enumerated operation and
    an optional count. *)
Definition calc_parameters : list ToolParameter :=
  [mkToolParameter "operation" "string" "The operation" true VNone
     (Some ["add"; "subtract"]);
   mkToolParameter "count" "number" "How many times" false (VInt 1) None].

(** A session file whose second message carries a role the program does
    not know, alone in its directory. *)
Definition damaged_file : Session.SessionDict :=
  Session.mkSessionDict (Session.asdict Scenario.session_info)
    (Session.mkConversationDict
       [mkMessageDict "user" "hello" None None;
        mkMessageDict "robot" "beep" None None]
       (Some 50) None).

Definition damaged_directory : Sessions.SessionManager :=
  Sessions.open_directory {[ "1a2b3c4d" := damaged_file ]}.

(** A provider that streams a greeting in two chunks, one whose stream
    breaks after the first chunk, and one that streams a tool call whose
    arguments are not JSON. *)
Definition chatty : Provider.BaseProvider :=
  Provider.mkProvider false
    (fun _ => Ok "Hello")
    (fun _ _ => Ok empty_response)
    (fun _ => (["Hel"; "lo"], None))
    (fun _ _ => ([], None)).



Definition garbled : Provider.BaseProvider :=
  Provider.mkProvider true
    (fun _ => Ok "unused")
    (fun _ _ => Ok empty_response)
    (fun _ => ([], None))
    (fun _ _ =>
       ([ev_tool_call_start "a" "calc"; ev_tool_call_delta "{oops"; ev_stop],
        None)).


Definition stored_directory : gmap string Session.SessionDict :=
  {[ "1a2b3c4d" := Session.to_dict Scenario.stored_session ]}.

End Examples.

(** * Properties *)

(** ** Python slices *)

Lemma slice_from_is_drop {A} (l : list A) (start : Z) :
  exists n, slice_from l start = drop n l.
Proof. unfold slice_from. destruct (start <? 0); eauto. Qed.

Lemma slice_from_neg_length {A} (l : list A) (k : Z) :
  0 < k -> Z.of_nat (length (slice_from l (- k))) = Z.min k (Z.of_nat (length l)).
Proof.
  intros Hk. unfold slice_from.
  destruct (Z.ltb_spec (- k) 0) as [_ | ?]; [| lia].
  rewrite length_drop. lia.
Qed.

(** [l[-0:]] is the whole list. *)
Lemma slice_from_zero {A} (l : list A) : slice_from l (- 0) = l.
Proof. reflexivity. Qed.

(** A positive start drops that many leading elements. *)
Lemma slice_from_pos {A} (l : list A) (k : Z) :
  0 <= k -> slice_from l k = drop (Z.to_nat k) l.
Proof.
  intros Hk. unfold slice_from.
  destruct (Z.ltb_spec k 0); [lia | reflexivity].
Qed.

(** ** Conversation: trimming *)

Section Trimming.

Implicit Types (c : Conversation) (m : Message) (ms : list Message).

Lemma system_of_others ms : system_of (others_of ms) = [].
Proof.
  unfold system_of, others_of. induction ms as [| m ms IH]; [done |].
  rewrite (filter_cons (fun m => role m <> SYSTEM)). case_decide; [| done].
  rewrite filter_cons. case_decide; [done | apply IH].
Qed.

Lemma system_of_drop_others n ms : system_of (drop n (others_of ms)) = [].
Proof.
  pose proof (system_of_others ms) as H. unfold system_of in *.
  rewrite <- (take_drop n (others_of ms)) in H.
  rewrite filter_app in H. by apply app_eq_nil in H as [_ ?].
Qed.

Lemma system_of_idemp ms : system_of (system_of ms) = system_of ms.
Proof.
  unfold system_of. induction ms as [| m ms IH]; [done |].
  rewrite filter_cons. case_decide; [| done].
  rewrite filter_cons. case_decide; [by f_equal | done].
Qed.

Lemma length_partition ms :
  length ms = (length (system_of ms) + length (others_of ms))%nat.
Proof.
  unfold system_of, others_of. induction ms as [| m ms IH]; [done |].
  rewrite !filter_cons. repeat case_decide; simpl; try lia; done.
Qed.

(** What [_trim_history] leaves when it trims. *)
Lemma trim_history_unfold c :
  max_history c < Z.of_nat (length (messages c)) ->
  messages (_trim_history c)
  = system_of (messages c)
    ++ slice_from (others_of (messages c))
         (- (max_history c - Z.of_nat (length (system_of (messages c))))).
Proof.
  intros H. unfold _trim_history.
  destruct (Z.ltb_spec (max_history c) (Z.of_nat (length (messages c))));
    [reflexivity | lia].
Qed.

Lemma trim_history_noop c :
  Z.of_nat (length (messages c)) <= max_history c -> _trim_history c = c.
Proof.
  intros H. unfold _trim_history.
  destruct (Z.ltb_spec (max_history c) (Z.of_nat (length (messages c))));
    [lia | reflexivity].
Qed.

Lemma trim_history_max_history c : max_history (_trim_history c) = max_history c.
Proof. unfold _trim_history. by destruct (_ <? _). Qed.

(** Trimming never discards a system message. *)
Lemma trim_history_keeps_system c :
  system_of (messages (_trim_history c)) = system_of (messages c).
Proof.
  destruct (Z.lt_ge_cases (max_history c) (Z.of_nat (length (messages c))))
    as [Hlt | Hge].
  - rewrite trim_history_unfold by done.
    destruct (slice_from_is_drop (others_of (messages c))
                (- (max_history c - Z.of_nat (length (system_of (messages c))))))
      as [n ->].
    unfold system_of at 1. rewrite filter_app.
    fold (system_of (system_of (messages c))).
    fold (system_of (drop n (others_of (messages c)))).
    by rewrite system_of_idemp, system_of_drop_others, app_nil_r.
  - by rewrite trim_history_noop.
Qed.

(** With room left for at least one other message, the bound holds. *)
Lemma trim_history_bound c :
  Z.of_nat (length (system_of (messages c))) < max_history c ->
  Z.of_nat (length (messages (_trim_history c))) <= max_history c.
Proof.
  intros Hsys.
  destruct (Z.lt_ge_cases (max_history c) (Z.of_nat (length (messages c))))
    as [Hlt | Hge].
  - rewrite trim_history_unfold by done.
    rewrite length_app, Nat2Z.inj_add, slice_from_neg_length by lia. lia.
  - by rewrite trim_history_noop.
Qed.

Lemma add_message_keeps_system c m :
  system_of (messages (add_message c m)) = system_of (messages c ++ [m]).
Proof. unfold add_message. by rewrite trim_history_keeps_system. Qed.

Lemma add_message_bound c m :
  Z.of_nat (length (system_of (messages c ++ [m]))) < max_history c ->
  Z.of_nat (length (messages (add_message c m))) <= max_history c.
Proof.
  intros H. unfold add_message.
  etrans; [apply trim_history_bound |]; simpl; done.
Qed.

Lemma add_message_max_history c m :
  max_history (add_message c m) = max_history c.
Proof. unfold add_message. by rewrite trim_history_max_history. Qed.

(** Over any sequence of appends: every system message appended so far is
    still there, in order. *)
Lemma add_messages_keep_system ms c :
  system_of (messages (fold_left add_message ms c))
  = system_of (messages c) ++ system_of ms.
Proof.
  revert c. induction ms as [| m ms IH]; intros c; simpl.
  - by rewrite app_nil_r.
  - rewrite IH, add_message_keeps_system. unfold system_of.
    change (m :: ms) with ([m] ++ ms).
    by rewrite !filter_app, <- app_assoc.
Qed.

End Trimming.

(** What the slice keeps when the system messages fill the bound exactly:
    [other_msgs[-0:]], that is, everything. *)
Lemma trim_history_at_system_capacity (c : Conversation) :
  max_history c = Z.of_nat (length (system_of (messages c))) ->
  max_history c < Z.of_nat (length (messages c)) ->
  messages (_trim_history c) = system_of (messages c) ++ others_of (messages c).
Proof.
  intros Heq Hlt. rewrite trim_history_unfold by done.
  by rewrite Heq, Z.sub_diag.
Qed.

(** What the slice keeps when the system messages alone exceed the bound by
    [k]: all but the first [k] other messages. *)
Lemma trim_history_system_overflow (c : Conversation) :
  max_history c < Z.of_nat (length (system_of (messages c))) ->
  messages (_trim_history c)
  = system_of (messages c)
    ++ drop (Z.to_nat (Z.of_nat (length (system_of (messages c))) - max_history c))
         (others_of (messages c)).
Proof.
  intros Hlt. rewrite trim_history_unfold.
  - rewrite slice_from_pos by lia. do 2 f_equal. lia.
  - rewrite length_partition. lia.
Qed.

(** C2 (checked on a failing input).  A history bound of 1, one system
    message already stored, one user message appended: the count of system
    messages does not exceed the bound, every system message is kept, and yet
    two messages remain.  The slice [other_msgs[-(1 - 1):]] is
    [other_msgs[0:]], the whole list. *)
Theorem add_message_exceeds_bound_at_system_capacity :
  let c := mkConversation [Scenario.system_msg "s"] 1 None in
  let c' := add_message c (Scenario.user_msg "u") in
  Z.of_nat (length (system_of (messages c'))) <= max_history c'
  /\ messages c' = [Scenario.system_msg "s"; Scenario.user_msg "u"]
  /\ max_history c' < Z.of_nat (length (messages c')).
Proof. vm_compute. repeat split; intros; discriminate. Qed.

(** C3 (checked on a failing input).  With a bound of 1, appending a system
    message, two user messages and a second system message leaves two system
    messages, more than the bound, together with the last user message: the
    slice [other_msgs[-(1 - 2):]] is [other_msgs[1:]], not the empty list. *)
Theorem add_message_keeps_others_beyond_system_overflow :
  let c := fold_left add_message
             [Scenario.system_msg "s1"; Scenario.user_msg "u1";
              Scenario.user_msg "u2"; Scenario.system_msg "s2"]
             (mkConversation [] 1 None) in
  max_history c < Z.of_nat (length (system_of (messages c)))
  /\ messages c = [Scenario.system_msg "s1"; Scenario.system_msg "s2";
                   Scenario.user_msg "u2"]
  /\ messages c <> system_of (messages c).
Proof. vm_compute. repeat split; intros; discriminate. Qed.

(** ** Tool executor *)

Section ExecutorProperties.

Variable kwargs_type_error : value -> string.

Lemma slice_from_last {A} (l : list A) (x : A) (k : Z) :
  0 < k -> last (slice_from (l ++ [x]) (- k)) = Some x.
Proof.
  intros Hk. unfold slice_from.
  destruct (Z.ltb_spec (- k) 0) as [_ | ?]; [| lia].
  rewrite length_app. simpl.
  rewrite drop_app_le by lia. apply last_snoc.
Qed.

(** The newest record is the last entry of the history, also when the
    history is cut back to its last hundred entries. *)
Lemma record_execution_last ex name arguments res error_type :
  last (execution_history
          (_record_execution ex name arguments res error_type))
  = Some {| rec_tool_name := name;
            rec_arguments := arguments;
            rec_success := success res;
            rec_error_type := error_type;
            rec_error_message := if success res then None else error res |}.
Proof.
  unfold _record_execution. simpl.
  destruct (100 <? _).
  - by apply (slice_from_last _ _ 100).
  - apply last_snoc.
Qed.

Lemma record_execution_bounded ex name arguments res error_type :
  (length (execution_history ex) <= 100)%nat ->
  (length (execution_history
             (_record_execution ex name arguments res error_type)) <= 100)%nat.
Proof.
  intros H. unfold _record_execution. simpl.
  destruct (Z.ltb_spec 100
              (Z.of_nat (length (execution_history ex ++
                 [{| rec_tool_name := name;
                     rec_arguments := arguments;
                     rec_success := success res;
                     rec_error_type := error_type;
                     rec_error_message :=
                       if success res then None else error res |}])))) as [Hlt | Hge].
  - apply Nat2Z.inj_le. rewrite (slice_from_neg_length _ 100) by lia. lia.
  - lia.
Qed.

(** [execute] returns whatever the arguments are. *)
Lemma execute_returns ex tool arguments timeout :
  exists res ex', execute kwargs_type_error ex tool arguments timeout = Ok (res, ex').
Proof.
  unfold execute. destruct (execute_try _ _ _ _ _) as [[res ex'] | e]; [eauto |].
  destruct (exn_is_timeout e); eauto.
Qed.

Lemma execute_by_name_returns ex reg name arguments timeout :
  exists out, execute_by_name kwargs_type_error ex reg name arguments timeout = Ok out.
Proof.
  unfold execute_by_name. destruct (get_tool name reg) as [[tool |] reg']; [| eauto].
  destruct (execute_returns ex tool arguments timeout) as (res & ex' & ->). eauto.
Qed.

Lemma execute_by_name_outcome ex reg name arguments :
  execute_by_name kwargs_type_error ex reg name arguments None
  = Ok (exec_outcome kwargs_type_error ex reg name arguments).
Proof.
  unfold exec_outcome.
  by destruct (execute_by_name_returns ex reg name arguments None) as [out ->].
Qed.

(** Each call of [execute] makes one history entry, for the tool it ran
    and the arguments it was given. *)
Lemma execute_records ex tool arguments timeout res ex' :
  execute kwargs_type_error ex tool arguments timeout = Ok (res, ex') ->
  exists error_type,
    ex' = _record_execution ex (tool_name tool) arguments res error_type.
Proof.
  unfold execute, execute_try.
  destruct (match arguments with VDict kwargs => _ | _ => _ end) as [r | e].
  - intros [= <- <-]. eauto.
  - destruct (exn_is_timeout e); intros [= <- <-]; eauto.
Qed.

(** What a tool returns before the default timeout is what [execute]
    returns. *)
Lemma execute_own_result ex tool kwargs millis r res ex' :
  tool_execute tool kwargs = Finishes millis (Returns r) ->
  millis < 1000 * default_timeout ex ->
  execute kwargs_type_error ex tool (VDict kwargs) None = Ok (res, ex') ->
  res = r.
Proof.
  intros Hrun Hin. unfold execute, execute_try, effective_timeout, wait_for.
  rewrite Hrun. destruct (Z.ltb_spec millis (1000 * default_timeout ex)); [| lia].
  by intros [= <- <-].
Qed.

Lemma exec_outcome_found ex reg name arguments tool reg' res ex' :
  get_tool (Some name) reg = (Some tool, reg') ->
  execute kwargs_type_error ex tool arguments None = Ok (res, ex') ->
  exec_outcome kwargs_type_error ex reg (Some name) arguments = (res, ex', reg').
Proof.
  intros Hget Hex. unfold exec_outcome, execute_by_name. by rewrite Hget, Hex.
Qed.

(** On a cooperative tool the two accounts of [execute] agree. *)
Lemma execute_cooperative ex tool arguments timeout :
  Coroutines.execute kwargs_type_error ex (Coroutines.cooperative_tool tool)
    arguments timeout
  = Coroutines.of_exc (execute kwargs_type_error ex tool arguments timeout).
Proof.
  unfold Coroutines.execute, execute, execute_try, Coroutines.cooperative_tool.
  cbn [Coroutines.t_name Coroutines.t_execute].
  destruct arguments as [| b | z | s | l | kwargs]; try reflexivity.
  unfold Coroutines.wait_for, wait_for, Coroutines.cooperative.
  destruct (tool_execute tool kwargs) as [millis [r | e] |]; cbn [orb];
    repeat (cbn [Coroutines.own_end Coroutines.of_exc];
            match goal with
            | |- context [if ?b then _ else _] => destruct b eqn:?
            end);
    reflexivity.
Qed.

Lemma wait_for_cut_short coro t :
  cut_short coro t -> Coroutines.wait_for coro t = Coroutines.Throws timeout_error true.
Proof.
  destruct coro as [millis [|] c | [|]]; simpl; intros H; try done.
  - destruct (Z.ltb_spec millis (1000 * t)); [lia | done].
  - destruct (Z.ltb_spec 0 t); [lia | done].
  - destruct H as [H | H]; [done |].
    destruct (Z.leb_spec t 0); [done | lia].
Qed.

Lemma wait_for_comes_to coro t c :
  comes_to coro t c -> Coroutines.wait_for coro t = Coroutines.own_end c.
Proof.
  intros (millis & [|] & -> & H); simpl.
  - destruct (Z.ltb_spec millis (1000 * t)); [done | lia].
  - destruct (Z.ltb_spec 0 t); [done | lia].
Qed.

Lemma effective_timeout_in_force ex timeout t :
  timeout_in_force ex timeout t -> effective_timeout ex timeout = t.
Proof.
  intros [t' Ht | timeout' [-> | ->]]; simpl; [| done | done].
  destruct (Z.eqb_spec t' 0); [done | done].
Qed.

(** C5.  Under the timeout in force, for every tool and every argument
    mapping: no exception derived from [Exception] leaves [execute], and
    for a cooperative tool [execute] returns a [ToolResult].  A coroutine
    that the timeout cuts short gives a failure whose error text names the
    timeout in seconds, recorded as a timeout.  A coroutine that raises
    another exception derived from [Exception] gives a failure with no
    result value and an error text ending in the exception's message, and
    the exception's kind is the error type of the newest history entry.  A
    coroutine that returns gives its own result.  An exception that does
    not derive from [Exception] leaves [execute], and [execute] does not
    return while a coroutine that cannot be cancelled runs. *)
Theorem execute_contains_exceptions ex tool (kwargs : list (string * value))
    timeout t :
  timeout_in_force ex timeout t ->
  let coro := Coroutines.t_execute tool kwargs in
  let outcome :=
    Coroutines.execute kwargs_type_error ex tool (VDict kwargs) timeout in
  (forall e, outcome <> Coroutines.Throws e true)
  /\ (forall tool', tool = Coroutines.cooperative_tool tool' ->
      exists res ex', outcome = Coroutines.Value (res, ex'))
  /\ (cut_short coro t ->
      exists res ex',
        outcome = Coroutines.Value (res, ex')
        /\ success res = false
        /\ result res = VNone
        /\ error res = Some ("Tool execution timed out after " +:+ format_int t
                             +:+ " seconds")
        /\ exists r, last (execution_history ex') = Some r
                     /\ rec_tool_name r = Coroutines.t_name tool
                     /\ rec_error_type r = Some "timeout")
  /\ (forall e, comes_to coro t (Coroutines.Raised e true) ->
      exn_is_timeout e = false ->
      exists res ex',
        outcome = Coroutines.Value (res, ex')
        /\ success res = false
        /\ result res = VNone
        /\ error res = Some ("Tool execution failed: " +:+ exn_msg e)
        /\ exists r, last (execution_history ex') = Some r
                     /\ rec_tool_name r = Coroutines.t_name tool
                     /\ rec_error_type r = Some (exn_kind e))
  /\ (forall r, comes_to coro t (Coroutines.Returned r) ->
      outcome
      = Coroutines.Value
          (r, _record_execution ex (Coroutines.t_name tool) (VDict kwargs) r None))
  /\ (forall e, comes_to coro t (Coroutines.Raised e false) ->
      exn_is_timeout e = false ->
      outcome = Coroutines.Throws e false)
  /\ (coro = Coroutines.Never false -> 0 < t -> outcome = Coroutines.Pending).
Proof.
  intros Ht coro outcome. apply effective_timeout_in_force in Ht.
  subst outcome. unfold Coroutines.execute. rewrite Ht. fold coro.
  split; [| split; [| split; [| split; [| split; [| split]]]]].
  - intros e. destruct (Coroutines.wait_for coro t) as [res | e' [|] |];
      [done | | | done]; by destruct (exn_is_timeout e').
  - intros tool' ->.
    destruct (execute_returns ex tool' (VDict kwargs) timeout)
      as (res & ex' & Hex).
    pose proof (execute_cooperative ex tool' (VDict kwargs) timeout) as Hco.
    rewrite Hex in Hco. unfold Coroutines.execute in Hco. rewrite Ht in Hco.
    exists res, ex'. exact Hco.
  - intros Hcut. rewrite (wait_for_cut_short _ _ Hcut). simpl.
    do 2 eexists. split; [reflexivity |]. repeat split.
    eexists. split; [apply record_execution_last | done].
  - intros e Hraise Hkind. rewrite (wait_for_comes_to _ _ _ Hraise). simpl.
    rewrite Hkind. do 2 eexists. split; [reflexivity |]. repeat split.
    eexists. split; [apply record_execution_last | done].
  - intros r Hret. by rewrite (wait_for_comes_to _ _ _ Hret).
  - intros e Hraise Hkind. rewrite (wait_for_comes_to _ _ _ Hraise). simpl.
    by rewrite Hkind.
  - intros Hnever Hpos. rewrite Hnever. simpl.
    destruct (Z.leb_spec t 0); [lia | done].
Qed.

End ExecutorProperties.

(** The two failure paths on concrete tools: a tool that never answers,
    under the default timeout of thirty seconds, and a tool that raises. *)
Example execute_sleeper :
  execute mapping_expected Scenario.executor Scenario.sleeper (VDict []) None
  = Ok (mkToolResult false VNone
          (Some "Tool execution timed out after 30 seconds") [],
        mkExecutor 30
          [mkExecutionRecord "sleeper" (VDict []) false (Some "timeout")
             (Some "Tool execution timed out after 30 seconds")]).
Proof. vm_compute. reflexivity. Qed.

Example execute_broken :
  execute mapping_expected Scenario.executor Scenario.broken (VDict []) (Some 5)
  = Ok (mkToolResult false VNone (Some "Tool execution failed: bad input") [],
        mkExecutor 30
          [mkExecutionRecord "broken" (VDict []) false (Some "ValueError")
             (Some "Tool execution failed: bad input")]).
Proof. vm_compute. reflexivity. Qed.

(** C5 on the tool that awaits for seven seconds before it answers, under
    an executor whose default timeout is thirty seconds: called with a
    timeout of five seconds it is cut short, and the error text names those
    five seconds; called without a timeout it returns its own result. *)
Lemma execute_contains_exceptions_witness :
  timeout_in_force Scenario.executor (Some 5) 5
  /\ (exists res ex',
        Coroutines.execute mapping_expected Scenario.executor Scenario.slow
          (VDict []) (Some 5) = Coroutines.Value (res, ex')
        /\ success res = false
        /\ result res = VNone
        /\ error res = Some "Tool execution timed out after 5 seconds"
        /\ exists r, last (execution_history ex') = Some r
                     /\ rec_tool_name r = "slow"
                     /\ rec_error_type r = Some "timeout")
  /\ Coroutines.execute mapping_expected Scenario.executor Scenario.slow
       (VDict []) None
     = Coroutines.Value
         (Scenario.done_result,
          mkExecutor 30 [mkExecutionRecord "slow" (VDict []) true None None]).
Proof.
  assert (H5 : timeout_in_force Scenario.executor (Some 5) 5)
    by (constructor; lia).
  split; [exact H5 |]. split.
  - apply (execute_contains_exceptions mapping_expected Scenario.executor
             Scenario.slow [] (Some 5) 5 H5).
    vm_compute. discriminate.
  - apply (execute_contains_exceptions mapping_expected Scenario.executor
             Scenario.slow [] None 30).
    + apply (timeout_by_default Scenario.executor None). by left.
    + exists 7000, true. split; [reflexivity |]. vm_compute. reflexivity.
Defined.

(** C5 (as stated) fails.  The coroutine of [cancelled] raises
    [asyncio.CancelledError]: the exception leaves [execute], and no result
    and no history entry is made.  The coroutine of [blocking] runs for a
    minute under a timeout of five seconds: it is not cut short, and
    [execute] returns its result as a success. *)
Lemma execute_lets_cancellation_through :
  Coroutines.execute mapping_expected Scenario.executor Scenario.cancelled
    (VDict []) None
  = Coroutines.Throws (Exn "CancelledError" EmptyString false) false
  /\ Coroutines.execute mapping_expected Scenario.executor Scenario.blocking
       (VDict []) (Some 5)
     = Coroutines.Value
         (Scenario.done_result,
          mkExecutor 30
            [mkExecutionRecord "blocking" (VDict []) true None None]).
Proof. vm_compute. done. Qed.

(** ** OpenRouter provider *)

Lemma openrouter_message_operations_raise msgs tools :
  OpenRouterProvider.create_message msgs
  = Raise OpenRouterProvider.not_implemented
  /\ OpenRouterProvider.stream_message msgs
     = Raise OpenRouterProvider.not_implemented
  /\ OpenRouterProvider.create_message_with_tools msgs tools
     = Raise OpenRouterProvider.not_implemented
  /\ OpenRouterProvider.stream_message_with_tools msgs tools
     = Raise OpenRouterProvider.not_implemented.
Proof. done. Qed.

(** C9 (checked on a failing input).  Asked about any model, the provider
    answers with a filled-in descriptor instead of raising, and so does the
    model listing; the inherited connection check therefore reports the
    unfinished backend as working. *)
Theorem openrouter_model_info_returns_data :
  OpenRouterProvider.get_model_info "any-model"
  = Ok (mkModelInfo "any-model" 4096 true true false 200000 (1 # 100) (3 # 100))
  /\ OpenRouterProvider.list_models
     = Ok [mkModelInfo "anthropic/claude-3.5-sonnet" 4096 true true false
             200000 (1 # 100) (3 # 100)]
  /\ OpenRouterProvider.validate_connection = true.
Proof. done. Qed.

(** ** Sessions: the dictionary form and back *)

Section RoundTrip.

Lemma role_value_roundtrip (r : MessageRole) :
  role_of_value (role_value r) = Ok r.
Proof. by destruct r. Qed.

(** A message comes back with empty optional fields turned into absent
    ones, and is otherwise unchanged. *)
Lemma message_roundtrip (m : Message) :
  Message_from_dict (Message_to_dict m) = Ok (normalize_message m).
Proof.
  unfold Message_from_dict, Message_to_dict. simpl.
  by rewrite role_value_roundtrip.
Qed.

Lemma normalize_stored_faithfully (m : Message) :
  stored_faithfully m -> normalize_message m = m.
Proof.
  destruct m as [r c tcs id]. intros [Htcs Hid]. simpl in *.
  unfold normalize_message. simpl. f_equal.
  - destruct tcs as [[| ? ?] |]; done.
  - destruct id as [[| ? ?] |]; done.
Qed.

Lemma messages_roundtrip (ms : list Message) :
  Session.messages_from_dicts (Message_to_dict <$> ms)
  = Ok (normalize_message <$> ms).
Proof.
  induction ms as [| m ms IH]; [done |].
  rewrite fmap_cons. simpl. by rewrite message_roundtrip, IH.
Qed.

Lemma info_roundtrip (i : Session.SessionInfo) :
  Session.SessionInfo_of_dict (Session.asdict i) = i.
Proof. by destruct i. Qed.

(** The round trip in general: everything comes back, the messages in
    their normalised form. *)
Lemma session_roundtrip_normalizes (s : Session.ChatSession) :
  Session.from_dict (Session.to_dict s)
  = Ok (Session.mkChatSession (Session.info s)
          (mkConversation
             (normalize_message <$> messages (Session.conversation s))
             (max_history (Session.conversation s))
             (system_prompt (Session.conversation s)))).
Proof.
  unfold Session.from_dict, Session.to_dict. simpl.
  by rewrite messages_roundtrip, info_roundtrip.
Qed.

(** C8 (as amended).  For every session whose messages carry no empty
    [tool_calls] list and no empty [tool_call_id], turning it into its
    dictionary and back yields the same session: the same info fields, the
    same messages in the same order, the same [max_history] and
    [system_prompt]. *)
Theorem session_roundtrip (s : Session.ChatSession) :
  Forall stored_faithfully (messages (Session.conversation s)) ->
  Session.from_dict (Session.to_dict s) = Ok s.
Proof.
  intros Hms. rewrite session_roundtrip_normalizes.
  destruct s as [i [ms mh sp]]. simpl in *. do 3 f_equal.
  induction Hms as [| m ms Hm _ IH]; [done |].
  rewrite fmap_cons. by rewrite normalize_stored_faithfully, IH.
Qed.

End RoundTrip.

(** The amended round trip on a session with a system, a user, a tool and
    an assistant message, and two tags. *)
Lemma session_roundtrip_witness :
  Forall stored_faithfully (messages (Session.conversation Scenario.stored_session))
  /\ Session.from_dict (Session.to_dict Scenario.stored_session)
     = Ok Scenario.stored_session.
Proof.
  assert (H : Forall stored_faithfully
                (messages (Session.conversation Scenario.stored_session))).
  { repeat constructor; simpl; discriminate. }
  split; [exact H | exact (session_roundtrip Scenario.stored_session H)].
Defined.

(** C8 (as stated) fails: a tool message whose [tool_call_id] is the empty
    string comes back without one. *)
Lemma session_roundtrip_loses_empty_id :
  Session.from_dict (Session.to_dict Scenario.session_with_empty_id)
  <> Ok Scenario.session_with_empty_id.
Proof. vm_compute. intros H. discriminate H. Qed.

(** ** Chat engine *)

(** *** The monad, dictionaries and the log *)

Section MonadLaws.

Implicit Types (st : ChatEngine).

Lemma bind_ok {A B} (c : M A) (k : A -> M B) st a st' :
  c st = (Ok a, st') -> bind c k st = k a st'.
Proof. unfold bind. by intros ->. Qed.

Lemma bind_raise {A B} (c : M A) (k : A -> M B) st e st' :
  c st = (Raise e, st') -> bind c k st = (Raise e, st').
Proof. unfold bind. by intros ->. Qed.

Lemma emit_eq ev st :
  emit ev st
  = (Ok tt, mkEngine (conversation st) (tool_registry st) (tool_executor st)
              (log st ++ [ev])).
Proof. reflexivity. Qed.

Lemma append_message_eq m st :
  append_message m st
  = (Ok tt, mkEngine (add_message (conversation st) m) (tool_registry st)
              (tool_executor st) (log st ++ [EvAppend m])).
Proof. reflexivity. Qed.

Lemma bind_assoc {A B C} (c : M A) (k : A -> M B) (k' : B -> M C) st :
  bind (bind c k) k' st = bind c (fun a => bind (k a) k') st.
Proof. unfold bind. by destruct (c st) as [[a | e] st']. Qed.

Lemma bind_ext {A B} (c : M A) (k k' : A -> M B) st :
  (forall a st', k a st' = k' a st') -> bind c k st = bind c k' st.
Proof. intros H. unfold bind. by destruct (c st) as [[a | e] st']. Qed.

Lemma dict_set_keys_incl {V} k (v : V) d : d.*1 ⊆ (dict_set k v d).*1.
Proof.
  induction d as [| [k' v'] d IH]; simpl.
  - intros x Hx. by apply elem_of_nil in Hx.
  - destruct (String.eqb k k') eqn:Hk; simpl.
    + apply String.eqb_eq in Hk as ->. done.
    + intros x [-> | Hx]%elem_of_cons; [left | right; by apply IH].
Qed.

Lemma dict_set_key_in {V} k (v : V) d : k ∈ (dict_set k v d).*1.
Proof.
  induction d as [| [k' v'] d IH]; simpl; [left |].
  destruct (String.eqb k k') eqn:Hk; simpl; [left | by right].
Qed.

Lemma dict_set_keys_fresh {V} k k0 (v : V) d :
  k0 ∈ (dict_set k v d).*1 -> k0 = k \/ k0 ∈ d.*1.
Proof.
  induction d as [| [k' v'] d IH]; simpl.
  - intros ->%list_elem_of_singleton. by left.
  - destruct (String.eqb k k') eqn:Hk; simpl.
    + apply String.eqb_eq in Hk as ->. by right.
    + intros [-> | Hin]%elem_of_cons; [right; by left |].
      destruct (IH Hin) as [-> | ?]; [by left | right; by right].
Qed.

(** Storing under a key keeps the keys of a dictionary distinct. *)
Lemma dict_set_keys_nodup {V} k (v : V) d :
  NoDup d.*1 -> NoDup (dict_set k v d).*1.
Proof.
  induction d as [| [k' v'] d IH]; simpl.
  - intros _. apply NoDup_singleton.
  - intros [Hnotin Hnodup]%NoDup_cons.
    destruct (String.eqb k k') eqn:Hk; simpl.
    + apply String.eqb_eq in Hk as ->. by apply NoDup_cons.
    + apply NoDup_cons. split; [| by apply IH].
      intros [-> | Hin]%dict_set_keys_fresh; [| done].
      by rewrite String.eqb_refl in Hk.
Qed.

Lemma answers_one_of_mono ks ks' ms :
  ks ⊆ ks' -> Forall (answers_one_of ks) ms -> Forall (answers_one_of ks') ms.
Proof.
  intros Hsub H. eapply Forall_impl; [exact H |].
  intros m (Hrole & id & Hid & Hin).
  split; [done |]. exists id. split; [done |]. by apply Hsub.
Qed.

Lemma appended_messages_app (d1 d2 : list Event) :
  appended_messages (d1 ++ d2) = appended_messages d1 ++ appended_messages d2.
Proof. apply omap_app. Qed.

Lemma appended_messages_skip ev (l : list Event) :
  appended_message ev = None -> appended_messages (ev :: l) = appended_messages l.
Proof. intros H. unfold appended_messages. simpl. by rewrite H. Qed.

Lemma string_app_cons x (a b : string) :
  String x a +:+ b = String x (a +:+ b).
Proof. reflexivity. Qed.

Lemma string_app_assoc (a b c : string) : (a +:+ b) +:+ c = a +:+ (b +:+ c).
Proof.
  induction a as [| x a IH]; [done |]. by rewrite !string_app_cons, IH.
Qed.

Lemma string_app_empty_r (a : string) : a +:+ EmptyString = a.
Proof.
  induction a as [| x a IH]; [done |]. by rewrite string_app_cons, IH.
Qed.

End MonadLaws.

(** *** Turns *)

Section EngineProperties.

Variable provider : Provider.BaseProvider.
Variable config : ChatConfig.
Variable py_str : value -> string.
Variable json_loads : string -> Exc value.
Variable kwargs_type_error : value -> string.
Variable _create_thinking_prompt : string -> string.
Variable _parse_thinking_response : string -> string * string.

Local Abbreviation send :=
  (send_message provider config py_str kwargs_type_error
     _create_thinking_prompt _parse_thinking_response).
Local Abbreviation stream :=
  (stream_message provider config py_str json_loads kwargs_type_error
     _create_thinking_prompt _parse_thinking_response).
Local Abbreviation run_calls' := (run_calls kwargs_type_error).

Implicit Types (st : ChatEngine) (tcs : list ToolCallDict).

Lemma run_tool_eq name arguments st :
  run_tool kwargs_type_error name arguments st
  = (Ok (exec_outcome kwargs_type_error (tool_executor st) (tool_registry st)
           name arguments).1.1,
     mkEngine (conversation st)
       (exec_outcome kwargs_type_error (tool_executor st) (tool_registry st)
          name arguments).2
       (exec_outcome kwargs_type_error (tool_executor st) (tool_registry st)
          name arguments).1.2
       (log st ++ [EvExecuteByName name arguments])).
Proof.
  unfold run_tool, bind, emit. simpl.
  rewrite execute_by_name_outcome.
  by destruct (exec_outcome _ _ _ _ _) as [[res ex'] reg'].
Qed.


(** The loop over the reported calls: every call is executed and answered
    by one tool message, in order, whatever the results are. *)
Lemma handle_each_eq tcs : forall acc st,
  exists entries,
    handle_each py_str kwargs_type_error tcs acc st
    = (Ok entries,
       mkEngine
         (fold_left add_message
            (tool_round_messages py_str tcs
               (run_calls' tcs (tool_executor st) (tool_registry st)).1.1)
            (conversation st))
         (run_calls' tcs (tool_executor st) (tool_registry st)).2
         (run_calls' tcs (tool_executor st) (tool_registry st)).1.2
         (log st ++ tool_round_events py_str tcs
                      (run_calls' tcs (tool_executor st) (tool_registry st)).1.1)).
Proof.
  induction tcs as [| tc tcs IH]; intros acc st.
  - exists acc. simpl. rewrite app_nil_r. by destruct st.
  - simpl. unfold bind at 1. rewrite run_tool_eq.
    unfold bind at 1. rewrite append_message_eq.
    fold (call_arguments tc). fold (call_id tc).
    destruct (exec_outcome kwargs_type_error (tool_executor st)
                (tool_registry st) (tcd_name tc) (call_arguments tc))
      as [[res ex1] reg1] eqn:Hout.
    simpl.
    edestruct IH as [entries ->]. exists entries. simpl.
    destruct (run_calls' tcs ex1 reg1) as [[rs ex2] reg2]. simpl.
    by rewrite <- !app_assoc.
Qed.


(** The response built from the provider's tool calls names exactly
    those calls. *)
Lemma process_response_tool_calls rd et tc tcs :
  rd_tool_calls rd = Some (tc :: tcs) ->
  resp_tool_calls (_process_response _parse_thinking_response rd et)
  = Some (ToolCall_of_dict <$> (tc :: tcs)).
Proof.
  intros H. unfold _process_response. rewrite H.
  by destruct (et && _) ; [destruct (_parse_thinking_response _) |].
Qed.

(** The [try] block of [send_message] when the provider asks for tools. *)
Lemma send_message_try_tools msgs available et s1 rd tc tcs' :
  let tcs := tc :: tcs' in
  let rc := run_calls' tcs (tool_executor s1) (tool_registry s1) in
  let c2 := fold_left add_message (tool_round_messages py_str tcs rc.1.1)
              (conversation s1) in
  let l2 := log s1 ++ [EvCreateMessageWithTools msgs available]
            ++ tool_round_events py_str tcs rc.1.1
            ++ [EvCreateMessage (messages c2)] in
  Provider.create_message_with_tools provider msgs available = Ok rd ->
  rd_tool_calls rd = Some tcs ->
  match Provider.create_message provider (messages c2) with
  | Ok final =>
      exists resp,
        resp_tool_calls resp = Some (ToolCall_of_dict <$> tcs)
        /\ send_message_try provider py_str kwargs_type_error
             _parse_thinking_response msgs (Some available) et s1
           = (Ok resp,
              mkEngine (add_message c2 (assistant_message resp)) rc.2 rc.1.2
                (l2 ++ [EvAppend (assistant_message resp); EvSave]))
  | Raise e =>
      send_message_try provider py_str kwargs_type_error
        _parse_thinking_response msgs (Some available) et s1
      = (Raise e, mkEngine c2 rc.2 rc.1.2 l2)
  end.
Proof.
  intros tcs rc c2 l2 Hrd Htcs. subst tcs.
  unfold send_message_try.
  erewrite bind_ok; cycle 1.
  { erewrite bind_ok by apply emit_eq. unfold lift. by rewrite Hrd. }
  rewrite Htcs. cbn [tool_calls_truthy_dicts].
  unfold _handle_tool_calls. rewrite Htcs.
  destruct (handle_each_eq (tc :: tcs') [] 
              (mkEngine (conversation s1) (tool_registry s1) (tool_executor s1)
                 (log s1 ++ [EvCreateMessageWithTools msgs available])))
    as [entries Hloop].
  cbn [conversation tool_registry tool_executor log] in Hloop.
  fold rc in Hloop. fold c2 in Hloop.
  destruct (Provider.create_message provider (messages c2)) as [final | e] eqn:Hfinal.
  - eexists. split; cycle 1.
    + erewrite bind_ok; cycle 1.
      { erewrite bind_ok by exact Hloop.
        erewrite bind_ok by reflexivity.
        erewrite bind_ok by apply emit_eq.
        unfold get_messages_for_provider. cbn [conversation].
        erewrite bind_ok; [reflexivity |]. unfold lift. by rewrite Hfinal. }
      erewrite bind_ok by apply append_message_eq.
      erewrite bind_ok by apply emit_eq.
      unfold ret. cbn [conversation tool_registry tool_executor log].
      subst l2. by rewrite <- !app_assoc.
    + by apply process_response_tool_calls.
  - erewrite bind_raise; [reflexivity |].
    erewrite bind_ok by exact Hloop.
    erewrite bind_ok by reflexivity.
    erewrite bind_ok by apply emit_eq.
    unfold get_messages_for_provider. cbn [conversation].
    erewrite bind_raise; cycle 1.
    { unfold lift. by rewrite Hfinal. }
    cbn [conversation tool_registry tool_executor log].
    subst l2. by rewrite <- !app_assoc.
Qed.

(** The [except] clause of [send_message] and [stream_message]: the last
    message is removed, whatever it is, and the exception goes on (an
    [IndexError] takes its place when there is nothing to remove). *)
Lemma rollback_eq {A} e st :
  (pop_last ;;; @raise A e) st
  = match pop_message (conversation st) with
    | Ok c =>
        (Raise e, mkEngine c (tool_registry st) (tool_executor st)
                    (log st ++ [EvPop]))
    | Raise e' =>
        (Raise e', mkEngine (conversation st) (tool_registry st)
                     (tool_executor st) (log st ++ [EvPop]))
    end.
Proof.
  unfold pop_last, bind, emit, lift, set_conversation, raise. simpl.
  by destruct (pop_message (conversation st)).
Qed.

Lemma tool_round_messages_answer tcs (results : list ToolResult) :
  Forall (fun m => role m = TOOL /\ tool_calls m = None)
    (tool_round_messages py_str tcs results).
Proof.
  revert results. induction tcs as [| tc tcs IH]; intros [| res results];
    simpl; constructor; auto.
Qed.


(** When the first provider call fails and the history was below its
    bound, [send_message] leaves the conversation as it found it. *)
Lemma send_message_rollback_plain text thinking_mode tools enable_tools st e :
  let um := user_message config _create_thinking_prompt text thinking_mode in
  tools_to_offer provider config tools enable_tools (tool_registry st) = None ->
  Provider.create_message provider (messages (conversation st) ++ [um]) = Raise e ->
  Z.of_nat (length (messages (conversation st))) < max_history (conversation st) ->
  (send text thinking_mode tools enable_tools st).1 = Raise e
  /\ conversation (send text thinking_mode tools enable_tools st).2
     = conversation st.
Proof.
  intros um Hoffer Hfail Hroom.
  assert (Hc1 : add_message (conversation st) um
                = set_messages (conversation st) (messages (conversation st) ++ [um])).
  { unfold add_message. apply trim_history_noop. simpl.
    rewrite length_app. simpl. lia. }
  unfold send_message. rewrite Hoffer.
  erewrite bind_ok by apply append_message_eq.
  erewrite bind_ok by reflexivity.
  unfold get_messages_for_provider. cbn [conversation].
  fold um. rewrite Hc1. unfold try_except, send_message_try.
  erewrite bind_raise; cycle 1.
  { erewrite bind_ok by apply emit_eq.
    erewrite bind_raise; [reflexivity |].
    unfold lift. cbn [messages set_messages]. by rewrite Hfail. }
  rewrite rollback_eq. cbn [conversation].
  unfold pop_message. cbn [messages set_messages].
  destruct (messages (conversation st) ++ [um]) as [| m0 ms0] eqn:Hms.
  { by destruct (messages (conversation st)). }
  rewrite <- Hms, removelast_last. split; [done |].
  cbn [snd conversation]. by destruct (conversation st).
Qed.

(** *** Streaming *)

Local Abbreviation step := (stream_step py_str json_loads kwargs_type_error
                          _parse_thinking_response).
Local Abbreviation consume := (consume_tool_feed py_str json_loads
                            kwargs_type_error _parse_thinking_response).
Local Abbreviation exec_acc := (execute_accumulated py_str json_loads
                             kwargs_type_error).
Local Abbreviation exec_one := (execute_accumulated_call py_str json_loads
                             kwargs_type_error).

Implicit Types (ls : StreamLocals) (ch : ResponseData).

Lemma consume_app et (l1 l2 : list ResponseData) : forall ls st,
  consume et (l1 ++ l2) ls st
  = bind (consume et l1 ls) (fun ls' => consume et l2 ls') st.
Proof.
  induction l1 as [| ch l1 IH]; intros ls st; [done |].
  simpl. rewrite bind_assoc. apply bind_ext. intros ls' st'. apply IH.
Qed.

(** One accumulated call at the stop signal: it never raises.  Arguments
    that do not parse give an error chunk and nothing else; arguments that
    parse give one execution, one tool message and one chunk. *)
Lemma execute_accumulated_call_eq tool_id tool_call ls st :
  exec_one tool_id tool_call ls st
  = match parse_arguments_json json_loads (acc_arguments_json tool_call) with
    | Raise e =>
        let error_text :=
          "Error executing " +:+ acc_name tool_call +:+ ": " +:+ exn_msg e in
        (Ok (add_content error_text ls),
         mkEngine (conversation st) (tool_registry st) (tool_executor st)
           (log st ++ [EvYield (text_response error_text)]))
    | Ok arguments =>
        let out := exec_outcome kwargs_type_error (tool_executor st)
                     (tool_registry st) (Some (acc_name tool_call)) arguments in
        let m := tool_result_message py_str tool_id out.1.1 in
        (Ok (add_content (tool_result_text py_str out.1.1)
               (set_accumulated tool_id (set_arguments tool_call arguments) ls)),
         mkEngine (add_message (conversation st) m) out.2 out.1.2
           (log st ++ [EvExecuteByName (Some (acc_name tool_call)) arguments;
                       EvAppend m;
                       EvYield (text_response (tool_result_text py_str out.1.1))]))
    end.
Proof.
  unfold execute_accumulated_call.
  destruct (parse_arguments_json json_loads (acc_arguments_json tool_call))
    as [arguments | e].
  - unfold try_except.
    erewrite bind_ok by apply run_tool_eq.
    erewrite bind_ok by apply append_message_eq.
    unfold yield_chunk. erewrite bind_ok by apply emit_eq.
    unfold ret. cbn [conversation tool_registry tool_executor log acc_name set_arguments].
    by rewrite <- !app_assoc.
  - unfold report_tool_error, yield_chunk.
    by erewrite bind_ok by apply emit_eq.
Qed.

Lemma execute_accumulated_call_parsed tool_id tool_call ls st arguments :
  parse_arguments_json json_loads (acc_arguments_json tool_call) = Ok arguments ->
  let out := exec_outcome kwargs_type_error (tool_executor st)
               (tool_registry st) (Some (acc_name tool_call)) arguments in
  let m := tool_result_message py_str tool_id out.1.1 in
  exec_one tool_id tool_call ls st
  = (Ok (add_content (tool_result_text py_str out.1.1)
           (set_accumulated tool_id (set_arguments tool_call arguments) ls)),
     mkEngine (add_message (conversation st) m) out.2 out.1.2
       (log st ++ [EvExecuteByName (Some (acc_name tool_call)) arguments;
                   EvAppend m;
                   EvYield (text_response (tool_result_text py_str out.1.1))])).
Proof. intros H. rewrite execute_accumulated_call_eq. by rewrite H. Qed.

Lemma execute_accumulated_call_spec tool_id tool_call ls st :
  exists ls' st' d,
    exec_one tool_id tool_call ls st = (Ok ls', st')
    /\ log st' = log st ++ d
    /\ current_tool_call ls' = current_tool_call ls
    /\ keys_of ls ⊆ keys_of ls'
    /\ Forall (answers_one_of (keys_of ls')) (appended_messages d).
Proof.
  rewrite execute_accumulated_call_eq.
  destruct (parse_arguments_json json_loads (acc_arguments_json tool_call))
    as [arguments | e]; cbv zeta.
  - do 3 eexists. split; [reflexivity |]. split; [reflexivity |].
    split; [reflexivity |]. split.
    + apply dict_set_keys_incl.
    + repeat constructor. eexists. split; [reflexivity |].
      apply dict_set_key_in.
  - do 3 eexists. split; [reflexivity |]. split; [reflexivity |].
    split; [reflexivity |]. split; [done | constructor].
Qed.

(** The stop signal: every accumulated call is handled, none aborts the
    loop; [current_tool_call] and the accumulated ids stay, and the messages
    appended are tool messages that answer accumulated ids. *)
Lemma execute_accumulated_spec items : forall ls st,
  exists ls' st' d,
    exec_acc items ls st = (Ok ls', st')
    /\ log st' = log st ++ d
    /\ current_tool_call ls' = current_tool_call ls
    /\ keys_of ls ⊆ keys_of ls'
    /\ Forall (answers_one_of (keys_of ls')) (appended_messages d).
Proof.
  induction items as [| [tool_id tool_call] items IH]; intros ls st.
  - exists ls, st, []. simpl. rewrite app_nil_r. repeat split; [done | constructor].
  - destruct (execute_accumulated_call_spec tool_id tool_call ls st)
      as (ls1 & st1 & d1 & Heq1 & Hlog1 & Hcur1 & Hkeys1 & Hans1).
    destruct (IH ls1 st1) as (ls2 & st2 & d2 & Heq2 & Hlog2 & Hcur2 & Hkeys2 & Hans2).
    exists ls2, st2, (d1 ++ d2). simpl. rewrite (bind_ok _ _ _ _ _ Heq1).
    split; [exact Heq2 |]. split; [by rewrite Hlog2, Hlog1, app_assoc |].
    split; [congruence |]. split; [by etrans |].
    rewrite appended_messages_app. apply Forall_app. split; [| done].
    by apply (answers_one_of_mono (keys_of ls1)).
Qed.

(** One step: while no tool call has been started, an item that carries
    only a [tool_call_delta] changes nothing and raises nothing. *)
Lemma stream_step_early_delta et ls d st :
  current_tool_call ls = None ->
  step et ls (delta_only d) st = (Ok ls, st).
Proof.
  intros Hcur. unfold stream_step. simpl. rewrite Hcur.
  unfold _process_response. simpl. by rewrite andb_false_r.
Qed.

Lemma stream_step_without_start et ls ch st ls' st' :
  rd_tool_call_start ch = None ->
  current_tool_call ls = None ->
  step et ls ch st = (Ok ls', st') ->
  current_tool_call ls' = None.
Proof.
  intros Hstart Hcur. unfold stream_step. rewrite Hstart, Hcur.
  assert (Hrest :
    match rd_content ch with
    | Some text =>
        yield_chunk (text_response text);;; ret (add_content text ls)
    | None =>
        if rd_stop ch
        then exec_acc (accumulated_tool_calls ls) ls
        else
          if str_truthy
               (resp_content (_process_response _parse_thinking_response ch et))
          then
            yield_chunk (_process_response _parse_thinking_response ch et);;;
            ret (add_content
                   (resp_content
                      (_process_response _parse_thinking_response ch et)) ls)
          else ret ls
    end st = (Ok ls', st') -> current_tool_call ls' = None).
  { destruct (rd_content ch) as [text |].
    - unfold yield_chunk. erewrite bind_ok by apply emit_eq.
      unfold ret. by intros [= <- _].
    - destruct (rd_stop ch).
      + destruct (execute_accumulated_spec (accumulated_tool_calls ls) ls st)
          as (ls1 & st1 & d1 & -> & _ & Hcur1 & _). intros [= <- _]. congruence.
      + destruct (str_truthy _).
        * unfold yield_chunk. erewrite bind_ok by apply emit_eq.
          unfold ret. by intros [= <- _].
        * unfold ret. by intros [= <- _]. }
  by destruct (rd_tool_call_delta ch).
Qed.

Lemma consume_without_start et (pre : list ResponseData) :
  Forall (fun ch => rd_tool_call_start ch = None) pre ->
  forall ls st ls' st',
    current_tool_call ls = None ->
    consume et pre ls st = (Ok ls', st') ->
    current_tool_call ls' = None.
Proof.
  induction 1 as [| ch pre Hch _ IH]; intros ls st ls' st' Hcur; simpl.
  - unfold ret. by intros [= <- _].
  - unfold bind. destruct (step et ls ch st) as [[ls1 | e] st1] eqn:Hstep; [| done].
    apply IH. by eapply stream_step_without_start.
Qed.

(** C10.  In the feed of [stream_message], a [tool_call_delta] item that
    arrives before any [tool_call_start] item is ignored.  When it is
    reached, handling it returns normally and leaves the loop's variables and
    the engine as they were (nothing is accumulated, appended, executed or
    yielded); and the whole feed is processed exactly as it would be without
    that item, so the items after it are handled as usual. *)
Theorem early_tool_call_delta_is_ignored et (pre rest : list ResponseData) d st :
  Forall (fun ch => rd_tool_call_start ch = None) pre ->
  (forall ls1 st1,
     consume et pre (mkStreamLocals EmptyString [] None) st = (Ok ls1, st1) ->
     step et ls1 (delta_only d) st1 = (Ok ls1, st1))
  /\ consume et (pre ++ delta_only d :: rest)
       (mkStreamLocals EmptyString [] None) st
     = consume et (pre ++ rest) (mkStreamLocals EmptyString [] None) st.
Proof.
  intros Hpre. split.
  { intros ls1 st1 Hrun. apply stream_step_early_delta.
    by eapply (consume_without_start et pre Hpre) in Hrun. }
  assert (Hgen : forall ls st0, current_tool_call ls = None ->
            consume et (pre ++ delta_only d :: rest) ls st0
            = consume et (pre ++ rest) ls st0); [| by apply Hgen].
  induction Hpre as [| ch pre Hch _ IH]; intros ls st0 Hcur.
  - simpl. by rewrite (bind_ok _ _ _ _ _ (stream_step_early_delta et ls d st0 Hcur)).
  - simpl. unfold bind.
    destruct (step et ls ch st0) as [[ls' | e] st'] eqn:Hstep; [| done].
    apply IH. by eapply stream_step_without_start.
Qed.

Lemma stream_step_start et ls id name st :
  step et ls (ev_tool_call_start id name) st
  = (Ok (mkStreamLocals (accumulated_content ls)
           (dict_set id (mkAccumulatedCall id name (VStr EmptyString) EmptyString)
              (accumulated_tool_calls ls))
           (Some id)), st).
Proof. reflexivity. Qed.

(** The fragments that follow a [tool_call_start] are appended, in order,
    to the arguments of the call it started. *)
Lemma consume_deltas et id name arguments (fragments : list string) rest :
  forall json text st,
    consume et ((ev_tool_call_delta <$> fragments) ++ rest)
      (mkStreamLocals text [(id, mkAccumulatedCall id name arguments json)]
         (Some id)) st
    = consume et rest
        (mkStreamLocals text
           [(id, mkAccumulatedCall id name arguments
                   (json +:+ join_fragments fragments))]
           (Some id)) st.
Proof.
  induction fragments as [| f fragments IH]; intros json text st.
  - simpl. by rewrite string_app_empty_r.
  - rewrite fmap_cons. simpl.
    erewrite bind_ok; cycle 1.
    { unfold stream_step. simpl. rewrite String.eqb_refl. simpl.
      unfold append_arguments_json. simpl. reflexivity. }
    rewrite IH. by rewrite string_app_assoc.
Qed.

(** C7.  When tools are on offer, the provider's feed is
    [tool_call_start(id, name)], then any number of [tool_call_delta]
    fragments, then [stop], the text joined from the fragments parses to the
    argument object [kwargs] (an empty text standing for the empty object),
    and [name] is the name of a registered tool, then the turn completes and
    that tool is executed exactly once, with [kwargs] as its arguments: the
    executor is left as one call of [execute] on the tool and [kwargs]
    leaves it, with one more history entry, for that run; the result of the
    call, which is the tool's own when the tool returns in time, is the
    content of the one tool message appended and of the chunk yielded; and
    the assistant message that closes the turn names the call with its
    arguments. *)
Theorem streamed_tool_call_executes_once text thinking_mode tools enable_tools
    st available id name (fragments : list string) kwargs tool reg' :
  let um := user_message config _create_thinking_prompt text thinking_mode in
  let c1 := add_message (conversation st) um in
  tools_to_offer provider config tools enable_tools (tool_registry st)
  = Some available ->
  Provider.stream_message_with_tools provider (messages c1) available
  = (ev_tool_call_start id name :: (ev_tool_call_delta <$> fragments) ++ [ev_stop],
     None) ->
  parse_arguments_json json_loads (join_fragments fragments) = Ok (VDict kwargs) ->
  get_tool (Some name) (tool_registry st) = (Some tool, reg') ->
  exists res ex',
    execute kwargs_type_error (tool_executor st) tool (VDict kwargs) None
    = Ok (res, ex')
    /\ (exists error_type,
          ex' = _record_execution (tool_executor st) (tool_name tool)
                  (VDict kwargs) res error_type)
    /\ (forall millis r,
          tool_execute tool kwargs = Finishes millis (Returns r) ->
          millis < 1000 * default_timeout (tool_executor st) ->
          res = r)
    /\ (let tm := tool_result_message py_str id res in
        let am :=
          mkMessage ASSISTANT (tool_result_text py_str res)
            (Some [VDict [("id", VStr id); ("name", VStr name);
                          ("arguments", VDict kwargs)]]) None in
        stream text thinking_mode tools enable_tools st
        = (Ok tt,
           mkEngine (add_message (add_message c1 tm) am) reg' ex'
             (log st ++ [EvAppend um;
                         EvStreamMessageWithTools (messages c1) available;
                         EvExecuteByName (Some name) (VDict kwargs);
                         EvAppend tm;
                         EvYield (text_response (tool_result_text py_str res));
                         EvAppend am;
                         EvSave])))
    /\ executed_calls
         (turn_log st (stream text thinking_mode tools enable_tools st).2)
       = [(Some name, VDict kwargs)]
    /\ parse_arguments_json json_loads EmptyString = Ok (VDict []).
Proof.
  intros um c1 Hoffer Hfeed Hparse Hget.
  destruct (execute_returns kwargs_type_error (tool_executor st) tool
              (VDict kwargs) None) as (res & ex' & Hex).
  exists res, ex'. split; [exact Hex |].
  split; [by eapply execute_records |].
  split; [intros millis r Hrun Hin; by eapply execute_own_result |].
  assert (Hturn :
    stream text thinking_mode tools enable_tools st
    = (Ok tt,
       mkEngine
         (add_message (add_message c1 (tool_result_message py_str id res))
            (mkMessage ASSISTANT (tool_result_text py_str res)
               (Some [VDict [("id", VStr id); ("name", VStr name);
                             ("arguments", VDict kwargs)]]) None))
         reg' ex'
         (log st ++ [EvAppend um;
                     EvStreamMessageWithTools (messages c1) available;
                     EvExecuteByName (Some name) (VDict kwargs);
                     EvAppend (tool_result_message py_str id res);
                     EvYield (text_response (tool_result_text py_str res));
                     EvAppend
                       (mkMessage ASSISTANT (tool_result_text py_str res)
                          (Some [VDict [("id", VStr id); ("name", VStr name);
                                        ("arguments", VDict kwargs)]]) None);
                     EvSave]))).
  { unfold stream_message. rewrite Hoffer.
    erewrite bind_ok by apply append_message_eq.
    erewrite bind_ok by reflexivity.
    unfold get_messages_for_provider. cbn [conversation].
    fold um. fold c1. unfold try_except, stream_message_try.
    erewrite bind_ok; cycle 1.
    { erewrite bind_ok by apply emit_eq. rewrite Hfeed. cbn [fst snd].
      erewrite bind_ok; [reflexivity |].
      cbn [consume_tool_feed].
      rewrite (bind_ok _ _ _ _ _ (stream_step_start _ _ _ _ _)).
      cbn [dict_set accumulated_tool_calls accumulated_content].
      rewrite consume_deltas. cbn [consume_tool_feed String.append].
      erewrite bind_ok; [reflexivity |].
      unfold stream_step. cbn [ev_stop rd_tool_call_start rd_tool_call_delta
        rd_content rd_stop current_tool_call accumulated_tool_calls].
      cbn [execute_accumulated].
      erewrite bind_ok
        by (apply execute_accumulated_call_parsed; exact Hparse).
      reflexivity. }
    erewrite bind_ok by apply append_message_eq.
    unfold save_current_session. rewrite emit_eq.
    cbn [fst snd log conversation tool_registry tool_executor acc_name].
    rewrite (exec_outcome_found _ _ _ _ _ _ _ _ _ Hget Hex).
    cbn [fst snd].
    unfold final_message, add_content, set_accumulated, set_arguments.
    cbn [accumulated_content accumulated_tool_calls current_tool_call dict_set
         acc_id acc_name acc_arguments acc_arguments_json].
    rewrite String.eqb_refl. cbn [fmap list_fmap accumulated_call_entry].
    rewrite <- !app_assoc. reflexivity. }
  split; [exact Hturn |]. split; [| done].
  rewrite Hturn. unfold turn_log. cbn [snd log]. rewrite drop_app_length.
  reflexivity.
Qed.

(** *** Which call a tool message answers *)

Lemma appended_tool_round tcs (results : list ToolResult) :
  appended_messages (tool_round_events py_str tcs results)
  = tool_round_messages py_str tcs results.
Proof.
  revert results. induction tcs as [| tc tcs IH]; intros [| res results];
    simpl; try done. unfold appended_messages in *. simpl. by rewrite IH.
Qed.

Lemma tool_round_messages_answer_ids tcs (results : list ToolResult) :
  Forall (answers_one_of (call_id <$> tcs))
    (tool_round_messages py_str tcs results).
Proof.
  revert results. induction tcs as [| tc tcs IH]; intros [| res results];
    simpl; try constructor.
  - split; [done |]. exists (call_id tc). split; [done | left].
  - eapply answers_one_of_mono; [| apply IH]. intros x Hx. by right.
Qed.

(** The ids named by the assistant message of a response are the ids of
    the tool calls the response returns. *)
Lemma tool_call_ids_assistant resp :
  tool_call_ids (assistant_message resp)
  = tc_id <$> default [] (resp_tool_calls resp).
Proof.
  unfold tool_call_ids, assistant_message.
  destruct (resp_tool_calls resp) as [[| tc tcs] |]; try done.
  cbn [tool_calls default]. generalize (tc :: tcs). clear.
  induction l as [| x l IH]; [done |].
  rewrite !fmap_cons. simpl. f_equal. apply IH.
Qed.

Lemma tool_call_ids_of_dicts tcs :
  tc_id <$> (ToolCall_of_dict <$> tcs) = call_id <$> tcs.
Proof. induction tcs as [| tc tcs IH]; [done |]. rewrite !fmap_cons. by f_equal. Qed.

Lemma tool_call_ids_final ls : tool_call_ids (final_message ls) = keys_of ls.
Proof.
  unfold tool_call_ids, final_message, keys_of.
  destruct (accumulated_tool_calls ls) as [| item items]; [done |].
  rewrite fmap_cons. cbn [tool_calls default]. rewrite <- !fmap_cons.
  generalize (item :: items). clear.
  induction l as [| [k c] l IH]; [done |].
  rewrite !fmap_cons. simpl. f_equal. apply IH.
Qed.

(** What a completed [try] block of [send_message] has appended: the tool
    messages of the round, if there was one, and then the assistant message
    that names the calls they answer. *)
Lemma send_message_try_appends msgs offered et s1 resp s' :
  send_message_try provider py_str kwargs_type_error _parse_thinking_response
    msgs offered et s1 = (Ok resp, s') ->
  exists d tool_msgs,
    log s' = log s1 ++ d
    /\ appended_messages d = tool_msgs ++ [assistant_message resp]
    /\ Forall (answers_call_of (assistant_message resp)) tool_msgs.
Proof.
  unfold send_message_try. destruct offered as [available |].
  - destruct (Provider.create_message_with_tools provider msgs available)
      as [rd | e] eqn:Hrd; cycle 1.
    { erewrite bind_raise; [done |].
      erewrite bind_ok by apply emit_eq. reflexivity. }
    destruct (rd_tool_calls rd) as [[| tc tcs'] |] eqn:Htcs.
    + erewrite bind_ok; cycle 1.
      { erewrite bind_ok by apply emit_eq. reflexivity. }
      rewrite Htcs. cbn [tool_calls_truthy_dicts].
      erewrite bind_ok by reflexivity.
      erewrite bind_ok by apply append_message_eq.
      unfold save_current_session. erewrite bind_ok by apply emit_eq.
      unfold ret. intros [= <- <-]. cbn [log]. rewrite <- !app_assoc.
      eexists _, []. split; [reflexivity |]. split; [reflexivity |].
      constructor.
    + pose proof (send_message_try_tools msgs available et s1 rd tc tcs' Hrd Htcs)
        as Htry. cbv zeta in Htry.
      destruct (Provider.create_message provider _) as [final | e].
      * destruct Htry as (resp' & Hcalls & Heq). unfold send_message_try in Heq.
        rewrite Hrd in Heq. rewrite Heq.
        remember (run_calls' (tc :: tcs') (tool_executor s1) (tool_registry s1)).1.1
          as results eqn:Hresults.
        remember (tool_round_events py_str (tc :: tcs') results) as evs eqn:Hevs.
        remember (tool_round_messages py_str (tc :: tcs') results) as tms eqn:Htms.
        intros [= <- <-]. cbv beta iota delta [log].
        rewrite <- !app_assoc.
        eexists _, tms. split; [reflexivity |]. split.
        { rewrite !appended_messages_app. subst evs tms.
          rewrite appended_messages_skip by done.
          rewrite appended_messages_app, appended_tool_round, <- app_assoc.
          reflexivity. }
        unfold answers_call_of.
        rewrite tool_call_ids_assistant, Hcalls.
        unfold default, from_option, id.
        rewrite tool_call_ids_of_dicts. subst tms.
        apply tool_round_messages_answer_ids.
      * unfold send_message_try in Htry. rewrite Hrd in Htry. by rewrite Htry.
    + erewrite bind_ok; cycle 1.
      { erewrite bind_ok by apply emit_eq. reflexivity. }
      rewrite Htcs. cbn [tool_calls_truthy_dicts].
      erewrite bind_ok by reflexivity.
      erewrite bind_ok by apply append_message_eq.
      unfold save_current_session. erewrite bind_ok by apply emit_eq.
      unfold ret. intros [= <- <-]. cbn [log]. rewrite <- !app_assoc.
      eexists _, []. split; [reflexivity |]. split; [reflexivity |].
      constructor.
  - destruct (Provider.create_message provider msgs) as [response_content | e] eqn:Hc.
    + erewrite bind_ok; cycle 1.
      { erewrite bind_ok by apply emit_eq.
        erewrite bind_ok; [reflexivity |]. reflexivity. }
      cbn [rd_tool_calls tool_calls_truthy_dicts].
      erewrite bind_ok by reflexivity.
      erewrite bind_ok by apply append_message_eq.
      unfold save_current_session. erewrite bind_ok by apply emit_eq.
      unfold ret. intros [= <- <-]. cbn [log]. rewrite <- !app_assoc.
      eexists _, []. split; [reflexivity |]. split; [reflexivity |].
      constructor.
    + erewrite bind_raise; [done |].
      erewrite bind_ok by apply emit_eq.
      erewrite bind_raise; [reflexivity |]. reflexivity.
Qed.

(** One feed item: what it adds to the log, and that every message it
    appends is a tool message answering an accumulated id. *)
Lemma stream_step_spec et ls ch st ls' st' :
  step et ls ch st = (Ok ls', st') ->
  exists d,
    log st' = log st ++ d
    /\ keys_of ls ⊆ keys_of ls'
    /\ Forall (answers_one_of (keys_of ls')) (appended_messages d).
Proof.
  assert (Hquiet : forall (x : StreamLocals) (s : ChatEngine),
    (Ok ls', st') = (Ok x, s) -> keys_of ls ⊆ keys_of x ->
    exists d, log st' = log s ++ d /\ keys_of ls ⊆ keys_of ls'
              /\ Forall (answers_one_of (keys_of ls')) (appended_messages d)).
  { intros x s [= -> ->] Hk. exists []. rewrite app_nil_r.
    repeat split; [done | constructor]. }
  assert (Hyield : forall chunk text,
    (yield_chunk chunk ;;; ret (add_content text ls)) st = (Ok ls', st') ->
    exists d, log st' = log st ++ d /\ keys_of ls ⊆ keys_of ls'
              /\ Forall (answers_one_of (keys_of ls')) (appended_messages d)).
  { intros chunk text. unfold yield_chunk.
    erewrite bind_ok by apply emit_eq. unfold ret. intros [= <- <-].
    eexists. split; [reflexivity |]. split; [done | constructor]. }
  assert (Hrest :
    match rd_content ch with
    | Some text =>
        yield_chunk (text_response text);;; ret (add_content text ls)
    | None =>
        if rd_stop ch
        then exec_acc (accumulated_tool_calls ls) ls
        else
          if str_truthy
               (resp_content (_process_response _parse_thinking_response ch et))
          then
            yield_chunk (_process_response _parse_thinking_response ch et);;;
            ret (add_content
                   (resp_content
                      (_process_response _parse_thinking_response ch et)) ls)
          else ret ls
    end st = (Ok ls', st') ->
    exists d, log st' = log st ++ d /\ keys_of ls ⊆ keys_of ls'
              /\ Forall (answers_one_of (keys_of ls')) (appended_messages d)).
  { destruct (rd_content ch) as [text |]; [apply Hyield |].
    destruct (rd_stop ch).
    - destruct (execute_accumulated_spec (accumulated_tool_calls ls) ls st)
        as (ls1 & st1 & d1 & -> & Hlog1 & _ & Hkeys1 & Hans1).
      intros [= <- <-]. by exists d1.
    - destruct (str_truthy _); [apply Hyield |].
      unfold ret. intros H. by apply (Hquiet ls st); [symmetry |]. }
  unfold stream_step.
  destruct (rd_tool_call_start ch) as [start |].
  - destruct (start_id start) as [id |], (start_name start) as [name |];
      try (unfold raise; done).
    unfold ret. intros H. eapply Hquiet; [symmetry; exact H |].
    apply dict_set_keys_incl.
  - destruct (rd_tool_call_delta ch) as [delta |]; [| exact Hrest].
    destruct (current_tool_call ls) as [cur |]; [| exact Hrest].
    unfold ret. intros H. eapply Hquiet; [symmetry; exact H |].
    unfold keys_of. simpl.
    destruct (dict_get cur (accumulated_tool_calls ls)); [| done].
    apply dict_set_keys_incl.
Qed.

Lemma consume_spec et (items : list ResponseData) : forall ls st ls' st',
  consume et items ls st = (Ok ls', st') ->
  exists d,
    log st' = log st ++ d
    /\ keys_of ls ⊆ keys_of ls'
    /\ Forall (answers_one_of (keys_of ls')) (appended_messages d).
Proof.
  induction items as [| ch items IH]; intros ls st ls' st'; simpl.
  - unfold ret. intros [= <- <-]. exists []. rewrite app_nil_r.
    repeat split; [done | constructor].
  - unfold bind. destruct (step et ls ch st) as [[ls1 | e] st1] eqn:Hstep; [| done].
    intros Hrest.
    destruct (stream_step_spec _ _ _ _ _ _ Hstep) as (d1 & Hlog1 & Hkeys1 & Hans1).
    destruct (IH _ _ _ _ Hrest) as (d2 & Hlog2 & Hkeys2 & Hans2).
    exists (d1 ++ d2). split; [by rewrite Hlog2, Hlog1, app_assoc |].
    split; [by etrans |].
    rewrite appended_messages_app. apply Forall_app. split; [| done].
    by apply (answers_one_of_mono (keys_of ls1)).
Qed.

Lemma consume_text_spec (items : list string) : forall ls st,
  exists ls' d,
    consume_text_feed items ls st
    = (Ok ls', mkEngine (conversation st) (tool_registry st) (tool_executor st)
                 (log st ++ d))
    /\ appended_messages d = [].
Proof.
  induction items as [| x items IH]; intros ls st; simpl.
  - exists ls, []. rewrite app_nil_r. by destruct st.
  - unfold yield_chunk. erewrite bind_ok by apply emit_eq.
    edestruct IH as (ls' & d & -> & Hd).
    exists ls', (EvYield (text_response x) :: d).
    cbv beta iota delta [log conversation tool_registry tool_executor].
    rewrite <- app_assoc. split; [reflexivity |].
    by rewrite appended_messages_skip.
Qed.

(** The accumulated ids stay pairwise distinct. *)
Lemma execute_accumulated_nodup items : forall ls st ls' st',
  exec_acc items ls st = (Ok ls', st') ->
  NoDup (keys_of ls) -> NoDup (keys_of ls').
Proof.
  induction items as [| [tool_id tool_call] items IH]; intros ls st ls' st'; simpl.
  - unfold ret. by intros [= <- _].
  - unfold bind. rewrite execute_accumulated_call_eq.
    destruct (parse_arguments_json json_loads (acc_arguments_json tool_call))
      as [arguments | e]; cbv zeta; intros Hrest Hnodup.
    + eapply IH; [exact Hrest |]. by apply dict_set_keys_nodup.
    + eapply IH; [exact Hrest | done].
Qed.

Lemma stream_step_nodup et ls ch st ls' st' :
  step et ls ch st = (Ok ls', st') ->
  NoDup (keys_of ls) -> NoDup (keys_of ls').
Proof.
  intros Hstep Hnodup.
  assert (Hrest :
    match rd_content ch with
    | Some text =>
        yield_chunk (text_response text);;; ret (add_content text ls)
    | None =>
        if rd_stop ch
        then exec_acc (accumulated_tool_calls ls) ls
        else
          if str_truthy
               (resp_content (_process_response _parse_thinking_response ch et))
          then
            yield_chunk (_process_response _parse_thinking_response ch et);;;
            ret (add_content
                   (resp_content
                      (_process_response _parse_thinking_response ch et)) ls)
          else ret ls
    end st = (Ok ls', st') -> NoDup (keys_of ls')).
  { destruct (rd_content ch) as [text |].
    - unfold yield_chunk. erewrite bind_ok by apply emit_eq.
      unfold ret. by intros [= <- _].
    - destruct (rd_stop ch).
      + intros Hacc. by eapply execute_accumulated_nodup.
      + destruct (str_truthy _).
        * unfold yield_chunk. erewrite bind_ok by apply emit_eq.
          unfold ret. by intros [= <- _].
        * unfold ret. by intros [= <- _]. }
  revert Hstep. unfold stream_step.
  destruct (rd_tool_call_start ch) as [start |].
  - destruct (start_id start) as [id |], (start_name start) as [name |];
      try (unfold raise; done).
    unfold ret. intros [= <- _]. by apply dict_set_keys_nodup.
  - destruct (rd_tool_call_delta ch) as [delta |]; [| exact Hrest].
    destruct (current_tool_call ls) as [cur |]; [| exact Hrest].
    unfold ret. intros [= <- _]. unfold keys_of. simpl.
    destruct (dict_get cur (accumulated_tool_calls ls)); [| done].
    by apply dict_set_keys_nodup.
Qed.

Lemma consume_nodup et (items : list ResponseData) : forall ls st ls' st',
  consume et items ls st = (Ok ls', st') ->
  NoDup (keys_of ls) -> NoDup (keys_of ls').
Proof.
  induction items as [| ch items IH]; intros ls st ls' st'; simpl.
  - unfold ret. by intros [= <- _].
  - unfold bind. destruct (step et ls ch st) as [[ls1 | e] st1] eqn:Hstep; [| done].
    intros Hrest Hnodup. eapply IH; [exact Hrest |].
    by eapply stream_step_nodup.
Qed.

Lemma consume_text_keys (items : list string) : forall ls st ls' st',
  consume_text_feed items ls st = (Ok ls', st') -> keys_of ls' = keys_of ls.
Proof.
  induction items as [| x items IH]; intros ls st ls' st'; simpl.
  - unfold ret. by intros [= <- _].
  - unfold yield_chunk. erewrite bind_ok by apply emit_eq.
    intros Hrest. by rewrite (IH _ _ _ _ Hrest).
Qed.

(** What a completed [try] block of [stream_message] has appended: the
    tool messages produced at stop signals, and then the final assistant
    message, which names every accumulated call. *)
Lemma stream_message_try_appends msgs offered et s1 s' :
  stream_message_try provider py_str json_loads kwargs_type_error
    _parse_thinking_response msgs offered et s1 = (Ok tt, s') ->
  exists d tool_msgs am,
    log s' = log s1 ++ d
    /\ appended_messages d = tool_msgs ++ [am]
    /\ role am = ASSISTANT
    /\ Forall (answers_call_of am) tool_msgs
    /\ NoDup (tool_call_ids am).
Proof.
  unfold stream_message_try. destruct offered as [available |].
  - destruct (Provider.stream_message_with_tools provider msgs available)
      as [items ending].
    cbn [fst snd]. rewrite bind_assoc.
    erewrite bind_ok by apply emit_eq. rewrite bind_assoc.
    unfold bind at 1.
    destruct (consume et items _ _) as [[ls | e] st1] eqn:Hrun; [| done].
    destruct (consume_spec _ _ _ _ _ _ Hrun) as (d & Hlog & _ & Hans).
    cbn [log] in Hlog.
    destruct ending as [e |]; [done |]. cbn [feed_end].
    erewrite bind_ok by reflexivity.
    erewrite bind_ok by apply append_message_eq.
    unfold save_current_session. rewrite emit_eq. intros [= <-].
    cbn [log]. rewrite Hlog. rewrite <- !app_assoc.
    eexists _, (appended_messages d), (final_message ls).
    split; [reflexivity |]. split.
    { rewrite !appended_messages_app. reflexivity. }
    split; [done |]. unfold answers_call_of. rewrite tool_call_ids_final.
    split; [done |]. eapply consume_nodup; [exact Hrun | constructor].
  - destruct (Provider.stream_message provider msgs) as [items ending].
    cbn [fst snd]. rewrite bind_assoc.
    erewrite bind_ok by apply emit_eq. rewrite bind_assoc.
    edestruct (consume_text_spec items) as (ls & d & Hrun & Hd).
    erewrite bind_ok by exact Hrun.
    destruct ending as [e |]; [done |]. cbn [feed_end].
    erewrite bind_ok by reflexivity.
    erewrite bind_ok by apply append_message_eq.
    unfold save_current_session. rewrite emit_eq. intros [= <-].
    cbn [log conversation tool_registry tool_executor].
    rewrite <- !app_assoc.
    eexists _, [], (final_message ls). split; [reflexivity |]. split.
    { rewrite !appended_messages_app, Hd. reflexivity. }
    split; [done |]. split; [constructor |].
    rewrite tool_call_ids_final, (consume_text_keys _ _ _ _ _ Hrun).
    constructor.
Qed.

(** C6 (as amended).  In every [send_message] or [stream_message] turn that
    completes, the messages appended are the user message, then the tool
    messages, then the assistant message; every tool message carries the id
    of a tool call named by that assistant message, which is appended after
    it, at the end of the same turn.  In a [stream_message] turn the ids the
    assistant message names are pairwise distinct; in a [send_message] turn
    they are the ids of the tool calls of the returned response, as the
    provider reported them. *)
Theorem tool_messages_answer_the_closing_assistant_message
    text thinking_mode tools enable_tools st st' :
  (exists resp, send text thinking_mode tools enable_tools st = (Ok resp, st'))
  \/ stream text thinking_mode tools enable_tools st = (Ok tt, st') ->
  exists um tool_msgs am,
    appended_messages (turn_log st st') = um :: tool_msgs ++ [am]
    /\ role um = USER
    /\ role am = ASSISTANT
    /\ Forall (answers_call_of am) tool_msgs
    /\ (stream text thinking_mode tools enable_tools st = (Ok tt, st') ->
        NoDup (tool_call_ids am))
    /\ (forall resp,
          send text thinking_mode tools enable_tools st = (Ok resp, st') ->
          tool_call_ids am = tc_id <$> default [] (resp_tool_calls resp)).
Proof.
  assert (Hturn : forall um d tool_msgs am,
    log st' = (log st ++ [EvAppend um]) ++ d ->
    appended_messages d = tool_msgs ++ [am] ->
    appended_messages (turn_log st st') = um :: tool_msgs ++ [am]).
  { intros um d tool_msgs am Hlog Happ. unfold turn_log.
    rewrite Hlog, <- app_assoc, drop_app_length, appended_messages_app, Happ.
    reflexivity. }
  assert (Hsame : forall um tool_msgs am tool_msgs' am',
    appended_messages (turn_log st st') = um :: tool_msgs ++ [am] ->
    appended_messages (turn_log st st') = um :: tool_msgs' ++ [am'] ->
    am = am').
  { intros um tool_msgs am tool_msgs' am' -> [= H].
    by apply app_inj_tail in H as [_ ?]. }
  assert (Hsend : forall resp,
    send text thinking_mode tools enable_tools st = (Ok resp, st') ->
    exists tool_msgs,
      appended_messages (turn_log st st')
      = user_message config _create_thinking_prompt text thinking_mode
        :: tool_msgs ++ [assistant_message resp]
      /\ Forall (answers_call_of (assistant_message resp)) tool_msgs).
  { intros resp. unfold send_message.
    erewrite bind_ok by apply append_message_eq.
    erewrite bind_ok by reflexivity. unfold try_except.
    destruct (send_message_try _ _ _ _ _ _ _ _) as [[resp' | e] s'] eqn:Htry.
    - intros [= -> ->].
      destruct (send_message_try_appends _ _ _ _ _ _ Htry)
        as (d & tool_msgs & Hlog & Happ & Hans).
      cbn [log] in Hlog. exists tool_msgs. split; [by eapply Hturn | done].
    - rewrite rollback_eq. by destruct (pop_message _). }
  assert (Hstream :
    stream text thinking_mode tools enable_tools st = (Ok tt, st') ->
    exists tool_msgs am,
      appended_messages (turn_log st st')
      = user_message config _create_thinking_prompt text thinking_mode
        :: tool_msgs ++ [am]
      /\ role am = ASSISTANT
      /\ Forall (answers_call_of am) tool_msgs
      /\ NoDup (tool_call_ids am)).
  { unfold stream_message.
    erewrite bind_ok by apply append_message_eq.
    erewrite bind_ok by reflexivity. unfold try_except.
    destruct (stream_message_try _ _ _ _ _ _ _ _ _) as [[[] | e] s'] eqn:Htry.
    - intros [= ->].
      destruct (stream_message_try_appends _ _ _ _ _ Htry)
        as (d & tool_msgs & am & Hlog & Happ & Ham & Hans & Hnodup).
      cbn [log] in Hlog. exists tool_msgs, am. split; [by eapply Hturn | done].
    - rewrite rollback_eq. by destruct (pop_message _). }
  intros [[resp Hrun] | Hrun].
  - destruct (Hsend resp Hrun) as (tool_msgs & Happ & Hans).
    exists (user_message config _create_thinking_prompt text thinking_mode),
      tool_msgs, (assistant_message resp).
    split; [done |]. split; [done |]. split; [done |]. split; [done |]. split.
    + intros Hs. destruct (Hstream Hs) as (tm' & am' & Happ' & _ & _ & Hnodup).
      by rewrite (Hsame _ _ _ _ _ Happ Happ').
    + intros resp' Hrun'. destruct (Hsend resp' Hrun') as (tm' & Happ' & _).
      rewrite (Hsame _ _ _ _ _ Happ Happ'). apply tool_call_ids_assistant.
  - destruct (Hstream Hrun) as (tool_msgs & am & Happ & Ham & Hans & Hnodup).
    exists (user_message config _create_thinking_prompt text thinking_mode),
      tool_msgs, am.
    split; [done |]. split; [done |]. split; [done |]. split; [done |]. split.
    + done.
    + intros resp' Hrun'. destruct (Hsend resp' Hrun') as (tm' & Happ' & _).
      rewrite (Hsame _ _ _ _ _ Happ Happ'). apply tool_call_ids_assistant.
Qed.

End EngineProperties.

(** ** The properties on the concrete scenarios *)

(** C1 (checked on a failing input).  The provider asks for two tool
    calls and then fails on the follow-up request.  [send_message] raises the
    provider's error, but the conversation, empty before the call, holds two
    messages after it: the rollback removed only the last tool message, and
    the user message and the first tool message stay behind. *)
Theorem send_message_failure_after_tools_leaves_messages :
  let run :=
    send_message Scenario.failing_followup Scenario.config str_scalar
      mapping_expected Scenario.no_thinking_prompt Scenario.no_thinking_parse
      "add 1 and 2" None None None Scenario.fresh_engine in
  run.1 = Raise (Exn "ProviderError" "API error: 500" false)
  /\ get_message_count (conversation Scenario.fresh_engine) = 0%nat
  /\ messages (conversation run.2)
     = [Scenario.user_msg "add 1 and 2"; mkMessage TOOL "3" None (Some "a")]
  /\ get_message_count (conversation run.2) = 2%nat.
Proof. vm_compute. done. Qed.


(** C6 (as stated) fails: after a completed turn with one tool call, the
    tool message stands before the assistant message that names its id, and
    no assistant message precedes it. *)
Lemma tool_message_precedes_its_assistant_message :
  ~ correlated_with_prior
      (messages (conversation
         (send_message Scenario.replying Scenario.config str_scalar
            mapping_expected Scenario.no_thinking_prompt
            Scenario.no_thinking_parse "add 1 and 2" None None None
            Scenario.fresh_engine).2)).
Proof.
  intros H.
  destruct (H 1%nat (mkMessage TOOL "3" None (Some "a")))
    as (id & Hid & Hcount).
  - vm_compute. reflexivity.
  - reflexivity.
  - vm_compute in Hcount. discriminate Hcount.
Qed.

(** C6 (as amended) on the scenario of one tool call followed by a reply. *)
Lemma tool_messages_answer_witness :
  exists um tool_msgs am,
    appended_messages
      (turn_log Scenario.fresh_engine
         (send_message Scenario.replying Scenario.config str_scalar
            mapping_expected Scenario.no_thinking_prompt
            Scenario.no_thinking_parse "add 1 and 2" None None None
            Scenario.fresh_engine).2)
    = um :: tool_msgs ++ [am]
    /\ role um = USER
    /\ role am = ASSISTANT
    /\ Forall (answers_call_of am) tool_msgs.
Proof.
  edestruct (tool_messages_answer_the_closing_assistant_message
           Scenario.replying Scenario.config str_scalar Json.loads
           mapping_expected Scenario.no_thinking_prompt
           Scenario.no_thinking_parse "add 1 and 2" None None None
           Scenario.fresh_engine)
    as (um & tool_msgs & am & Happ & Hum & Ham & Hans & _).
  - left.
    exists (mkChatResponse "The sum is 3"
              (Some [mkToolCall "a" "calc" Scenario.add_args]) None None None).
    vm_compute. reflexivity.
  - by exists um, tool_msgs, am.
Defined.

(** C7 on the scenario of the specification: the feed
    [tool_call_start(a, calc)], two fragments that join to the JSON text of
    [{operation: add, a: 1, b: 2}], [stop], with [calc] registered.  The
    executor's history, empty before the turn, holds one entry, for [calc]
    and these arguments; the sum is the content of the tool message. *)
Lemma streamed_tool_call_witness :
  (stream_message Scenario.streaming Scenario.config str_scalar Json.loads
     mapping_expected Scenario.no_thinking_prompt Scenario.no_thinking_parse
     "add 1 and 2" None None None Scenario.fresh_engine).1 = Ok tt
  /\ execution_history
       (tool_executor
          (stream_message Scenario.streaming Scenario.config str_scalar
             Json.loads mapping_expected Scenario.no_thinking_prompt
             Scenario.no_thinking_parse "add 1 and 2" None None None
             Scenario.fresh_engine).2)
     = [mkExecutionRecord "calc" Scenario.add_args true None None]
  /\ messages
       (conversation
          (stream_message Scenario.streaming Scenario.config str_scalar
             Json.loads mapping_expected Scenario.no_thinking_prompt
             Scenario.no_thinking_parse "add 1 and 2" None None None
             Scenario.fresh_engine).2)
     = [Scenario.user_msg "add 1 and 2";
        mkMessage TOOL "3" None (Some "a");
        mkMessage ASSISTANT "3"
          (Some [VDict [("id", VStr "a"); ("name", VStr "calc");
                        ("arguments", Scenario.add_args)]]) None]
  /\ executed_calls
       (turn_log Scenario.fresh_engine
          (stream_message Scenario.streaming Scenario.config str_scalar
             Json.loads mapping_expected Scenario.no_thinking_prompt
             Scenario.no_thinking_parse "add 1 and 2" None None None
             Scenario.fresh_engine).2)
     = [(Some "calc", Scenario.add_args)]
  /\ parse_arguments_json Json.loads EmptyString = Ok (VDict []).
Proof.
  destruct (streamed_tool_call_executes_once Scenario.streaming Scenario.config
              str_scalar Json.loads mapping_expected Scenario.no_thinking_prompt
              Scenario.no_thinking_parse "add 1 and 2" None None None
              Scenario.fresh_engine [Scenario.calc_schema] "a" "calc"
              [Scenario.fragment1; Scenario.fragment2]
              [("operation", VStr "add"); ("a", VInt 1); ("b", VInt 2)]
              Scenario.calc Scenario.registry)
    as (res & ex' & Hex & _ & Hown & Hturn & Hcalls & Hempty).
  - vm_compute. reflexivity.
  - reflexivity.
  - vm_compute. reflexivity.
  - vm_compute. reflexivity.
  - assert (Hres : res = mkToolResult true (VInt 3) None []).
    { apply (Hown 1). - reflexivity. - vm_compute. reflexivity. }
    subst res. vm_compute in Hex. injection Hex as <-.
    cbv zeta in Hturn. rewrite Hturn in *.
    split; [reflexivity |]. split; [reflexivity |].
    split; [vm_compute; reflexivity |]. split; [exact Hcalls | exact Hempty].
Defined.

(** In the streamed scenario the executor has run [calc] once, with the
    parsed arguments. *)
Example streamed_scenario_history :
  execution_history
    (tool_executor
       (stream_message Scenario.streaming Scenario.config str_scalar
          Json.loads mapping_expected Scenario.no_thinking_prompt
          Scenario.no_thinking_parse "add 1 and 2" None None None
          Scenario.fresh_engine).2)
  = [mkExecutionRecord "calc" Scenario.add_args true None None].
Proof. vm_compute. reflexivity. Qed.

(** C10 on a feed that opens with text, then a stray fragment, then the
    stop signal. *)
Lemma early_tool_call_delta_witness :
  (forall ls1 st1,
     consume_tool_feed str_scalar Json.loads mapping_expected
       Scenario.no_thinking_parse false [ev_content "Let me see. "]
       (mkStreamLocals EmptyString [] None) Scenario.fresh_engine
     = (Ok ls1, st1) ->
     stream_step str_scalar Json.loads mapping_expected
       Scenario.no_thinking_parse false ls1
       (ev_tool_call_delta "{") st1
     = (Ok ls1, st1))
  /\ consume_tool_feed str_scalar Json.loads mapping_expected
       Scenario.no_thinking_parse false
       ([ev_content "Let me see. "] ++ ev_tool_call_delta "{" :: [ev_stop])
       (mkStreamLocals EmptyString [] None) Scenario.fresh_engine
     = consume_tool_feed str_scalar Json.loads mapping_expected
         Scenario.no_thinking_parse false
         ([ev_content "Let me see. "] ++ [ev_stop])
         (mkStreamLocals EmptyString [] None) Scenario.fresh_engine.
Proof.
  apply (early_tool_call_delta_is_ignored str_scalar Json.loads
           mapping_expected Scenario.no_thinking_parse false
           [ev_content "Let me see. "] [ev_stop]
           (mkToolCallDelta (Some "{")) Scenario.fresh_engine).
  repeat constructor.
Defined.

(** * Further properties *)

(** ** Conversation: what trimming keeps *)

Section TrimmingOrder.

Implicit Types (c : Conversation) (m : Message) (ms : list Message).

Lemma others_of_system ms : others_of (system_of ms) = [].
Proof.
  unfold system_of, others_of. induction ms as [| m ms IH]; [done |].
  rewrite (filter_cons (fun m => role m = SYSTEM)). case_decide; [| done].
  rewrite filter_cons. case_decide; [done | apply IH].
Qed.

Lemma others_of_idemp ms : others_of (others_of ms) = others_of ms.
Proof.
  unfold others_of. induction ms as [| m ms IH]; [done |].
  rewrite filter_cons. case_decide; [| done].
  rewrite filter_cons. case_decide; [by f_equal | done].
Qed.

Lemma others_of_app ms ms' : others_of (ms ++ ms') = others_of ms ++ others_of ms'.
Proof. apply filter_app. Qed.

Lemma system_of_app ms ms' : system_of (ms ++ ms') = system_of ms ++ system_of ms'.
Proof. apply filter_app. Qed.

Lemma others_of_all ms :
  Forall (fun m => role m <> SYSTEM) ms -> others_of ms = ms.
Proof.
  unfold others_of. induction 1 as [| m ms Hm _ IH]; [done |].
  rewrite filter_cons. case_decide; [by f_equal | done].
Qed.

Lemma others_of_drop n ms : others_of (drop n (others_of ms)) = drop n (others_of ms).
Proof.
  apply others_of_all, Forall_drop, Forall_forall.
  intros m Hm. unfold others_of in Hm. by apply list_elem_of_filter in Hm as [? _].
Qed.

(** The other messages that a trim leaves are a suffix of those it
    found. *)
Lemma trim_history_others c :
  others_of (messages (_trim_history c)) `suffix_of` others_of (messages c).
Proof.
  destruct (Z.lt_ge_cases (max_history c) (Z.of_nat (length (messages c))))
    as [Hlt | Hge].
  - rewrite trim_history_unfold by done.
    destruct (slice_from_is_drop (others_of (messages c))
                (- (max_history c - Z.of_nat (length (system_of (messages c))))))
      as [n ->].
    rewrite others_of_app, others_of_system, others_of_drop. simpl.
    apply suffix_drop.
  - by rewrite trim_history_noop.
Qed.

(** X1.  Whatever the bound and the history, [add_message] keeps every
    system message, in order, and of the other messages it keeps a suffix:
    only the oldest non-system messages are ever dropped, and the remaining
    ones keep their relative order. *)
Theorem add_message_drops_only_oldest c m :
  system_of (messages (add_message c m)) = system_of (messages c ++ [m])
  /\ others_of (messages (add_message c m))
     `suffix_of` others_of (messages c ++ [m]).
Proof.
  split; [apply add_message_keeps_system |].
  unfold add_message.
  apply (trim_history_others (set_messages c (messages c ++ [m]))).
Qed.

(** X2.  A message that is not a system message is the last message of
    the history right after it was appended, also when the append trimmed
    the history, provided the system messages do not outnumber the bound. *)
Theorem add_message_is_last c m :
  role m <> SYSTEM ->
  Z.of_nat (length (system_of (messages c))) <= max_history c ->
  get_last_message (add_message c m) = Some m.
Proof.
  intros Hrole Hsys. unfold get_last_message, add_message.
  set (c1 := set_messages c (messages c ++ [m])).
  assert (Hsys1 : system_of (messages c1) = system_of (messages c)).
  { unfold c1. simpl. rewrite system_of_app. unfold system_of at 2.
    rewrite filter_cons. case_decide; [done |]. by rewrite app_nil_r. }
  assert (Hoth1 : others_of (messages c1) = others_of (messages c) ++ [m]).
  { unfold c1. simpl. rewrite others_of_app. unfold others_of at 2.
    rewrite filter_cons. by case_decide. }
  destruct (Z.lt_ge_cases (max_history c1) (Z.of_nat (length (messages c1))))
    as [Hlt | Hge].
  - rewrite trim_history_unfold by done. rewrite Hsys1, Hoth1.
    change (max_history c1) with (max_history c).
    destruct (Z.eq_dec (max_history c) (Z.of_nat (length (system_of (messages c)))))
      as [Heq | Hne].
    + rewrite Heq, Z.sub_diag. change (- 0) with 0.
      rewrite slice_from_pos by lia. change (Z.to_nat 0) with 0%nat.
      rewrite drop_0, app_assoc. apply last_snoc.
    + pose proof (slice_from_last (others_of (messages c)) m
                    (max_history c - Z.of_nat (length (system_of (messages c)))))
        as Hlast.
      destruct (slice_from _ _) as [| x l] eqn:Hslice.
      { discriminate Hlast. lia. }
      rewrite last_app. rewrite Hlast by lia. done.
  - rewrite trim_history_noop by done. unfold c1. simpl. apply last_snoc.
Qed.

(** X3.  Exporting a conversation and importing the export gives back the
    messages in their normalised form, and nothing else: the history bound
    is the default of fifty and the system prompt is unset, whatever they
    were. *)
Theorem import_export_roundtrip c :
  import_from_dict (export_to_dict c)
  = Ok (mkConversation (normalize_message <$> messages c) 50 None).
Proof.
  unfold import_from_dict, export_to_dict. by rewrite messages_roundtrip.
Qed.

End TrimmingOrder.

(** X2 on a history of one system and two user messages under a bound
    of two, and a third user message. *)
Lemma add_message_is_last_witness :
  get_last_message (add_message Examples.crowded (Scenario.user_msg "u3"))
  = Some (Scenario.user_msg "u3").
Proof.
  apply add_message_is_last; [discriminate |]. vm_compute. discriminate.
Defined.

(** ** Tool registry *)

Section RegistryProperties.

Implicit Types (reg : ToolRegistry) (n : string).

Lemma elem_of_list_tools n reg :
  n ∈ list_tools reg
  <-> is_Some (_tools reg !! n) \/ is_Some (_tool_classes reg !! n).
Proof.
  unfold list_tools. by rewrite elem_of_elements, elem_of_union, !elem_of_dom.
Qed.

Lemma get_tool_finds_listed n reg :
  is_Some (get_tool (Some n) reg).1 <-> n ∈ list_tools reg.
Proof.
  rewrite elem_of_list_tools. unfold get_tool.
  destruct (_tools reg !! n) as [t |]; simpl.
  - split; eauto.
  - destruct (_tool_classes reg !! n) as [cls |]; simpl.
    + split; eauto.
    + split; [by intros [? ?] | by intros [[? ?] | [? ?]]].
Qed.

(** X4.  [get_tool] finds a tool exactly for the names that [list_tools]
    lists.  Looking a tool up twice gives the same tool and, the second
    time, leaves the registry as it is; a lookup changes neither the names
    listed nor what a lookup of any name finds. *)
Theorem get_tool_lookup n reg :
  (is_Some (get_tool (Some n) reg).1 <-> n ∈ list_tools reg)
  /\ get_tool (Some n) (get_tool (Some n) reg).2 = get_tool (Some n) reg
  /\ list_tools (get_tool (Some n) reg).2 = list_tools reg
  /\ forall n', (get_tool (Some n') (get_tool (Some n) reg).2).1
                = (get_tool (Some n') reg).1.
Proof.
  split; [apply get_tool_finds_listed |].
  unfold get_tool.
  destruct (_tools reg !! n) as [t |] eqn:Ht; simpl.
  { rewrite Ht. done. }
  destruct (_tool_classes reg !! n) as [cls |] eqn:Hcls; simpl; cycle 1.
  { rewrite Ht, Hcls. done. }
  rewrite lookup_insert_eq. split; [done |]. split.
  - unfold list_tools. simpl. f_equal. apply leibniz_equiv.
    rewrite dom_insert. apply elem_of_dom_2 in Hcls.
    intros x. rewrite !elem_of_union, elem_of_singleton. split.
    + intros [[-> | ?] | ?]; auto.
    + intros [? | ?]; auto.
  - intros n'. destruct (decide (n = n')) as [<- | Hne].
    + by rewrite lookup_insert_eq, Ht, Hcls.
    + rewrite lookup_insert_ne by done.
      by destruct (_tools reg !! n'), (_tool_classes reg !! n').
Qed.

(** X5.  [unregister] answers [True] exactly when the name has an
    instance in [_tools]; the name is then neither found nor listed any
    more.  When it answers [False] the registry is unchanged. *)
Theorem unregister_spec n reg :
  (unregister n reg).1 = bool_decide (is_Some (_tools reg !! n))
  /\ if (unregister n reg).1
     then (get_tool (Some n) (unregister n reg).2).1 = None
          /\ n ∉ list_tools (unregister n reg).2
     else (unregister n reg).2 = reg.
Proof.
  unfold unregister. destruct (_tools reg !! n) as [t |] eqn:Ht; simpl.
  - split; [done |]. split.
    + unfold get_tool. simpl. by rewrite !lookup_delete_eq.
    + rewrite elem_of_list_tools. simpl. rewrite !lookup_delete_eq.
      by intros [[? ?] | [? ?]].
  - done.
Qed.

(** X6.  A tool registered by its class and not looked up yet cannot be
    unregistered: [unregister] answers [False], and the tool is still listed
    and still found. *)
Theorem unregister_keeps_unused_class cls reg :
  _tools reg !! tool_name cls = None ->
  unregister (tool_name cls) (register_class cls reg)
  = (false, register_class cls reg)
  /\ tool_name cls ∈ list_tools (register_class cls reg)
  /\ (get_tool (Some (tool_name cls)) (register_class cls reg)).1 = Some cls.
Proof.
  intros Hnone. unfold unregister, register_class, get_tool. simpl.
  rewrite Hnone, lookup_insert_eq. repeat split.
  rewrite elem_of_list_tools. simpl. right. rewrite lookup_insert_eq. eauto.
Qed.

End RegistryProperties.

(** X6 on the registry of the scenarios and a tool it does not hold. *)
Lemma unregister_keeps_unused_class_witness :
  unregister "sleeper" (register_class Scenario.sleeper Scenario.registry)
  = (false, register_class Scenario.sleeper Scenario.registry)
  /\ "sleeper" ∈ list_tools (register_class Scenario.sleeper Scenario.registry)
  /\ (get_tool (Some "sleeper")
        (register_class Scenario.sleeper Scenario.registry)).1
     = Some Scenario.sleeper.
Proof.
  apply (unregister_keeps_unused_class Scenario.sleeper Scenario.registry).
  vm_compute. reflexivity.
Defined.

(** ** Tool executor, continued *)

Section ExecutorHistory.

Variable kwargs_type_error : value -> string.

Lemma execute_history_bounded ex tool arguments timeout res ex' :
  execute kwargs_type_error ex tool arguments timeout = Ok (res, ex') ->
  (length (execution_history ex) <= 100)%nat ->
  (length (execution_history ex') <= 100)%nat.
Proof.
  unfold execute, execute_try. intros Hex Hlen.
  destruct (match arguments with VDict kwargs => _ | _ => _ end) as [r | e].
  - injection Hex as <- <-. by apply record_execution_bounded.
  - destruct (exn_is_timeout e); injection Hex as <- <-;
      by apply record_execution_bounded.
Qed.

Lemma exec_outcome_history_bounded ex reg name arguments :
  (length (execution_history ex) <= 100)%nat ->
  (length (execution_history
             (exec_outcome kwargs_type_error ex reg name arguments).1.2) <= 100)%nat.
Proof.
  intros Hlen. unfold exec_outcome, execute_by_name.
  destruct (get_tool name reg) as [[tool |] reg']; [| done].
  destruct (execute _ _ _ _ _) as [[res ex'] | e] eqn:Hex; [| done].
  simpl. by eapply execute_history_bounded.
Qed.

Lemma run_calls_history_bounded tcs ex reg :
  (length (execution_history ex) <= 100)%nat ->
  (length (execution_history (run_calls kwargs_type_error tcs ex reg).1.2)
   <= 100)%nat.
Proof.
  revert ex reg. induction tcs as [| tc tcs IH]; intros ex reg Hlen; [done |].
  simpl.
  pose proof (exec_outcome_history_bounded ex reg (tcd_name tc)
                (call_arguments tc) Hlen) as H1.
  destruct (exec_outcome _ _ _ _ _) as [[res ex1] reg1]. simpl in H1.
  specialize (IH ex1 reg1 H1).
  by destruct (run_calls _ tcs ex1 reg1) as [[rs ex2] reg2].
Qed.

(** X7.  However many tool calls an executor that starts with an empty
    history is given, one after the other, its history never holds more than
    one hundred entries. *)
Theorem execution_history_never_exceeds_100 tcs timeout reg :
  (length (execution_history
             (run_calls kwargs_type_error tcs (mkExecutor timeout []) reg).1.2)
   <= 100)%nat.
Proof. apply run_calls_history_bounded. simpl. lia. Qed.

(** X8.  Asked for a name that the registry does not list,
    [execute_by_name] answers with a failure that names the tool, and leaves
    no trace: nothing is added to the execution history, and the registry is
    unchanged. *)
Theorem execute_by_name_unknown_tool ex reg n arguments timeout :
  n ∉ list_tools reg ->
  execute_by_name kwargs_type_error ex reg (Some n) arguments timeout
  = Ok (mkToolResult false VNone
          (Some ("Tool '" +:+ n +:+ "' not found in registry")) [],
        ex, reg).
Proof.
  intros Hn. unfold execute_by_name.
  rewrite <- get_tool_finds_listed in Hn. unfold get_tool in *.
  destruct (_tools reg !! n) as [t |]; [by destruct Hn; eauto |].
  destruct (_tool_classes reg !! n) as [cls |]; [by destruct Hn; eauto |].
  done.
Qed.

End ExecutorHistory.

(** X8 on the registry of the scenarios, which holds [calc] only. *)
Lemma execute_by_name_unknown_tool_witness :
  execute_by_name mapping_expected Scenario.executor Scenario.registry
    (Some "search") (VDict []) None
  = Ok (mkToolResult false VNone
          (Some "Tool 'search' not found in registry") [],
        Scenario.executor, Scenario.registry).
Proof.
  apply execute_by_name_unknown_tool.
  rewrite elem_of_list_tools. vm_compute. intros [[t Ht] | [t Ht]]; discriminate.
Defined.

(** ** Validation of tool arguments *)

Section DictLemmas.

Context {V : Type}.
Implicit Types (d : list (string * V)) (k : string).

Lemma dict_get_set_eq k (v : V) d : dict_get k (dict_set k v d) = Some v.
Proof.
  induction d as [| [k' v'] d IH]; simpl.
  - by rewrite String.eqb_refl.
  - destruct (String.eqb k k') eqn:Hk; simpl; rewrite ?String.eqb_refl, ?Hk; done.
Qed.

Lemma dict_get_set_ne k k' (v : V) d :
  k <> k' -> dict_get k' (dict_set k v d) = dict_get k' d.
Proof.
  intros Hne. apply String.eqb_neq in Hne as Hkk'.
  assert (Hk'k : String.eqb k' k = false) by (by rewrite String.eqb_sym).
  induction d as [| [k0 v0] d IH]; simpl.
  - by rewrite Hk'k.
  - destruct (String.eqb k k0) eqn:Hk; simpl.
    + apply String.eqb_eq in Hk as <-. by rewrite Hk'k.
    + by rewrite IH.
Qed.

End DictLemmas.

Section ValidationProperties.

Variable py_str : value -> string.

Implicit Types (ps : list ToolParameter) (arguments : list (string * value)).

Lemma first_missing_none ps arguments :
  first_missing (required_of ps) arguments = None
  <-> Forall (fun p => param_required p = true ->
                       is_Some (dict_get (param_name p) arguments)) ps.
Proof.
  induction ps as [| p ps IH]; simpl; [by split; [constructor |] |].
  rewrite Forall_cons, <- IH.
  destruct (param_required p); simpl.
  - destruct (dict_get (param_name p) arguments) as [v |].
    + split; [intros H; split; eauto | by intros [_ H]].
    + split; [done | intros [H _]]. by destruct H.
  - split; [done | by intros [_ H]].
Qed.

Lemma first_invalid_none ps arguments :
  first_invalid ps arguments = None
  <-> Forall (fun p => forall v, dict_get (param_name p) arguments = Some v ->
                                 _validate_parameter_type p v = true) ps.
Proof.
  induction ps as [| p ps IH]; simpl; [by split; [constructor |] |].
  rewrite Forall_cons, <- IH.
  destruct (dict_get (param_name p) arguments) as [v |].
  - destruct (_validate_parameter_type p v) eqn:Hv.
    + split; [intros H; split; [by intros ? [= <-] | done] | by intros [_ H]].
    + split; [done | intros [H _]]. specialize (H v eq_refl). congruence.
  - split; [done | by intros [_ H]].
Qed.

Lemma first_missing_undeclared ps k v arguments :
  k ∉ param_name <$> ps ->
  first_missing (required_of ps) (dict_set k v arguments)
  = first_missing (required_of ps) arguments.
Proof.
  induction ps as [| p ps IH]; [done |].
  rewrite fmap_cons, not_elem_of_cons. intros [Hne Hk].
  simpl. destruct (param_required p); [| by apply IH].
  simpl. rewrite dict_get_set_ne by done.
  destruct (dict_get (param_name p) arguments); [by apply IH | done].
Qed.

Lemma first_invalid_undeclared ps k v arguments :
  k ∉ param_name <$> ps ->
  first_invalid ps (dict_set k v arguments) = first_invalid ps arguments.
Proof.
  induction ps as [| p ps IH]; [done |].
  rewrite fmap_cons, not_elem_of_cons. intros [Hne Hk].
  simpl. rewrite dict_get_set_ne by done.
  destruct (dict_get (param_name p) arguments) as [w |]; [| by apply IH].
  destruct (_validate_parameter_type p w); [by apply IH | done].
Qed.

(** X9.  For a tool that declares a list of parameters,
    [validate_parameters] accepts the arguments exactly when every required
    parameter is among them and every declared parameter that is among them
    has a value of its declared type and enumeration.  For a tool that
    declares a single parameter, only the presence of a required parameter is
    checked, not the type of its value. *)
Theorem validate_parameters_accepts ps p arguments :
  ((validate_parameters py_str (ParamList ps) arguments).1 = true
   <-> Forall (fun p =>
                 (param_required p = true ->
                  is_Some (dict_get (param_name p) arguments))
                 /\ (forall v, dict_get (param_name p) arguments = Some v ->
                               _validate_parameter_type p v = true)) ps)
  /\ ((validate_parameters py_str (ParamSingle p) arguments).1 = true
      <-> (param_required p = true ->
           is_Some (dict_get (param_name p) arguments))).
Proof.
  split.
  - rewrite Forall_and, <- first_missing_none, <- first_invalid_none.
    unfold validate_parameters.
    destruct (first_missing (required_of ps) arguments) as [missing |]; simpl.
    { split; [done | by intros [? _]]. }
    destruct (first_invalid ps arguments) as [[bad v] |]; simpl.
    + split; [done | by intros [_ ?]].
    + done.
  - unfold validate_parameters. destruct (param_required p); simpl.
    + destruct (dict_get (param_name p) arguments) as [v |]; simpl.
      * split; eauto.
      * split; [done | intros H]. by destruct H.
    + done.
Qed.

(** X10.  An argument under a name that the tool does not declare has no
    effect on the verdict: it is neither rejected nor looked at, although the
    schema built from the same parameters says that additional properties are
    not allowed. *)
Theorem validate_parameters_ignores_undeclared ps k v arguments name description :
  k ∉ param_name <$> ps ->
  validate_parameters py_str (ParamList ps) (dict_set k v arguments)
  = validate_parameters py_str (ParamList ps) arguments
  /\ schema_field "additionalProperties" (schema name description (ParamList ps))
     = Some (VBool false).
Proof.
  intros Hk. split; cycle 1.
  { unfold schema, schema_field. by destruct (schema_entries ps [] []). }
  unfold validate_parameters.
  by rewrite first_missing_undeclared, first_invalid_undeclared.
Qed.

Variable kwargs_type_error : value -> string.
Variable parameters_of : BaseTool -> Parameters.

(** X11.  [execute_tool] answers that the tool was not found for a name
    that [get_tool] does not find, and with the message of
    [validate_parameters] for a tool whose arguments are rejected: in both
    cases the answer is fixed before the tool's coroutine would be called,
    and is a failure.  A result that is a success is the result that
    [execute], on an executor made for the call, gave for the tool found
    and the arguments accepted. *)
Theorem execute_tool_runs_only_validated name arguments reg :
  let found := get_tool (Some name) reg in
  let answer :=
    execute_tool py_str kwargs_type_error parameters_of name arguments reg in
  (found.1 = None ->
   answer
   = Ok (mkToolResult false VNone (Some ("Tool '" +:+ name +:+ "' not found")) [],
         found.2))
  /\ (forall tool,
        found.1 = Some tool ->
        (validate_parameters py_str (parameters_of tool) arguments).1 = false ->
        answer
        = Ok (mkToolResult false VNone
                (validate_parameters py_str (parameters_of tool) arguments).2 [],
              found.2))
  /\ (forall res reg',
        answer = Ok (res, reg') ->
        success res = true ->
        exists tool ex',
          found.1 = Some tool
          /\ (validate_parameters py_str (parameters_of tool) arguments).1 = true
          /\ execute kwargs_type_error (mkExecutor 30 []) tool (VDict arguments)
               None
             = Ok (res, ex')).
Proof.
  cbv zeta. unfold execute_tool.
  destruct (get_tool (Some name) reg) as [[tool |] reg1] eqn:Hget; cbn [fst snd].
  - split; [done |]. split.
    + intros tool' [= <-] Hinvalid.
      destruct (validate_parameters py_str (parameters_of tool) arguments)
        as [[|] msg]; [done | done].
    + intros res reg' Hanswer Hsuccess. exists tool.
      destruct (validate_parameters py_str (parameters_of tool) arguments)
        as [[|] msg]; cycle 1.
      { injection Hanswer as <- <-. done. }
      destruct (execute kwargs_type_error (mkExecutor 30 []) tool
                  (VDict arguments) None) as [[res' ex'] | e]; [| done].
      injection Hanswer as <- <-. by exists ex'.
  - split; [done |]. split; [done |].
    intros res reg' [= <- <-]. done.
Qed.

End ValidationProperties.

(** X10 on a tool with two declared parameters and an argument named
    [verbose]. *)
Lemma validate_parameters_ignores_undeclared_witness :
  validate_parameters str_scalar (ParamList Examples.calc_parameters)
    (dict_set "verbose" (VBool true) [("operation", VStr "add")])
  = validate_parameters str_scalar (ParamList Examples.calc_parameters)
      [("operation", VStr "add")]
  /\ schema_field "additionalProperties"
       (schema "calc" "Adds" (ParamList Examples.calc_parameters))
     = Some (VBool false).
Proof.
  apply validate_parameters_ignores_undeclared.
  vm_compute. intros H.
  repeat (apply elem_of_cons in H as [H | H]; [discriminate H |]).
  by apply elem_of_nil in H.
Defined.

(** ** Session manager *)

Section SessionManagerProperties.

Import Sessions.

Implicit Types (mgr : SessionManager) (session : Session.ChatSession).



(** X14.  [delete_session] answers [True] exactly when the removal of
    the file was accepted or there was no file for the id.  Then there is
    no file and no cache entry for the id, the session can no longer be
    loaded and is not the active session, while what is cached under any
    other id is untouched and another active session stays the active one.
    When it answers [False] the manager is as it was: the session is still
    cached, and still active if it was. *)
Theorem deleted_session_is_gone removed id mgr :
  let answer := delete_session removed id mgr in
  (answer.1 = true <-> removed = Accepted \/ sessions_dir mgr !! id = None)
  /\ (answer.1 = true ->
      sessions_dir answer.2 !! id = None
      /\ _sessions_cache answer.2 !! id = None
      /\ load_session id answer.2 = (None, answer.2)
      /\ _active_session answer.2 <> Some id
      /\ (forall id', id' <> id ->
            _sessions_cache answer.2 !! id' = _sessions_cache mgr !! id')
      /\ (_active_session mgr <> Some id ->
          _active_session answer.2 = _active_session mgr))
  /\ (answer.1 = false -> answer.2 = mgr).
Proof.
  cbv zeta.
  assert (Hgone : forall mgr',
    mgr' = {| sessions_dir := delete id (sessions_dir mgr);
              _sessions_cache := delete id (_sessions_cache mgr);
              _active_session :=
                if bool_decide (_active_session mgr = Some id) then None
                else _active_session mgr |} ->
    sessions_dir mgr' !! id = None
    /\ _sessions_cache mgr' !! id = None
    /\ load_session id mgr' = (None, mgr')
    /\ _active_session mgr' <> Some id
    /\ (forall id', id' <> id ->
          _sessions_cache mgr' !! id' = _sessions_cache mgr !! id')
    /\ (_active_session mgr <> Some id ->
        _active_session mgr' = _active_session mgr)).
  { intros mgr' ->. unfold load_session.
    cbn [sessions_dir _sessions_cache _active_session].
    rewrite !lookup_delete_eq. split; [done |]. split; [done |].
    split; [done |]. split; [case_bool_decide; done |]. split.
    - intros id' Hne. by rewrite lookup_delete_ne.
    - intros Hother. by rewrite bool_decide_eq_false_2. }
  unfold delete_session.
  destruct (sessions_dir mgr !! id) as [data |] eqn:Hfile, removed;
    cbn [fst snd].
  - split; [split; [by left | done] |]. split; [intros _; by apply Hgone | done].
  - split; [split; [done | by intros [|]] |]. split; [done | done].
  - split; [split; [by left | done] |]. split; [intros _; by apply Hgone | done].
  - split; [split; [by right | done] |]. split; [intros _; by apply Hgone | done].
Qed.

Lemma load_session_cached id mgr session mgr' :
  load_session id mgr = (Some session, mgr') ->
  _sessions_cache mgr' !! id = Some session.
Proof.
  unfold load_session.
  destruct (_sessions_cache mgr !! id) as [s |] eqn:Hc.
  { by intros [= <- <-]. }
  destruct (sessions_dir mgr !! id) as [data |]; [| done].
  destruct (Session.from_dict data) as [s | e]; [| done].
  intros [= <- <-]. simpl. apply lookup_insert_eq.
Qed.

Lemma load_session_hit id mgr session :
  _sessions_cache mgr !! id = Some session ->
  load_session id mgr = (Some session, mgr).
Proof. unfold load_session. by intros ->. Qed.

Lemma load_session_none id mgr mgr' :
  load_session id mgr = (None, mgr') -> mgr' = mgr.
Proof.
  unfold load_session.
  destruct (_sessions_cache mgr !! id) as [s |]; [done |].
  destruct (sessions_dir mgr !! id) as [data |]; [| by intros [= <-]].
  destruct (Session.from_dict data) as [s | e]; [done | by intros [= <-]].
Qed.

Lemma add_tag_cases id tag now saved_at mgr :
  (add_tag id tag now saved_at mgr = (false, mgr)
   /\ load_session id mgr = (None, mgr))
  \/ exists session mgr',
       add_tag id tag now saved_at mgr = (true, mgr')
       /\ _sessions_cache mgr' !! id = Some session
       /\ tag ∈ Session.tags (Session.info session).
Proof.
  unfold add_tag.
  destruct (load_session id mgr) as [[session |] mgr1] eqn:Hload; cycle 1.
  { apply load_session_none in Hload as Hmgr. subst mgr1. by left. }
  right. apply load_session_cached in Hload as Hcached.
  case_bool_decide as Htag.
  - by exists session, mgr1.
  - eexists _, _. split; [reflexivity |].
    unfold save_changed, save_session, write_file, set_cached.
    cbn [fst snd sessions_dir _sessions_cache _active_session].
    rewrite lookup_insert_eq. split; [reflexivity |].
    simpl. apply elem_of_app. right. by left.
Qed.

(** X15.  Adding a tag that a session already carries changes nothing,
    not even the update time: [add_tag] done twice leaves the manager as
    [add_tag] done once left it, with the same answer.  After [add_tag] has
    answered [True] the loaded session carries the tag. *)
Theorem add_tag_twice id tag now saved_at now' saved_at' mgr :
  let once := add_tag id tag now saved_at mgr in
  add_tag id tag now' saved_at' once.2 = once
  /\ (once.1 = true ->
      exists session,
        load_session id once.2 = (Some session, once.2)
        /\ tag ∈ Session.tags (Session.info session)).
Proof.
  cbv zeta.
  destruct (add_tag_cases id tag now saved_at mgr)
    as [[-> Hload] | (session & mgr' & -> & Hcached & Htag)]; cbn [fst snd].
  - split; [| done]. unfold add_tag. by rewrite Hload.
  - pose proof (load_session_hit _ _ _ Hcached) as Hhit. split.
    + unfold add_tag. rewrite Hhit. by rewrite bool_decide_eq_true_2.
    + intros _. by exists session.
Qed.

(** X16.  A session file in which one message carries a role that is not
    one of the four known ones cannot be loaded: [load_session] answers
    [None] for it and the manager is unchanged. *)
Theorem load_session_rejects_unknown_role id data mgr bad :
  _sessions_cache mgr !! id = None ->
  sessions_dir mgr !! id = Some data ->
  bad ∈ Session.c_messages (Session.s_conversation data) ->
  d_role bad ∉ role_value <$> [SYSTEM; USER; ASSISTANT; TOOL] ->
  load_session id mgr = (None, mgr).
Proof.
  intros Hcache Hfile Hbad Hrole. unfold load_session. rewrite Hcache, Hfile.
  assert (Hraise : exists e, Session.from_dict data = Raise e); cycle 1.
  { by destruct Hraise as [e ->]. }
  unfold Session.from_dict.
  assert (Hms : exists e,
             Session.messages_from_dicts
               (Session.c_messages (Session.s_conversation data)) = Raise e);
    cycle 1.
  { destruct Hms as [e ->]. eauto. }
  induction (Session.c_messages (Session.s_conversation data)) as [| d ds IH].
  { by apply elem_of_nil in Hbad. }
  simpl. apply elem_of_cons in Hbad as [<- | Hbad].
  - unfold Message_from_dict, role_of_value.
    repeat match goal with
    | |- context [String.eqb ?a ?b] =>
        destruct (String.eqb_spec a b) as [Heq | _];
        [exfalso; apply Hrole; rewrite Heq; simpl;
         repeat (first [left | right]; try done) |]
    end.
    eauto.
  - destruct (Message_from_dict d) as [m | e]; [| eauto].
    destruct (IH Hbad) as [e ->]. eauto.
Qed.


End SessionManagerProperties.


(** X16 on a directory whose only file holds a message of role
    [robot]. *)
Lemma load_session_rejects_unknown_role_witness :
  Sessions.load_session "1a2b3c4d" Examples.damaged_directory
  = (None, Examples.damaged_directory).
Proof.
  apply (load_session_rejects_unknown_role "1a2b3c4d" Examples.damaged_file
           Examples.damaged_directory (mkMessageDict "robot" "beep" None None)).
  - reflexivity.
  - vm_compute. reflexivity.
  - right. left.
  - vm_compute. intros H.
    repeat (apply elem_of_cons in H as [H | H]; [discriminate H |]).
    by apply elem_of_nil in H.
Defined.

(** ** Chat engine: turns without tools *)

Section PlainTurns.

Variable provider : Provider.BaseProvider.
Variable config : ChatConfig.
Variable py_str : value -> string.
Variable json_loads : string -> Exc value.
Variable kwargs_type_error : value -> string.
Variable _create_thinking_prompt : string -> string.
Variable _parse_thinking_response : string -> string * string.

Local Abbreviation send :=
  (send_message provider config py_str kwargs_type_error
     _create_thinking_prompt _parse_thinking_response).
Local Abbreviation stream :=
  (stream_message provider config py_str json_loads kwargs_type_error
     _create_thinking_prompt _parse_thinking_response).
Local Abbreviation consume := (consume_tool_feed py_str json_loads
                            kwargs_type_error _parse_thinking_response).

Implicit Types (st : ChatEngine).

(** X18.  Tools are put on offer exactly when the provider supports tool
    calling, the list to offer (the one passed in, or else the registry's
    schemas) is not empty, and tools are switched on: by the call's own flag
    when it is given, whatever the configuration says, and otherwise by the
    configuration together with a tool list or a non-empty registry. *)
Theorem tools_to_offer_spec tools enable_tools reg available :
  tools_to_offer provider config tools enable_tools reg = Some available
  <-> Provider.supports_tool_calling provider = true
      /\ available <> []
      /\ available = default (get_tool_schemas reg) tools
      /\ match enable_tools with
         | Some b => b = true
         | None =>
             cfg_enable_tools config = true
             /\ (is_Some tools \/ list_tools reg <> [])
         end.
Proof.
  unfold tools_to_offer, available_tools, should_enable_tools.
  destruct enable_tools as [[|] |]; simpl.
  - destruct tools as [[| t ts] |]; simpl.
    + split; [done | by intros (_ & ? & -> & _)].
    + destruct (Provider.supports_tool_calling provider).
      * split; [by intros [= <-] | by intros (_ & _ & -> & _)].
      * split; [done | by intros (? & _)].
    + destruct (get_tool_schemas reg) as [| t ts]; simpl.
      { split; [done | by intros (_ & ? & -> & _)]. }
      destruct (Provider.supports_tool_calling provider).
      * split; [by intros [= <-] | by intros (_ & _ & -> & _)].
      * split; [done | by intros (? & _)].
  - split; [done | by intros (_ & _ & _ & ?)].
  - destruct (cfg_enable_tools config); simpl; cycle 1.
    { split; [done | by intros (_ & _ & _ & ? & _)]. }
    destruct (Provider.supports_tool_calling provider); simpl; cycle 1.
    { split; [done | by intros (? & _)]. }
    destruct tools as [[| t ts] |]; simpl.
    + split; [done | by intros (_ & ? & -> & _)].
    + split; [intros [= <-]; eauto 10 | by intros (_ & _ & -> & _)].
    + destruct (list_tools reg) as [| n ns] eqn:Hlist.
      * rewrite bool_decide_eq_false_2 by (simpl; lia).
        split; [done |]. by intros (_ & _ & _ & _ & [[? ?] | ?]).
      * rewrite bool_decide_eq_true_2 by (simpl; lia).
        destruct (get_tool_schemas reg) as [| t ts]; simpl.
        { split; [done | by intros (_ & ? & -> & _)]. }
        split; [intros [= <-]; eauto 10 | by intros (_ & _ & -> & _)].
Qed.

(** X19.  A [send_message] turn in which no tools are on offer and the
    provider replies: the provider is asked once, on the history that ends
    with the user message; the turn appends the user message and the
    assistant message, in this order, and saves; no tool is executed and the
    registry and executor are as before.  With thinking mode off the
    response and the assistant message carry the reply unchanged. *)
Theorem send_message_plain_turn text thinking_mode tools enable_tools st reply :
  let um := user_message config _create_thinking_prompt text thinking_mode in
  let c1 := add_message (conversation st) um in
  let et := default (cfg_enable_thinking config) thinking_mode in
  let resp := plain_response _parse_thinking_response reply et in
  tools_to_offer provider config tools enable_tools (tool_registry st) = None ->
  Provider.create_message provider (messages c1) = Ok reply ->
  send text thinking_mode tools enable_tools st
  = (Ok resp,
     mkEngine (add_message c1 (mkMessage ASSISTANT (resp_content resp) None None))
       (tool_registry st) (tool_executor st)
       (log st ++ [EvAppend um; EvCreateMessage (messages c1);
                   EvAppend (mkMessage ASSISTANT (resp_content resp) None None);
                   EvSave]))
  /\ resp_tool_calls resp = None
  /\ (et = false -> resp_content resp = reply).
Proof.
  intros um c1 et resp Hoffer Hreply.
  assert (Hcalls : resp_tool_calls resp = None).
  { unfold resp, plain_response, _process_response. simpl.
    by destruct (et && _); [destruct (_parse_thinking_response _) |]. }
  split; [| split; [exact Hcalls |]]; cycle 1.
  { intros Het. unfold resp, plain_response, _process_response. simpl.
    by rewrite Het. }
  unfold send_message. rewrite Hoffer.
  erewrite bind_ok by apply append_message_eq.
  erewrite bind_ok by reflexivity.
  unfold get_messages_for_provider. cbn [conversation].
  fold um. fold c1. unfold try_except, send_message_try.
  erewrite bind_ok; cycle 1.
  { erewrite bind_ok by apply emit_eq.
    erewrite bind_ok; [reflexivity |]. unfold lift. by rewrite Hreply. }
  cbn [rd_tool_calls tool_calls_truthy_dicts].
  erewrite bind_ok by reflexivity.
  fold et. fold (plain_response _parse_thinking_response reply et). fold resp.
  assert (Ham : assistant_message resp
                = mkMessage ASSISTANT (resp_content resp) None None).
  { unfold assistant_message. by rewrite Hcalls. }
  rewrite Ham.
  erewrite bind_ok by apply append_message_eq.
  unfold save_current_session. erewrite bind_ok by apply emit_eq.
  unfold ret. cbn [conversation tool_registry tool_executor log].
  by rewrite <- !app_assoc.
Qed.

Lemma join_fragments_cons (x : string) (l : list string) :
  join_fragments (x :: l) = x +:+ join_fragments l.
Proof. reflexivity. Qed.

(** The plain feed: every chunk is yielded and added to the accumulated
    text, in order; nothing else happens. *)
Lemma consume_text_eq (chunks : list string) : forall ls st,
  consume_text_feed chunks ls st
  = (Ok (mkStreamLocals (accumulated_content ls +:+ join_fragments chunks)
           (accumulated_tool_calls ls) (current_tool_call ls)),
     mkEngine (conversation st) (tool_registry st) (tool_executor st)
       (log st ++ ((fun x => EvYield (text_response x)) <$> chunks))).
Proof.
  induction chunks as [| x chunks IH]; intros ls st.
  - simpl. unfold ret. rewrite app_nil_r.
    change (join_fragments []) with EmptyString.
    rewrite string_app_empty_r. by destruct ls, st.
  - cbn [consume_text_feed]. unfold yield_chunk.
    erewrite bind_ok by apply emit_eq. rewrite IH.
    cbn [add_content accumulated_content accumulated_tool_calls
         current_tool_call conversation tool_registry tool_executor log].
    rewrite join_fragments_cons, string_app_assoc, fmap_cons.
    by rewrite <- app_assoc.
Qed.

(** X20.  A [stream_message] turn in which no tools are on offer and the
    provider's feed ends normally: every chunk is yielded, in the order of
    the feed; the turn appends the user message and then one assistant
    message whose content is the concatenation of the chunks, and saves; no
    tool is executed. *)
Theorem stream_message_plain_turn text thinking_mode tools enable_tools st
    (chunks : list string) :
  let um := user_message config _create_thinking_prompt text thinking_mode in
  let c1 := add_message (conversation st) um in
  let am := mkMessage ASSISTANT (join_fragments chunks) None None in
  tools_to_offer provider config tools enable_tools (tool_registry st) = None ->
  Provider.stream_message provider (messages c1) = (chunks, None) ->
  stream text thinking_mode tools enable_tools st
  = (Ok tt,
     mkEngine (add_message c1 am) (tool_registry st) (tool_executor st)
       (log st ++ [EvAppend um; EvStreamMessage (messages c1)]
        ++ ((fun x => EvYield (text_response x)) <$> chunks)
        ++ [EvAppend am; EvSave])).
Proof.
  intros um c1 am Hoffer Hfeed.
  unfold stream_message. rewrite Hoffer.
  erewrite bind_ok by apply append_message_eq.
  erewrite bind_ok by reflexivity.
  unfold get_messages_for_provider. cbn [conversation].
  fold um. fold c1. unfold try_except, stream_message_try.
  erewrite bind_ok; cycle 1.
  { erewrite bind_ok by apply emit_eq. rewrite Hfeed. cbn [fst snd].
    erewrite bind_ok by apply consume_text_eq. reflexivity. }
  unfold final_message.
  cbn [accumulated_content accumulated_tool_calls fmap list_fmap].
  change (EmptyString +:+ join_fragments chunks) with (join_fragments chunks).
  fold am.
  erewrite bind_ok by apply append_message_eq.
  unfold save_current_session. rewrite emit_eq.
  cbn [conversation tool_registry tool_executor log].
  by rewrite <- !app_assoc.
Qed.


(** X22.  When tools are on offer and the provider's feed is
    [tool_call_start(id, name)], argument fragments, [stop], but the text
    joined from the fragments does not parse: the tool is not executed and no
    tool message is appended; one chunk with the error text is yielded, and
    the turn completes with an assistant message that carries the error text
    and names the call, its arguments being the empty string. *)
Theorem streamed_tool_call_unparsable text thinking_mode tools enable_tools st
    available id name (fragments : list string) e :
  let um := user_message config _create_thinking_prompt text thinking_mode in
  let c1 := add_message (conversation st) um in
  let error_text := "Error executing " +:+ name +:+ ": " +:+ exn_msg e in
  let am :=
    mkMessage ASSISTANT error_text
      (Some [VDict [("id", VStr id); ("name", VStr name);
                    ("arguments", VStr EmptyString)]]) None in
  tools_to_offer provider config tools enable_tools (tool_registry st)
  = Some available ->
  Provider.stream_message_with_tools provider (messages c1) available
  = (ev_tool_call_start id name :: (ev_tool_call_delta <$> fragments) ++ [ev_stop],
     None) ->
  parse_arguments_json json_loads (join_fragments fragments) = Raise e ->
  stream text thinking_mode tools enable_tools st
  = (Ok tt,
     mkEngine (add_message c1 am) (tool_registry st) (tool_executor st)
       (log st ++ [EvAppend um;
                   EvStreamMessageWithTools (messages c1) available;
                   EvYield (text_response error_text);
                   EvAppend am; EvSave])).
Proof.
  intros um c1 error_text am Hoffer Hfeed Hparse.
  unfold stream_message. rewrite Hoffer.
  erewrite bind_ok by apply append_message_eq.
  erewrite bind_ok by reflexivity.
  unfold get_messages_for_provider. cbn [conversation].
  fold um. fold c1. unfold try_except, stream_message_try.
  erewrite bind_ok; cycle 1.
  { erewrite bind_ok by apply emit_eq. rewrite Hfeed. cbn [fst snd].
    erewrite bind_ok; [reflexivity |].
    cbn [consume_tool_feed].
    erewrite bind_ok by apply stream_step_start.
    cbn [dict_set accumulated_tool_calls accumulated_content].
    rewrite consume_deltas. cbn [consume_tool_feed String.append].
    erewrite bind_ok; [reflexivity |].
    unfold stream_step. cbn [ev_stop rd_tool_call_start rd_tool_call_delta
      rd_content rd_stop current_tool_call accumulated_tool_calls].
    cbn [execute_accumulated].
    erewrite bind_ok; [reflexivity |].
    rewrite execute_accumulated_call_eq. cbn [acc_arguments_json acc_name].
    change (EmptyString +:+ join_fragments fragments)
      with (join_fragments fragments).
    rewrite Hparse. reflexivity. }
  unfold final_message.
  cbn [add_content accumulated_content accumulated_tool_calls fmap list_fmap
       accumulated_call_entry fst snd acc_name acc_arguments].
  change (EmptyString +:+ error_text) with error_text.
  fold error_text. fold am.
  erewrite bind_ok by apply append_message_eq.
  unfold save_current_session. rewrite emit_eq.
  cbn [conversation tool_registry tool_executor log].
  by rewrite <- !app_assoc.
Qed.

End PlainTurns.

(** X19 on a provider that answers [Hello], thinking mode off. *)
Lemma send_message_plain_turn_witness :
  let run :=
    send_message Examples.chatty Scenario.config str_scalar mapping_expected
      Scenario.no_thinking_prompt Scenario.no_thinking_parse
      "hi" None None None Scenario.fresh_engine in
  run.1 = Ok (text_response "Hello")
  /\ messages (conversation run.2)
     = [Scenario.user_msg "hi"; mkMessage ASSISTANT "Hello" None None]
  /\ log run.2
     = [EvAppend (Scenario.user_msg "hi");
        EvCreateMessage [Scenario.user_msg "hi"];
        EvAppend (mkMessage ASSISTANT "Hello" None None); EvSave].
Proof.
  cbv zeta.
  destruct (send_message_plain_turn Examples.chatty Scenario.config str_scalar
              mapping_expected Scenario.no_thinking_prompt
              Scenario.no_thinking_parse "hi" None None None
              Scenario.fresh_engine "Hello") as (Hrun & _ & _).
  - reflexivity.
  - reflexivity.
  - rewrite Hrun. repeat split.
Defined.

(** X20 on a provider that streams [Hel] and [lo]. *)
Lemma stream_message_plain_turn_witness :
  let run :=
    stream_message Examples.chatty Scenario.config str_scalar Json.loads
      mapping_expected Scenario.no_thinking_prompt Scenario.no_thinking_parse
      "hi" None None None Scenario.fresh_engine in
  run.1 = Ok tt
  /\ messages (conversation run.2)
     = [Scenario.user_msg "hi"; mkMessage ASSISTANT "Hello" None None]
  /\ log run.2
     = [EvAppend (Scenario.user_msg "hi");
        EvStreamMessage [Scenario.user_msg "hi"];
        EvYield (text_response "Hel"); EvYield (text_response "lo");
        EvAppend (mkMessage ASSISTANT "Hello" None None); EvSave].
Proof.
  cbv zeta.
  rewrite (stream_message_plain_turn Examples.chatty Scenario.config str_scalar
             Json.loads mapping_expected Scenario.no_thinking_prompt
             Scenario.no_thinking_parse "hi" None None None
             Scenario.fresh_engine ["Hel"; "lo"] eq_refl eq_refl).
  repeat split.
Defined.


(** X22 on a provider that streams a call of [calc] whose arguments read
    [{oops]. *)
Lemma streamed_tool_call_unparsable_witness :
  let run :=
    stream_message Examples.garbled Scenario.config str_scalar Json.loads
      mapping_expected Scenario.no_thinking_prompt Scenario.no_thinking_parse
      "add 1 and 2" None None None Scenario.fresh_engine in
  run.1 = Ok tt
  /\ executed_calls (log run.2) = []
  /\ messages (conversation run.2)
     = [Scenario.user_msg "add 1 and 2";
        mkMessage ASSISTANT "Error executing calc: Expecting property name"
          (Some [VDict [("id", VStr "a"); ("name", VStr "calc");
                        ("arguments", VStr EmptyString)]]) None].
Proof.
  cbv zeta.
  rewrite (streamed_tool_call_unparsable Examples.garbled Scenario.config
             str_scalar Json.loads mapping_expected
             Scenario.no_thinking_prompt Scenario.no_thinking_parse
             "add 1 and 2" None None None Scenario.fresh_engine
             [Scenario.calc_schema] "a" "calc" ["{oops"]
             (Json.decode_error "Expecting property name")).
  - repeat split.
  - vm_compute. reflexivity.
  - reflexivity.
  - vm_compute. reflexivity.
Defined.

(** ** Starting and clearing a conversation *)

Lemma slice_from_nil {A} (k : Z) : slice_from (@nil A) k = [].
Proof. unfold slice_from. destruct (k <? 0); apply drop_nil. Qed.

Lemma add_system_to_empty (c : Conversation) (m : Message) :
  messages c = [] -> role m = SYSTEM -> messages (add_message c m) = [m].
Proof.
  intros Hempty Hrole. unfold add_message, _trim_history.
  cbn [messages max_history set_messages]. rewrite Hempty.
  change ([] ++ [m]) with [m].
  destruct (max_history c <? _); [| done].
  cbn [messages set_messages]. unfold system_of, others_of.
  rewrite !filter_cons, !filter_nil.
  case_decide; [| done]. case_decide; [done |].
  by rewrite slice_from_nil.
Qed.

(** X23.  After [clear_conversation], and likewise when the engine is
    created, the history holds the configured system prompt as its only
    message, or nothing when no prompt (or an empty one) is configured;
    this is so for every history bound, also a bound of zero. *)
Theorem clear_conversation_leaves_prompt (system_prompt : option string)
    (c : Conversation) (limit : Z) :
  let expected :=
    match system_prompt with
    | Some prompt =>
        if str_truthy prompt then [mkMessage SYSTEM prompt None None] else []
    | None => []
    end in
  messages (clear_conversation system_prompt c) = expected
  /\ messages (initial_conversation system_prompt limit) = expected.
Proof.
  unfold clear_conversation, initial_conversation.
  destruct system_prompt as [prompt |]; [| done].
  destruct (str_truthy prompt); [| done].
  split; by apply add_system_to_empty.
Qed.

(** ** The tools shown to the user *)

Section AvailableTools.

Implicit Types (schemas : list ToolSchema) (unique : list (string * value)).

Lemma dict_get_keys {V} (k : string) (d : list (string * V)) :
  is_Some (dict_get k d) <-> k ∈ d.*1.
Proof.
  induction d as [| [k' v'] d IH]; simpl.
  - split; [by intros [? ?] | by intros ?%elem_of_nil].
  - destruct (String.eqb_spec k k') as [-> | Hne].
    + split; [left | eauto].
    + rewrite IH. split; [by right | by intros [? | ?]%elem_of_cons].
Qed.

Lemma dict_set_elem {V} (k : string) (v : V) (d : list (string * V)) x :
  x ∈ dict_set k v d -> x = (k, v) \/ x ∈ d.
Proof.
  induction d as [| [k' v'] d IH]; simpl.
  - intros ->%list_elem_of_singleton. by left.
  - destruct (String.eqb k k').
    + intros [-> | ?]%elem_of_cons; [by left | right; by right].
    + intros [-> | Hin]%elem_of_cons; [right; left |].
      destruct (IH Hin) as [-> | ?]; [by left | right; by right].
Qed.

Lemma unique_tools_spec schemas : forall unique,
  NoDup unique.*1 ->
  NoDup (unique_tools schemas unique).*1
  /\ (forall n, n ∈ (unique_tools schemas unique).*1
                <-> n ∈ unique.*1 \/ n ∈ schema_name <$> schemas)
  /\ (forall n v, (n, v) ∈ unique_tools schemas unique ->
                  (n, v) ∈ unique
                  \/ exists schema, schema ∈ schemas
                                    /\ schema_name schema = n
                                    /\ v = tool_entry schema).
Proof.
  induction schemas as [| schema schemas IH]; intros unique Hnodup; simpl.
  - split; [done |]. split; [| by left].
    intros n. split; [by left | by intros [? | ?%elem_of_nil]].
  - destruct (dict_get (schema_name schema) unique) as [v0 |] eqn:Hget.
    + destruct (IH unique Hnodup) as (Hnd & Hkeys & Hentries).
      split; [done |]. split.
      * intros n. rewrite Hkeys, elem_of_cons. split; [tauto |].
        intros [? | [-> | ?]]; [tauto | | tauto].
        left. apply dict_get_keys. by rewrite Hget.
      * intros n v Hin. destruct (Hentries n v Hin) as [? | (s & ? & ? & ?)];
          [by left |].
        right. exists s. split; [by right | done].
    + assert (Hfresh : schema_name schema ∉ unique.*1).
      { rewrite <- dict_get_keys, Hget. by intros [? ?]. }
      destruct (IH (dict_set (schema_name schema) (tool_entry schema) unique))
        as (Hnd & Hkeys & Hentries).
      { by apply dict_set_keys_nodup. }
      split; [done |]. split.
      * intros n. rewrite Hkeys, elem_of_cons. split.
        -- intros [Hin | ?]; [| tauto].
           apply dict_set_keys_fresh in Hin. tauto.
        -- intros [Hin | [-> | ?]]; [| | tauto].
           ++ left. by apply dict_set_keys_incl.
           ++ left. apply dict_set_key_in.
      * intros n v Hin. destruct (Hentries n v Hin) as [Hset | (s & ? & ? & ?)].
        -- apply dict_set_elem in Hset as [[= -> ->] | ?]; [| by left].
           right. exists schema. split; [left | done].
        -- right. exists s. split; [by right | done].
Qed.

(** X24.  [get_available_tools] lists every tool name of the registry's
    schemas once: the names of its entries are pairwise distinct, they are
    exactly the names that occur among the schemas, and every entry is built
    from one of the schemas of that name. *)
Theorem get_available_tools_unique reg :
  let unique := unique_tools (get_tool_schemas reg) [] in
  get_available_tools reg = unique.*2
  /\ NoDup unique.*1
  /\ (forall n, n ∈ unique.*1 <-> n ∈ schema_name <$> get_tool_schemas reg)
  /\ (forall n v, (n, v) ∈ unique ->
        exists schema, schema ∈ get_tool_schemas reg
                       /\ schema_name schema = n /\ v = tool_entry schema).
Proof.
  cbv zeta. split; [done |].
  destruct (unique_tools_spec (get_tool_schemas reg) []) as (Hnd & Hkeys & Hentries).
  { constructor. }
  split; [done |]. split.
  - intros n. rewrite Hkeys. split; [by intros [?%elem_of_nil | ?] | by right].
  - intros n v Hin. by destruct (Hentries n v Hin) as [?%elem_of_nil | ?].
Qed.

End AvailableTools.

(** ** What the Anthropic adapter sends *)

Section Anthropic.

Import AnthropicProvider.

(** X25.  Of a history, the Anthropic adapter sends every message that is
    not a system message, and only those, in order: an assistant message
    under the role [assistant] with its content, a user message under the
    role [user] with its content, and a tool message under the role [user]
    with its content after the words [Tool result: ].  It sends the content
    of the first system message as the system prompt; system messages after
    the first are not sent. *)
Theorem anthropic_sends_non_system_messages (ms : list Message) :
  _convert_messages_to_anthropic_format ms
  = (fun m =>
       mkAnthropicMessage
         (if bool_decide (role m = ASSISTANT) then "assistant" else "user")
         (if bool_decide (role m = TOOL) then "Tool result: " +:+ content m
          else content m))
    <$> others_of ms
  /\ _extract_system_message ms = head (content <$> system_of ms).
Proof.
  unfold others_of, system_of. induction ms as [| m ms (IH1 & IH2)]; [done |].
  rewrite !filter_cons. simpl. destruct m as [r c tcs id]. cbn [role content].
  destruct r; repeat (case_decide; try congruence);
    repeat (case_bool_decide; try congruence);
    rewrite ?fmap_cons; cbn [role content];
    repeat (case_bool_decide; try congruence);
    (split; [by rewrite ?IH1 | done]).
Qed.

End Anthropic.

(** ** Thinking mode: the two parts of a reply *)

Section ThinkingProperties.

Variable py_strip : string -> string.

Lemma strip_prefix_app (p s rest : string) :
  Json.strip_prefix p s = Some rest <-> s = p +:+ rest.
Proof.
  revert s. induction p as [| a p IH]; intros s; simpl.
  - split; [by intros [= ->] | by intros ->].
  - destruct s as [| b s]; [done |].
    destruct (Ascii.eqb_spec a b) as [-> | Hne].
    + rewrite IH, string_app_cons. split; [by intros -> | by intros [= ->]].
    + rewrite string_app_cons. split; [done | intros [= ]; congruence].
Qed.

Lemma split_once_app (sep s before after : string) :
  split_once sep s = Some (before, after) -> s = before +:+ sep +:+ after.
Proof.
  revert before. induction s as [| c s IH]; intros before.
  - simpl. destruct (Json.strip_prefix sep EmptyString) as [rest |] eqn:Hp; [| done].
    intros [= <- <-]. by apply strip_prefix_app in Hp.
  - cbn [split_once].
    destruct (Json.strip_prefix sep (String c s)) as [rest |] eqn:Hp.
    + intros [= <- <-]. by apply strip_prefix_app in Hp.
    + destruct (split_once sep s) as [[b a] |]; [| done].
      intros [= <- <-]. rewrite string_app_cons. f_equal. by apply IH.
Qed.

Lemma split_once_none (sep s : string) :
  split_once sep s = None <-> ~ occurs_in sep s.
Proof.
  split.
  - intros Hnone (before & after & ->). revert Hnone.
    induction before as [| c before IH].
    + change (EmptyString +:+ sep +:+ after) with (sep +:+ after).
      destruct (sep +:+ after) as [| c s] eqn:Hs; cbn [split_once].
      * by rewrite (proj2 (strip_prefix_app sep EmptyString after)).
      * rewrite (proj2 (strip_prefix_app sep (String c s) after)); done.
    + rewrite string_app_cons. cbn [split_once].
      destruct (Json.strip_prefix sep _); [done |].
      destruct (split_once sep (before +:+ sep +:+ after)) as [[b a] |]; [done |].
      intros _. by apply IH.
  - intros Hno. destruct (split_once sep s) as [[b a] |] eqn:Hsplit; [| done].
    destruct Hno. exists b, a. by apply split_once_app.
Qed.

Lemma first_split_app seps content before after :
  first_split seps content = Some (before, after) ->
  exists sep, sep ∈ seps /\ content = before +:+ sep +:+ after.
Proof.
  induction seps as [| sep seps IH]; [done |]. simpl.
  destruct (split_once sep content) as [[b a] |] eqn:Hsplit.
  - intros [= <- <-]. exists sep. split; [left | by apply split_once_app].
  - intros H. destruct (IH H) as (sep' & ? & ?). exists sep'. split; [by right | done].
Qed.

Lemma first_split_none seps content :
  Forall (fun sep => ~ occurs_in sep content) seps ->
  first_split seps content = None.
Proof.
  induction 1 as [| sep seps Hsep _ IH]; [done |]. simpl.
  by rewrite (proj2 (split_once_none sep content) Hsep).
Qed.

(** X26.  Whatever the reply of the model, the answer that
    [_parse_thinking_response] extracts from it is a tail of the reply, and
    for a reply that is not empty the thinking and the answer are not both
    empty.  A reply in which none of the separators occurs is the answer as
    a whole, with no thinking. *)
Theorem parse_thinking_response_tail (content : string) :
  let parsed := _parse_thinking_response py_strip content in
  (exists before, content = before +:+ parsed.2)
  /\ (content <> EmptyString ->
      parsed.1 <> EmptyString \/ parsed.2 <> EmptyString)
  /\ (Forall (fun sep => ~ occurs_in sep content) separators ->
      parsed = (EmptyString, content)).
Proof.
  cbv zeta. unfold _parse_thinking_response.
  destruct (first_split separators content) as [[before after] |] eqn:Hsplit.
  - destruct (first_split_app _ _ _ _ Hsplit) as (sep & _ & Hcontent).
    set (thinking := py_strip _).
    split; [| split].
    + destruct thinking, after; simpl; try (by exists EmptyString).
      all: exists (before +:+ sep); by rewrite string_app_assoc.
    + intros Hne. destruct thinking, after; simpl; auto.
    + intros Hnone. by rewrite (first_split_none _ _ Hnone) in Hsplit.
  - simpl. split; [by exists EmptyString |]. split; [auto | done].
Qed.

End ThinkingProperties.

(** ** Execution statistics *)

Section Statistics.

Implicit Types (history : list ExecutionRecord) (counts : list (string * Z)).

Lemma uses_of_cons record history n :
  uses_of n (record :: history)
  = (if bool_decide (rec_tool_name record = n) then 1 else 0) + uses_of n history.
Proof.
  unfold uses_of. rewrite filter_cons.
  case_decide; case_bool_decide; try done; simpl length; lia.
Qed.

Lemma uses_of_nonneg n history : 0 <= uses_of n history.
Proof. unfold uses_of. lia. Qed.

Lemma count_tools_get history : forall counts n,
  dict_get n (count_tools history counts)
  = match dict_get n counts with
    | Some k => Some (k + uses_of n history)
    | None => if uses_of n history =? 0 then None else Some (uses_of n history)
    end.
Proof.
  induction history as [| record history IH]; intros counts n.
  - simpl. destruct (dict_get n counts) as [k |]; [| done].
    f_equal. unfold uses_of. simpl. lia.
  - cbn [count_tools]. rewrite IH, uses_of_cons.
    pose proof (uses_of_nonneg n history) as Hnn.
    case_bool_decide as Hname.
    + subst n. rewrite dict_get_set_eq.
      destruct (dict_get (rec_tool_name record) counts) as [k |]; simpl.
      * f_equal. lia.
      * destruct (Z.eqb_spec (1 + uses_of (rec_tool_name record) history) 0);
          [lia | f_equal; lia].
    + rewrite dict_get_set_ne by done.
      destruct (dict_get n counts) as [k |]; [done |].
      by rewrite Z.add_0_l.
Qed.

Lemma count_tools_nodup history : forall counts,
  NoDup counts.*1 -> NoDup (count_tools history counts).*1.
Proof.
  induction history as [| record history IH]; intros counts Hnd; [done |].
  simpl. by apply IH, dict_set_keys_nodup.
Qed.

Lemma dict_get_elem_of {V} (n : string) (v : V) (d : list (string * V)) :
  dict_get n d = Some v -> (n, v) ∈ d.
Proof.
  induction d as [| [k' v'] d IH]; simpl; [done |].
  destruct (String.eqb_spec n k') as [-> | Hne].
  - intros [= ->]. left.
  - intros H. right. by apply IH.
Qed.

Lemma elem_of_dict_get {V} (n : string) (v : V) (d : list (string * V)) :
  NoDup d.*1 -> (n, v) ∈ d -> dict_get n d = Some v.
Proof.
  induction d as [| [k' v'] d IH]; simpl.
  - by intros _ ?%elem_of_nil.
  - intros [Hnotin Hnd]%NoDup_cons [[= -> ->] | Hin]%elem_of_cons.
    + by rewrite String.eqb_refl.
    + destruct (String.eqb_spec n k') as [-> | Hne]; [| by apply IH].
      destruct Hnotin. apply list_elem_of_fmap. by exists (k', v).
Qed.

Lemma insert_by_count_perm x counts : insert_by_count x counts ≡ₚ x :: counts.
Proof.
  induction counts as [| y counts IH]; simpl; [done |].
  destruct (x.2 <? y.2); [| done].
  rewrite IH. apply Permutation_swap.
Qed.

Lemma sorted_by_count_perm counts : sorted_by_count counts ≡ₚ counts.
Proof.
  induction counts as [| x counts IH]; simpl; [done |].
  by rewrite insert_by_count_perm, IH.
Qed.

Lemma insert_by_count_sorted x counts :
  by_decreasing_count counts -> by_decreasing_count (insert_by_count x counts).
Proof.
  induction counts as [| y counts IH]; simpl.
  - intros _. split; [constructor | done].
  - intros [Hy Hsorted].
    destruct (Z.ltb_spec x.2 y.2) as [Hlt | Hge]; simpl.
    + split; [| by apply IH].
      rewrite insert_by_count_perm. constructor; [lia | done].
    + split; [| done].
      constructor; [done |].
      eapply Forall_impl; [exact Hy |]. simpl. intros z Hz. lia.
Qed.

Lemma sorted_by_count_sorted counts :
  by_decreasing_count (sorted_by_count counts).
Proof.
  induction counts as [| x counts IH]; simpl; [done |].
  by apply insert_by_count_sorted.
Qed.

Lemma by_decreasing_count_app (l1 l2 : list (string * Z)) x y :
  by_decreasing_count (l1 ++ l2) -> x ∈ l1 -> y ∈ l2 -> y.2 <= x.2.
Proof.
  induction l1 as [| a l1 IH]; simpl; [by intros _ ?%elem_of_nil |].
  intros [Hall Hsorted] [-> | Hx]%elem_of_cons Hy.
  - rewrite Forall_forall in Hall. apply Hall, elem_of_app. by right.
  - by apply IH.
Qed.

Lemma by_decreasing_count_take (n : nat) (l : list (string * Z)) :
  by_decreasing_count l -> by_decreasing_count (take n l).
Proof.
  revert n. induction l as [| x l IH]; intros [| n]; simpl; try done.
  intros [Hall Hsorted]. split; [by apply Forall_take | by apply IH].
Qed.

(** X27.  The execution statistics: the total is the length of the
    history and splits into successes and failures; at most five tools are
    reported, each once, by decreasing count, with the number of history
    entries that are about it; and a tool that is not reported was used no
    more often than any tool that is. *)
Theorem execution_stats_spec (ex : ToolExecutor) :
  let stats := get_execution_stats ex in
  let history := execution_history ex in
  total_executions stats = Z.of_nat (length history)
  /\ successful_executions stats
     = Z.of_nat (length (filter (fun record => rec_success record = true) history))
  /\ successful_executions stats + failed_executions stats
     = total_executions stats
  /\ 0 <= failed_executions stats
  /\ (length (most_used_tools stats) <= 5)%nat
  /\ NoDup (most_used_tools stats).*1
  /\ by_decreasing_count (most_used_tools stats)
  /\ (forall n k, (n, k) ∈ most_used_tools stats ->
        k = uses_of n history /\ 0 < k)
  /\ (forall n k n', (n, k) ∈ most_used_tools stats ->
        n' ∉ (most_used_tools stats).*1 -> uses_of n' history <= k).
Proof.
  cbv zeta.
  set (history := execution_history ex).
  set (counts := count_tools history []).
  assert (Hstats : get_execution_stats ex
            = mkExecutionStats (Z.of_nat (length history))
                (Z.of_nat (length (filter (fun record => rec_success record = true)
                                     history)))
                (Z.of_nat (length history)
                 - Z.of_nat (length (filter (fun record => rec_success record = true)
                                       history)))
                (take 5 (sorted_by_count counts))).
  { unfold get_execution_stats, counts, history.
    by destruct (execution_history ex). }
  rewrite Hstats. cbn [total_executions successful_executions failed_executions
                       most_used_tools].
  pose proof (length_filter (fun record => rec_success record = true) history)
    as Hle.
  assert (Hnd : NoDup counts.*1) by (apply count_tools_nodup; constructor).
  assert (Hget : forall n, dict_get n counts
                           = if uses_of n history =? 0 then None
                             else Some (uses_of n history)).
  { intros n. unfold counts. by rewrite count_tools_get. }
  assert (Hnd' : NoDup (sorted_by_count counts).*1).
  { by rewrite sorted_by_count_perm. }
  assert (Hcount : forall n k, (n, k) ∈ take 5 (sorted_by_count counts) ->
                     k = uses_of n history /\ 0 < k).
  { intros n k Hin. apply (subseteq_take 5) in Hin.
    rewrite sorted_by_count_perm in Hin.
    apply (elem_of_dict_get _ _ _ Hnd) in Hin. rewrite Hget in Hin.
    pose proof (uses_of_nonneg n history).
    destruct (Z.eqb_spec (uses_of n history) 0); [done |].
    injection Hin as <-. lia. }
  split; [done |]. split; [done |]. split; [lia |]. split; [lia |].
  split; [rewrite length_take; lia |].
  split; [| split; [apply by_decreasing_count_take, sorted_by_count_sorted |
                    split; [exact Hcount |]]].
  - rewrite <- (take_drop 5 (sorted_by_count counts)), fmap_app in Hnd'.
    by apply NoDup_app in Hnd' as [? _].
  - intros n k n' Hin Hnotin.
    destruct (Hcount n k Hin) as [-> Hpos].
    pose proof (uses_of_nonneg n' history).
    destruct (Z.eq_dec (uses_of n' history) 0) as [Hzero | Hused]; [lia |].
    assert (Hin' : (n', uses_of n' history) ∈ sorted_by_count counts).
    { rewrite sorted_by_count_perm. apply dict_get_elem_of. rewrite Hget.
      by destruct (Z.eqb_spec (uses_of n' history) 0). }
    rewrite <- (take_drop 5 (sorted_by_count counts)) in Hin'.
    apply elem_of_app in Hin' as [Hin' | Hin'].
    { destruct Hnotin. apply list_elem_of_fmap. by eexists (_, _). }
    pose proof (sorted_by_count_sorted counts) as Hsorted.
    rewrite <- (take_drop 5 (sorted_by_count counts)) in Hsorted.
    apply (by_decreasing_count_app _ _ _ _ Hsorted Hin Hin').
Qed.

End Statistics.

(** ** The stored form of a session *)

Lemma to_dict_normalize (m : Message) :
  Message_to_dict (normalize_message m) = Message_to_dict m.
Proof.
  destruct m as [r c tcs id]. unfold Message_to_dict, normalize_message. simpl.
  f_equal.
  - by destruct tcs as [[| ? ?] |].
  - by destruct id as [[| ? ?] |].
Qed.

(** X28.  Every session can be read back from its dictionary, and the
    session read back has the same dictionary: what differs between a session
    and its round trip (an empty [tool_calls] list or an empty
    [tool_call_id]) never shows in the stored form, so that saving a loaded
    session again stores the same messages. *)
Theorem stored_form_is_stable (s : Session.ChatSession) :
  exists s',
    Session.from_dict (Session.to_dict s) = Ok s'
    /\ Session.to_dict s' = Session.to_dict s.
Proof.
  eexists. split; [apply session_roundtrip_normalizes |].
  unfold Session.to_dict. cbn [Session.info Session.conversation messages
                               max_history system_prompt].
  do 2 f_equal. rewrite <- list_fmap_compose.
  apply list_fmap_ext. intros i m _. apply to_dict_normalize.
Qed.

(** ** The engine and its sessions *)

Section PersistenceProperties.

Variable provider : Provider.BaseProvider.
Variable config : ChatConfig.
Variable py_str : value -> string.
Variable kwargs_type_error : value -> string.
Variable _create_thinking_prompt : string -> string.
Variable _parse_thinking_response : string -> string * string.

Local Abbreviation send :=
  (send_message provider config py_str kwargs_type_error
     _create_thinking_prompt _parse_thinking_response).



Import Persistence.


(** X30.  In an engine whose manager has no active session, as is the
    case after the engine is created, loading a session does not make it the
    active one: whatever turn follows, whether it returns or raises, nothing
    is written to the sessions directory. *)
Theorem loaded_session_is_not_saved {A} (turn : M A) id saved_at st :
  Sessions._active_session (session_manager st) = None ->
  let st1 := (load_session id st).2 in
  Sessions._active_session (session_manager st1) = None
  /\ Sessions.sessions_dir (session_manager (run_turn turn saved_at st1).2)
     = Sessions.sessions_dir (session_manager st).
Proof.
  intros Hactive.
  assert (Hview : forall st0,
            Sessions._active_session (manager_view st0)
            = Sessions._active_session (session_manager st0)
            /\ Sessions.sessions_dir (manager_view st0)
               = Sessions.sessions_dir (session_manager st0)).
  { intros st0. unfold manager_view. destruct (attached st0) as [key |]; [| done].
    by destruct (Sessions._sessions_cache (session_manager st0) !! key). }
  assert (Hload : Sessions._active_session (session_manager (load_session id st).2)
                  = None
                  /\ Sessions.sessions_dir (session_manager (load_session id st).2)
                     = Sessions.sessions_dir (session_manager st)).
  { destruct (Hview st) as [Ha Hd]. unfold load_session, Sessions.load_session.
    destruct (Sessions._sessions_cache (manager_view st) !! id) as [s |];
      [by rewrite <- Hactive |].
    destruct (Sessions.sessions_dir (manager_view st) !! id) as [data |];
      [| by rewrite <- Hactive].
    destruct (Session.from_dict data); simpl; by rewrite <- Hactive. }
  cbv zeta. destruct Hload as [Hnone Hdir]. split; [done |].
  unfold run_turn. destruct (turn _) as [r e].
  assert (Hsave : forall st0,
            Sessions._active_session (session_manager st0) = None ->
            Sessions.sessions_dir
              (session_manager (save_current_session saved_at st0).2)
            = Sessions.sessions_dir (session_manager st0)).
  { intros st0 H0. destruct (Hview st0) as [Ha Hd].
    unfold save_current_session. rewrite Ha, H0. simpl. done. }
  destruct (last _) as [[] |]; cbn [snd session_manager]; try done.
  by rewrite Hsave.
Qed.

End PersistenceProperties.


(** X30 on a new engine over a directory that holds one session, which
    is loaded and then continued by one turn. *)
Lemma loaded_session_is_not_saved_witness :
  let st1 :=
    (Persistence.load_session "1a2b3c4d"
       (Persistence.fresh Scenario.fresh_engine Examples.stored_directory)).2 in
  Sessions._active_session (Persistence.session_manager st1) = None
  /\ Sessions.sessions_dir
       (Persistence.session_manager
          (Persistence.run_turn
             (send_message Examples.chatty Scenario.config str_scalar
                mapping_expected Scenario.no_thinking_prompt
                Scenario.no_thinking_parse "hi" None None None)
             "2025-01-01T10:00:02" st1).2)
     = Examples.stored_directory.
Proof.
  apply (loaded_session_is_not_saved
           (send_message Examples.chatty Scenario.config str_scalar
              mapping_expected Scenario.no_thinking_prompt
              Scenario.no_thinking_parse "hi" None None None)
           "1a2b3c4d" "2025-01-01T10:00:02"
           (Persistence.fresh Scenario.fresh_engine Examples.stored_directory)).
  reflexivity.
Defined.
